(** * vsfsck: consistency checker and repairer for VSFS images

    A shallow embedding of [vsfsck.c].  The program keeps its whole state in
    global variables (the open image, the superblock, the two bitmaps, the
    inode table, the block reference tracking arrays and two counters); the
    embedding threads a record [fsck] holding them through a small
    state monad.  A run whose outcome the source does not determine (an array
    indexed out of bounds; an uninitialised local array used after an [fread]
    that did not fill it) has no result in the monad. *)

From Stdlib Require Import ZArith List Bool Lia.
Import ListNotations.
Local Open Scope Z_scope.

(** ** Constants ([#define]s) *)

Definition BLOCK_SIZE : Z := 4096.
Definition TOTAL_BLOCKS : Z := 64.
Definition INODE_SIZE : Z := 256.
Definition INODE_COUNT : Z := 80.
Definition MAGIC_NUMBER : Z := 0xD34D.

(** ** Machine integers

    [uint32_t] values are integers in [0, 2^32); [int] is the 32-bit two's
    complement type.  [u32] is the conversion to [unsigned int] (the result
    type of mixed [uint32_t]/[int] arithmetic), [to_int] the conversion to
    [int], [u8] the store into a [uint8_t]. *)

Definition u32 (z : Z) : Z := z mod 2 ^ 32.
Definition to_int (z : Z) : Z :=
  let w := z mod 2 ^ 32 in if w <? 2 ^ 31 then w else w - 2 ^ 32.
Definition u8 (z : Z) : Z := z mod 256.

(** Arrays of fixed size are total maps on indices; every access whose index
    the code does not bound statically is guarded where it is made. *)
Definition upd {A : Type} (f : Z -> A) (i : Z) (v : A) : Z -> A :=
  fun k => if k =? i then v else f k.

(** [zrange lo n] is [lo; lo+1; ...; lo+n-1]. *)
Fixpoint zrange (lo : Z) (n : nat) : list Z :=
  match n with
  | O => []
  | S n' => lo :: zrange (lo + 1) n'
  end.

(** ** On-disk records *)

(** [superblock_t]; [sb_pad] is the two-byte alignment hole after the 16-bit
    magic and [sb_tail] the two bytes that round the struct up to 4096.  Byte
    arrays ([reserved]) are maps on indices like every other array. *)
Record superblock_t : Type := mkSuperblock {
  magic : Z;
  sb_pad : Z -> Z;
  block_size : Z;
  total_blocks : Z;
  inode_bitmap_block : Z;
  data_bitmap_block : Z;
  inode_table_start : Z;
  data_block_start : Z;
  inode_size : Z;
  inode_count : Z;
  sb_reserved : Z -> Z;
  sb_tail : Z -> Z
}.

(** [inode_t] *)
Record inode_t : Type := mkInode {
  mode : Z;
  uid : Z;
  gid : Z;
  size : Z;
  atime : Z;
  ctime : Z;
  mtime : Z;
  dtime : Z;
  nlink : Z;
  blocks : Z;
  direct_blocks : Z -> Z;
  indirect_block : Z;
  double_indirect : Z;
  triple_indirect : Z;
  reserved : Z -> Z
}.

Definition set_direct_block (ino : inode_t) (j v : Z) : inode_t :=
  mkInode (mode ino) (uid ino) (gid ino) (size ino) (atime ino) (ctime ino)
          (mtime ino) (dtime ino) (nlink ino) (blocks ino)
          (upd (direct_blocks ino) j v)
          (indirect_block ino) (double_indirect ino) (triple_indirect ino)
          (reserved ino).

Definition set_indirect_block (ino : inode_t) (v : Z) : inode_t :=
  mkInode (mode ino) (uid ino) (gid ino) (size ino) (atime ino) (ctime ino)
          (mtime ino) (dtime ino) (nlink ino) (blocks ino)
          (direct_blocks ino)
          v (double_indirect ino) (triple_indirect ino)
          (reserved ino).

(** ** Standard output

    Each [printf] of the program is one constructor; the arguments are the
    values the format string prints. *)

Inductive sb_field : Type :=
| F_magic | F_block_size | F_total_blocks | F_inode_bitmap_block
| F_data_bitmap_block | F_inode_table_start | F_data_block_start
| F_inode_size | F_inode_count.

Inductive message : Type :=
| Usage
| OpenError
| Checking
| ErrSuperblock (f : sb_field) (found expected : Z)
| ErrInodeMarkedNotValid (i : Z)
| ErrInodeValidNotMarked (i : Z)
| ErrBlockMarkedNotReferenced (b : Z)
| ErrBlockReferencedNotMarked (b by_inode : Z)
| ErrDuplicate (b : Z) (claimants : list Z)
| ErrBadDirect (i j v : Z)
| ErrBadIndirect (i v : Z)
| ErrBadIndirectEntry (i j v : Z)
| Summary (recheck sb ib db dup bad : bool)
| TotalErrorsFound (n : Z)
| Attempting
| ErrorsFixed (n : Z)
| Rechecking
| OriginalErrors (n : Z)
| RemainingErrors (n : Z)
| AllFixed
| SomeRemain
| NoErrors.

(** ** The image file: its length and its bytes (the byte at an offset
    past the end is never looked at). *)

Record file : Type := mkFile {
  file_len : Z;
  file_byte : Z -> Z
}.

(** ** Program state: the global variables, the file behind [fs_image],
    standard output and the trace of [fwrite] calls (offset, size). *)

Record fsck : Type := mkFsck {
  fs_image : file;
  superblock : superblock_t;
  inode_bitmap : Z -> Z;
  data_bitmap : Z -> Z;
  inodes : Z -> inode_t;
  block_referenced : Z -> bool;
  block_referenced_by : Z -> Z;
  errors_found : Z;
  errors_fixed : Z;
  console : list message;
  fwrites : list (Z * Z)
}.

Definition with_image (img : file) (w : list (Z * Z)) (s : fsck) : fsck :=
  mkFsck img (superblock s) (inode_bitmap s) (data_bitmap s) (inodes s)
         (block_referenced s) (block_referenced_by s)
         (errors_found s) (errors_fixed s) (console s) w.

Definition with_superblock (sb : superblock_t) (s : fsck) : fsck :=
  mkFsck (fs_image s) sb (inode_bitmap s) (data_bitmap s) (inodes s)
         (block_referenced s) (block_referenced_by s)
         (errors_found s) (errors_fixed s) (console s) (fwrites s).

Definition with_inode_bitmap (bm : Z -> Z) (s : fsck) : fsck :=
  mkFsck (fs_image s) (superblock s) bm (data_bitmap s) (inodes s)
         (block_referenced s) (block_referenced_by s)
         (errors_found s) (errors_fixed s) (console s) (fwrites s).

Definition with_data_bitmap (bm : Z -> Z) (s : fsck) : fsck :=
  mkFsck (fs_image s) (superblock s) (inode_bitmap s) bm (inodes s)
         (block_referenced s) (block_referenced_by s)
         (errors_found s) (errors_fixed s) (console s) (fwrites s).

Definition with_inodes (tbl : Z -> inode_t) (s : fsck) : fsck :=
  mkFsck (fs_image s) (superblock s) (inode_bitmap s) (data_bitmap s) tbl
         (block_referenced s) (block_referenced_by s)
         (errors_found s) (errors_fixed s) (console s) (fwrites s).

Definition with_block_referenced (r : Z -> bool) (rb : Z -> Z) (s : fsck) : fsck :=
  mkFsck (fs_image s) (superblock s) (inode_bitmap s) (data_bitmap s) (inodes s)
         r rb
         (errors_found s) (errors_fixed s) (console s) (fwrites s).

Definition with_errors_found (n : Z) (s : fsck) : fsck :=
  mkFsck (fs_image s) (superblock s) (inode_bitmap s) (data_bitmap s) (inodes s)
         (block_referenced s) (block_referenced_by s)
         n (errors_fixed s) (console s) (fwrites s).

Definition with_errors_fixed (n : Z) (s : fsck) : fsck :=
  mkFsck (fs_image s) (superblock s) (inode_bitmap s) (data_bitmap s) (inodes s)
         (block_referenced s) (block_referenced_by s)
         (errors_found s) n (console s) (fwrites s).

Definition with_console (c : list message) (s : fsck) : fsck :=
  mkFsck (fs_image s) (superblock s) (inode_bitmap s) (data_bitmap s) (inodes s)
         (block_referenced s) (block_referenced_by s)
         (errors_found s) (errors_fixed s) c (fwrites s).

(** ** The monad: state passing, no result where C behaviour is undefined *)

Definition M (A : Type) : Type := fsck -> option (A * fsck).

Definition ret {A : Type} (a : A) : M A := fun s => Some (a, s).

Definition bind {A B : Type} (m : M A) (f : A -> M B) : M B :=
  fun s => match m s with
           | Some (a, s') => f a s'
           | None => None
           end.

Definition undefined {A : Type} : M A := fun _ => None.
Definition get : M fsck := fun s => Some (s, s).
Definition modify (f : fsck -> fsck) : M unit := fun s => Some (tt, f s).

Declare Scope fsck_scope.
Delimit Scope fsck_scope with fsck.
Notation "x <- c1 ;; c2" := (bind c1 (fun x => c2))
  (at level 61, c1 at next level, right associativity) : fsck_scope.
Notation "c1 ;; c2" := (bind c1 (fun _ => c2))
  (at level 61, right associativity) : fsck_scope.
Local Open Scope fsck_scope.

(** [for (int i = lo; ...; i++) body], run for [n] iterations, with the local
    variables the body updates passed along as [a]. *)
Fixpoint for_loop {A : Type} (n : nat) (i : Z) (body : Z -> A -> M A) (a : A) : M A :=
  match n with
  | O => ret a
  | S n' => a' <- body i a ;; for_loop n' (i + 1) body a'
  end.

Definition for_range {A : Type} (lo hi : Z) (body : Z -> A -> M A) (a : A) : M A :=
  for_loop (Z.to_nat (hi - lo)) lo body a.

Definition printf (m : message) : M unit :=
  modify (fun s => with_console (console s ++ [m]) s).

(** [errors_found++] and [errors_fixed++].  Neither counter can reach 2^31:
    one pass makes fewer than 100000 increments. *)
Definition incr_errors_found : M unit :=
  modify (fun s => with_errors_found (errors_found s + 1) s).
Definition incr_errors_fixed : M unit :=
  modify (fun s => with_errors_fixed (errors_fixed s + 1) s).

(** What every validator does at a finding:
    [printf(...); flag = false; errors_found++;], the value being the flag.
    [report c m flag] is [if (c) { that }]. *)
Definition found (m : message) : M bool :=
  printf m ;; incr_errors_found ;; ret false.

Definition report (c : bool) (m : message) (flag : bool) : M bool :=
  if c then found m else ret flag.

(** ** Reading and writing the image

    A buffer (the destination of [fread], the source of [fwrite]) is a map
    from byte index to byte, like every array.  The program never looks at
    what [fread] returns.  [fseek(off); fread(dst, n, 1, f)] stores the bytes
    the file has from [off] on over [dst], in order, and stops at the end of
    the file: the bytes of [dst] it did not reach are what they were.

    [file_read_into] is that read for a destination that holds bytes already,
    as the globals do (they start zeroed).  [file_read] is the read into the
    local [indirect_entries], which is not initialised: it yields the [n]
    bytes at [off] when the file has them all; after a short read the rest
    of the array is indeterminate and the program uses it regardless, so a
    run has no result from there on.  [file_write] is
    [fseek(off); fwrite(buf, n, 1, f)]: the file was opened ["r+"], a write
    past the end extends it (the hole reads as zeros). *)

Definition file_read_into (img : file) (off n : Z) (dst : Z -> Z) : Z -> Z :=
  fun k => if (0 <=? k) && (k <? n) && (off + k <? file_len img)
           then file_byte img (off + k)
           else dst k.

Definition file_read (img : file) (off n : Z) : option (Z -> Z) :=
  if off + n <=? file_len img
  then Some (fun k => file_byte img (off + k))
  else None.

Definition file_write (img : file) (off n : Z) (buf : Z -> Z) : file :=
  mkFile (Z.max (file_len img) (off + n))
         (fun k => if (off <=? k) && (k <? off + n)
                   then buf (k - off)
                   else if k <? file_len img then file_byte img k else 0).

(** [fread] into a global that holds the bytes [dst]. *)
Definition fread_into (off n : Z) (dst : Z -> Z) : M (Z -> Z) :=
  s <- get ;;
  ret (file_read_into (fs_image s) off n dst).

(** [fread] into the uninitialised local array. *)
Definition fread (off n : Z) : M (Z -> Z) :=
  s <- get ;;
  match file_read (fs_image s) off n with
  | Some buf => ret buf
  | None => undefined
  end.

Definition fwrite (off n : Z) (buf : Z -> Z) : M unit :=
  modify (fun s => with_image (file_write (fs_image s) off n buf)
                              (fwrites s ++ [(off, n)]) s).

(** ** Layout of the structs in memory and so in the file (little-endian,
    [uint32_t] aligned to 4 bytes, as on the x86-64 ABI the program is built
    for): [decode_*] reads a struct out of the bytes [fread] stored over it,
    [encode_*] gives the bytes [fwrite] takes from it. *)

Definition le16_at (buf : Z -> Z) (k : Z) : Z := buf k + 256 * buf (k + 1).

Definition le32_at (buf : Z -> Z) (k : Z) : Z :=
  buf k + 256 * buf (k + 1) + 65536 * buf (k + 2) + 16777216 * buf (k + 3).

(** Byte [k] of the little-endian representation of [v]. *)
Definition byte_of (v k : Z) : Z := (v / 256 ^ k) mod 256.

(** The bytes of [buf] from offset [off] on, as a [uint8_t] array. *)
Definition bytes_from (buf : Z -> Z) (off : Z) : Z -> Z :=
  fun k => buf (off + k).

Definition decode_superblock (buf : Z -> Z) : superblock_t :=
  mkSuperblock (le16_at buf 0) (bytes_from buf 2)
               (le32_at buf 4) (le32_at buf 8) (le32_at buf 12) (le32_at buf 16)
               (le32_at buf 20) (le32_at buf 24) (le32_at buf 28) (le32_at buf 32)
               (bytes_from buf 36) (bytes_from buf 4094).

Definition encode_superblock (sb : superblock_t) : Z -> Z :=
  fun k =>
    if k <? 2 then byte_of (magic sb) k
    else if k <? 4 then sb_pad sb (k - 2)
    else if k <? 8 then byte_of (block_size sb) (k - 4)
    else if k <? 12 then byte_of (total_blocks sb) (k - 8)
    else if k <? 16 then byte_of (inode_bitmap_block sb) (k - 12)
    else if k <? 20 then byte_of (data_bitmap_block sb) (k - 16)
    else if k <? 24 then byte_of (inode_table_start sb) (k - 20)
    else if k <? 28 then byte_of (data_block_start sb) (k - 24)
    else if k <? 32 then byte_of (inode_size sb) (k - 28)
    else if k <? 36 then byte_of (inode_count sb) (k - 32)
    else if k <? 4094 then sb_reserved sb (k - 36)
    else sb_tail sb (k - 4094).

Definition decode_inode (buf : Z -> Z) : inode_t :=
  mkInode (le32_at buf 0) (le32_at buf 4) (le32_at buf 8) (le32_at buf 12)
          (le32_at buf 16) (le32_at buf 20) (le32_at buf 24) (le32_at buf 28)
          (le32_at buf 32) (le32_at buf 36)
          (fun j => le32_at buf (40 + 4 * j))
          (le32_at buf 88) (le32_at buf 92) (le32_at buf 96)
          (bytes_from buf 100).

Definition encode_inode (ino : inode_t) : Z -> Z :=
  fun k =>
    if k <? 4 then byte_of (mode ino) k
    else if k <? 8 then byte_of (uid ino) (k - 4)
    else if k <? 12 then byte_of (gid ino) (k - 8)
    else if k <? 16 then byte_of (size ino) (k - 12)
    else if k <? 20 then byte_of (atime ino) (k - 16)
    else if k <? 24 then byte_of (ctime ino) (k - 20)
    else if k <? 28 then byte_of (mtime ino) (k - 24)
    else if k <? 32 then byte_of (dtime ino) (k - 28)
    else if k <? 36 then byte_of (nlink ino) (k - 32)
    else if k <? 40 then byte_of (blocks ino) (k - 36)
    else if k <? 88 then byte_of (direct_blocks ino ((k - 40) / 4)) ((k - 40) mod 4)
    else if k <? 92 then byte_of (indirect_block ino) (k - 88)
    else if k <? 96 then byte_of (double_indirect ino) (k - 92)
    else if k <? 100 then byte_of (triple_indirect ino) (k - 96)
    else reserved ino (k - 100).

(** A [uint32_t indirect_entries[BLOCK_SIZE / 4]] read from and written to a
    block. *)
Definition decode_entries (buf : Z -> Z) : Z -> Z := fun j => le32_at buf (4 * j).
Definition encode_entries (entries : Z -> Z) : Z -> Z :=
  fun k => byte_of (entries (k / 4)) (k mod 4).

(** ** Bitmaps: [get_bit], [set_bit], [clear_bit]

    [/] and [%] on [int] truncate towards zero. *)

Definition get_bit (bitmap : Z -> Z) (bit_index : Z) : Z :=
  let byte_index := Z.quot bit_index 8 in
  let bit_offset := Z.rem bit_index 8 in
  Z.land (Z.shiftr (bitmap byte_index) bit_offset) 1.

Definition set_bit (bitmap : Z -> Z) (bit_index : Z) : Z -> Z :=
  let byte_index := Z.quot bit_index 8 in
  let bit_offset := Z.rem bit_index 8 in
  upd bitmap byte_index (u8 (Z.lor (bitmap byte_index) (Z.shiftl 1 bit_offset))).

Definition clear_bit (bitmap : Z -> Z) (bit_index : Z) : Z -> Z :=
  let byte_index := Z.quot bit_index 8 in
  let bit_offset := Z.rem bit_index 8 in
  upd bitmap byte_index
      (u8 (Z.land (bitmap byte_index) (Z.lnot (Z.shiftl 1 bit_offset)))).

(** ** Metadata loader

    Each global is read in place: [fread(&superblock, ...)],
    [fread(inode_bitmap, ...)], [fread(&inodes[i], ...)]. *)

Definition read_superblock : M unit :=
  s <- get ;;
  buf <- fread_into 0 4096 (encode_superblock (superblock s)) ;;
  modify (with_superblock (decode_superblock buf)).

Definition read_bitmaps : M unit :=
  s <- get ;;
  buf <- fread_into (u32 (inode_bitmap_block (superblock s) * BLOCK_SIZE))
                    BLOCK_SIZE (inode_bitmap s) ;;
  modify (with_inode_bitmap buf) ;;
  buf <- fread_into (u32 (data_bitmap_block (superblock s) * BLOCK_SIZE))
                    BLOCK_SIZE (data_bitmap s) ;;
  modify (with_data_bitmap buf).

Definition read_inodes : M unit :=
  for_range 0 INODE_COUNT (fun i _ =>
    s <- get ;;
    buf <- fread_into (u32 (inode_table_start (superblock s) * BLOCK_SIZE
                            + i * INODE_SIZE)) 256
                      (encode_inode (inodes s i)) ;;
    modify (fun s => with_inodes (upd (inodes s) i (decode_inode buf)) s)) tt.

(** The single-indirect block [blk] as [uint32_t indirect_entries[1024]]; the
    product [blk * BLOCK_SIZE] is computed in [unsigned int]. *)
Definition read_indirect (blk : Z) : M (Z -> Z) :=
  buf <- fread (u32 (blk * BLOCK_SIZE)) BLOCK_SIZE ;;
  ret (decode_entries buf).

(** ** Persisting *)

Definition write_superblock : M unit :=
  s <- get ;;
  fwrite 0 4096 (encode_superblock (superblock s)).

Definition write_bitmaps : M unit :=
  s <- get ;;
  fwrite (u32 (inode_bitmap_block (superblock s) * BLOCK_SIZE)) BLOCK_SIZE
         (inode_bitmap s) ;;
  fwrite (u32 (data_bitmap_block (superblock s) * BLOCK_SIZE)) BLOCK_SIZE
         (data_bitmap s).

Definition write_inodes : M unit :=
  for_range 0 INODE_COUNT (fun i _ =>
    s <- get ;;
    fwrite (u32 (inode_table_start (superblock s) * BLOCK_SIZE + i * INODE_SIZE))
           256 (encode_inode (inodes s i))) tt.

(** ** Validators *)

(** [check_superblock]: nine consecutive [if]s, none of them returning. *)
Definition check_superblock : M bool :=
  s <- get ;;
  let sb := superblock s in
  consistent <- ret true ;;
  consistent <- report (negb (magic sb =? MAGIC_NUMBER))
                       (ErrSuperblock F_magic (magic sb) MAGIC_NUMBER) consistent ;;
  consistent <- report (negb (block_size sb =? BLOCK_SIZE))
                       (ErrSuperblock F_block_size (block_size sb) BLOCK_SIZE) consistent ;;
  consistent <- report (negb (total_blocks sb =? TOTAL_BLOCKS))
                       (ErrSuperblock F_total_blocks (total_blocks sb) TOTAL_BLOCKS) consistent ;;
  consistent <- report (negb (inode_bitmap_block sb =? 1))
                       (ErrSuperblock F_inode_bitmap_block (inode_bitmap_block sb) 1) consistent ;;
  consistent <- report (negb (data_bitmap_block sb =? 2))
                       (ErrSuperblock F_data_bitmap_block (data_bitmap_block sb) 2) consistent ;;
  consistent <- report (negb (inode_table_start sb =? 3))
                       (ErrSuperblock F_inode_table_start (inode_table_start sb) 3) consistent ;;
  consistent <- report (negb (data_block_start sb =? 8))
                       (ErrSuperblock F_data_block_start (data_block_start sb) 8) consistent ;;
  consistent <- report (negb (inode_size sb =? INODE_SIZE))
                       (ErrSuperblock F_inode_size (inode_size sb) INODE_SIZE) consistent ;;
  consistent <- report (negb (inode_count sb =? INODE_COUNT)
                        && negb (inode_count sb =? 0))
                       (ErrSuperblock F_inode_count (inode_count sb) INODE_COUNT) consistent ;;
  ret consistent.

(** [is_valid_inode]: [nlink > 0 && dtime == 0] on unsigned fields. *)
Definition is_valid_inode (s : fsck) (inode_index : Z) : bool :=
  (0 <? nlink (inodes s inode_index)) && (dtime (inodes s inode_index) =? 0).

Definition check_inode_bitmap_consistency : M bool :=
  for_range 0 INODE_COUNT (fun i consistent =>
    s <- get ;;
    let bit_value := get_bit (inode_bitmap s) i in
    let valid := is_valid_inode s i in
    if negb (bit_value =? 0) && negb valid then
      found (ErrInodeMarkedNotValid i)
    else if (bit_value =? 0) && valid then
      found (ErrInodeValidNotMarked i)
    else ret consistent) true.

(** [mark_block_referenced(int block_num, int inode_num)].  The first
    comparison is against a [uint32_t], so it is made on [block_num] converted
    to unsigned; the second is a signed one.  A negative [block_num] that is
    not below [data_block_start] passes both and indexes the array out of
    bounds. *)
Definition mark_block_referenced (block_num inode_num : Z) : M unit :=
  s <- get ;;
  if (u32 block_num <? data_block_start (superblock s))
     || (block_num >=? TOTAL_BLOCKS) then ret tt
  else if 0 <=? block_num then
    if block_referenced s block_num then ret tt
    else modify (fun s =>
           with_block_referenced (upd (block_referenced s) block_num true)
                                 (upd (block_referenced_by s) block_num inode_num) s)
  else undefined.

Definition reset_block_references : M unit :=
  for_range 0 TOTAL_BLOCKS (fun i _ =>
    modify (fun s =>
      with_block_referenced (upd (block_referenced s) i false)
                            (upd (block_referenced_by s) i (-1)) s)) tt.

(** "Mark direct blocks" of inode [i]. *)
Definition mark_direct_blocks (i : Z) : M unit :=
  for_range 0 12 (fun j _ =>
    s <- get ;;
    let b := direct_blocks (inodes s i) j in
    if negb (b =? 0) then mark_block_referenced (to_int b) i else ret tt) tt.

(** "Mark single indirect blocks" of inode [i]: the pointer, then every
    non-zero entry of the block it names, whatever the pointer is. *)
Definition mark_indirect_blocks (i : Z) : M unit :=
  s <- get ;;
  let ind := indirect_block (inodes s i) in
  if negb (ind =? 0) then
    mark_block_referenced (to_int ind) i ;;
    indirect_entries <- read_indirect ind ;;
    for_range 0 (BLOCK_SIZE / 4) (fun j _ =>
      if negb (indirect_entries j =? 0)
      then mark_block_referenced (to_int (indirect_entries j)) i
      else ret tt) tt
  else ret tt.

Definition mark_referenced_blocks : M unit :=
  for_range 0 INODE_COUNT (fun i _ =>
    s <- get ;;
    if is_valid_inode s i then
      mark_direct_blocks i ;;
      mark_indirect_blocks i
    else ret tt) tt.

(** The last loop of [check_data_bitmap_consistency]: [int i] starts at
    [superblock.data_block_start]; [i - superblock.data_block_start] is
    computed unsigned and passed as an [int]. *)
Definition compare_data_bitmap : M bool :=
  s <- get ;;
  for_range (to_int (data_block_start (superblock s))) TOTAL_BLOCKS
    (fun i consistent =>
       s <- get ;;
       let bit_value :=
         get_bit (data_bitmap s)
                 (to_int (u32 i - data_block_start (superblock s))) in
       if 0 <=? i then
         if negb (bit_value =? 0) && negb (block_referenced s i) then
           found (ErrBlockMarkedNotReferenced i)
         else if (bit_value =? 0) && block_referenced s i then
           found (ErrBlockReferencedNotMarked i (block_referenced_by s i))
         else ret consistent
       else undefined) true.

Definition check_data_bitmap_consistency : M bool :=
  reset_block_references ;;
  mark_referenced_blocks ;;
  compare_data_bitmap.

(** The locals of [check_duplicate_blocks]:
    [int block_references[TOTAL_BLOCKS][INODE_COUNT]] (not initialised) and
    [int reference_counts[TOTAL_BLOCKS]] (zeroed by [memset]). *)
Definition dup_locals : Type := ((Z -> Z -> Z) * (Z -> Z))%type.

(** [block_references[block_num][reference_counts[block_num]] = i;
     reference_counts[block_num]++;]
    A row has [INODE_COUNT] columns: the 81st reference to one block writes
    past it. *)
Definition record_reference (block_num i : Z) (loc : dup_locals) : M dup_locals :=
  let '(block_references, reference_counts) := loc in
  if reference_counts block_num <? INODE_COUNT then
    ret (upd block_references block_num
             (upd (block_references block_num) (reference_counts block_num) i),
         upd reference_counts block_num (reference_counts block_num + 1))
  else undefined.

(** [block_num != 0 && block_num < TOTAL_BLOCKS], unsigned. *)
Definition countable (block_num : Z) : bool :=
  negb (block_num =? 0) && (block_num <? TOTAL_BLOCKS).

(** "Check direct blocks" of inode [i]. *)
Definition count_direct_blocks (i : Z) (loc : dup_locals) : M dup_locals :=
  for_range 0 12 (fun j loc =>
    s <- get ;;
    let block_num := direct_blocks (inodes s i) j in
    if countable block_num then record_reference block_num i loc
    else ret loc) loc.

(** "Check indirect block" of inode [i]. *)
Definition count_indirect_blocks (i : Z) (loc : dup_locals) : M dup_locals :=
  s <- get ;;
  let ind := indirect_block (inodes s i) in
  if countable ind then
    loc <- record_reference ind i loc ;;
    indirect_entries <- read_indirect ind ;;
    for_range 0 (BLOCK_SIZE / 4) (fun j loc =>
      let block_num := indirect_entries j in
      if countable block_num then record_reference block_num i loc
      else ret loc) loc
  else ret loc.

Definition count_references : M dup_locals :=
  for_range 0 INODE_COUNT (fun i loc =>
    s <- get ;;
    if is_valid_inode s i then
      loc <- count_direct_blocks i loc ;;
      count_indirect_blocks i loc
    else ret loc) (fun _ _ => 0, fun _ => 0).

(** "Check for blocks with multiple references". *)
Definition report_duplicates (loc : dup_locals) : M bool :=
  let '(block_references, reference_counts) := loc in
  s <- get ;;
  for_range (to_int (data_block_start (superblock s))) TOTAL_BLOCKS
    (fun i no_duplicates =>
       if 0 <=? i then
         if 1 <? reference_counts i then
           found (ErrDuplicate i
                    (map (block_references i)
                         (zrange 0 (Z.to_nat (reference_counts i)))))
         else ret no_duplicates
       else undefined) true.

Definition check_duplicate_blocks : M bool :=
  loc <- count_references ;;
  report_duplicates loc.

(** [block_num < superblock.data_block_start || block_num >= TOTAL_BLOCKS], on
    unsigned operands. *)
Definition outside_data_region (s : fsck) (block_num : Z) : bool :=
  (block_num <? data_block_start (superblock s)) || (block_num >=? TOTAL_BLOCKS).

(** [block_num != 0 && (block_num < ... || block_num >= TOTAL_BLOCKS)] *)
Definition bad_block_number (s : fsck) (block_num : Z) : bool :=
  negb (block_num =? 0) && outside_data_region s block_num.

(** "Check direct blocks" of inode [i]. *)
Definition check_direct_blocks (i : Z) (no_bad_blocks : bool) : M bool :=
  for_range 0 12 (fun j no_bad_blocks =>
    s <- get ;;
    let block_num := direct_blocks (inodes s i) j in
    report (bad_block_number s block_num)
           (ErrBadDirect i j block_num) no_bad_blocks) no_bad_blocks.

(** "Check indirect block" of inode [i]. *)
Definition check_indirect_block (i : Z) (no_bad_blocks : bool) : M bool :=
  s <- get ;;
  let ind := indirect_block (inodes s i) in
  if negb (ind =? 0) then
    if outside_data_region s ind then
      found (ErrBadIndirect i ind)
    else
      indirect_entries <- read_indirect ind ;;
      for_range 0 (BLOCK_SIZE / 4) (fun j no_bad_blocks =>
        s <- get ;;
        let block_num := indirect_entries j in
        report (bad_block_number s block_num)
               (ErrBadIndirectEntry i j block_num) no_bad_blocks) no_bad_blocks
  else ret no_bad_blocks.

Definition check_bad_blocks : M bool :=
  for_range 0 INODE_COUNT (fun i no_bad_blocks =>
    s <- get ;;
    if is_valid_inode s i then
      no_bad_blocks <- check_direct_blocks i no_bad_blocks ;;
      check_indirect_block i no_bad_blocks
    else ret no_bad_blocks) true.

(** ** Repair engine *)

Definition set_magic (v : Z) (sb : superblock_t) : superblock_t :=
  mkSuperblock v (sb_pad sb) (block_size sb) (total_blocks sb)
    (inode_bitmap_block sb) (data_bitmap_block sb) (inode_table_start sb)
    (data_block_start sb) (inode_size sb) (inode_count sb)
    (sb_reserved sb) (sb_tail sb).
Definition set_block_size (v : Z) (sb : superblock_t) : superblock_t :=
  mkSuperblock (magic sb) (sb_pad sb) v (total_blocks sb)
    (inode_bitmap_block sb) (data_bitmap_block sb) (inode_table_start sb)
    (data_block_start sb) (inode_size sb) (inode_count sb)
    (sb_reserved sb) (sb_tail sb).
Definition set_total_blocks (v : Z) (sb : superblock_t) : superblock_t :=
  mkSuperblock (magic sb) (sb_pad sb) (block_size sb) v
    (inode_bitmap_block sb) (data_bitmap_block sb) (inode_table_start sb)
    (data_block_start sb) (inode_size sb) (inode_count sb)
    (sb_reserved sb) (sb_tail sb).
Definition set_inode_bitmap_block (v : Z) (sb : superblock_t) : superblock_t :=
  mkSuperblock (magic sb) (sb_pad sb) (block_size sb) (total_blocks sb)
    v (data_bitmap_block sb) (inode_table_start sb)
    (data_block_start sb) (inode_size sb) (inode_count sb)
    (sb_reserved sb) (sb_tail sb).
Definition set_data_bitmap_block (v : Z) (sb : superblock_t) : superblock_t :=
  mkSuperblock (magic sb) (sb_pad sb) (block_size sb) (total_blocks sb)
    (inode_bitmap_block sb) v (inode_table_start sb)
    (data_block_start sb) (inode_size sb) (inode_count sb)
    (sb_reserved sb) (sb_tail sb).
Definition set_inode_table_start (v : Z) (sb : superblock_t) : superblock_t :=
  mkSuperblock (magic sb) (sb_pad sb) (block_size sb) (total_blocks sb)
    (inode_bitmap_block sb) (data_bitmap_block sb) v
    (data_block_start sb) (inode_size sb) (inode_count sb)
    (sb_reserved sb) (sb_tail sb).
Definition set_data_block_start (v : Z) (sb : superblock_t) : superblock_t :=
  mkSuperblock (magic sb) (sb_pad sb) (block_size sb) (total_blocks sb)
    (inode_bitmap_block sb) (data_bitmap_block sb) (inode_table_start sb)
    v (inode_size sb) (inode_count sb)
    (sb_reserved sb) (sb_tail sb).
Definition set_inode_size (v : Z) (sb : superblock_t) : superblock_t :=
  mkSuperblock (magic sb) (sb_pad sb) (block_size sb) (total_blocks sb)
    (inode_bitmap_block sb) (data_bitmap_block sb) (inode_table_start sb)
    (data_block_start sb) v (inode_count sb)
    (sb_reserved sb) (sb_tail sb).
Definition set_inode_count (v : Z) (sb : superblock_t) : superblock_t :=
  mkSuperblock (magic sb) (sb_pad sb) (block_size sb) (total_blocks sb)
    (inode_bitmap_block sb) (data_bitmap_block sb) (inode_table_start sb)
    (data_block_start sb) (inode_size sb) v
    (sb_reserved sb) (sb_tail sb).

(** [if (superblock.f != c) { superblock.f = c; errors_fixed++; }] *)
Definition fix_field (field : superblock_t -> Z)
           (set : Z -> superblock_t -> superblock_t) (c : Z) : M unit :=
  s <- get ;;
  if negb (field (superblock s) =? c) then
    modify (fun s => with_superblock (set c (superblock s)) s) ;;
    incr_errors_fixed
  else ret tt.

Definition fix_superblock : M unit :=
  fix_field magic set_magic MAGIC_NUMBER ;;
  fix_field block_size set_block_size BLOCK_SIZE ;;
  fix_field total_blocks set_total_blocks TOTAL_BLOCKS ;;
  fix_field inode_bitmap_block set_inode_bitmap_block 1 ;;
  fix_field data_bitmap_block set_data_bitmap_block 2 ;;
  fix_field inode_table_start set_inode_table_start 3 ;;
  fix_field data_block_start set_data_block_start 8 ;;
  fix_field inode_size set_inode_size INODE_SIZE ;;
  fix_field inode_count set_inode_count INODE_COUNT.

Definition fix_inode_bitmap : M unit :=
  for_range 0 INODE_COUNT (fun i _ =>
    s <- get ;;
    let valid := is_valid_inode s i in
    let bit_value := get_bit (inode_bitmap s) i in
    if negb (bit_value =? 0) && negb valid then
      modify (fun s => with_inode_bitmap (clear_bit (inode_bitmap s) i) s) ;;
      incr_errors_fixed
    else if (bit_value =? 0) && valid then
      modify (fun s => with_inode_bitmap (set_bit (inode_bitmap s) i) s) ;;
      incr_errors_fixed
    else ret tt) tt.

(** The data bitmap is brought in line with [block_referenced] as the last
    [check_data_bitmap_consistency] left it. *)
Definition fix_data_bitmap : M unit :=
  s <- get ;;
  for_range (to_int (data_block_start (superblock s))) TOTAL_BLOCKS (fun i _ =>
    s <- get ;;
    let bit_index := to_int (u32 i - data_block_start (superblock s)) in
    let bit_value := get_bit (data_bitmap s) bit_index in
    if 0 <=? i then
      if negb (bit_value =? 0) && negb (block_referenced s i) then
        modify (fun s => with_data_bitmap (clear_bit (data_bitmap s) bit_index) s) ;;
        incr_errors_fixed
      else if (bit_value =? 0) && block_referenced s i then
        modify (fun s => with_data_bitmap (set_bit (data_bitmap s) bit_index) s) ;;
        incr_errors_fixed
      else ret tt
    else undefined) tt.

(** "Fix direct blocks" of inode [i]. *)
Definition fix_direct_blocks (i : Z) : M unit :=
  for_range 0 12 (fun j _ =>
    s <- get ;;
    let block_num := direct_blocks (inodes s i) j in
    if bad_block_number s block_num then
      modify (fun s =>
        with_inodes (upd (inodes s) i (set_direct_block (inodes s i) j 0)) s) ;;
      incr_errors_fixed
    else ret tt) tt.

(** "Fix invalid references in the indirect block": the loop over the
    entries read into the local [indirect_entries], with the local
    [indirect_modified]. *)
Definition fix_indirect_entries (r : (Z -> Z) * bool) : M ((Z -> Z) * bool) :=
  for_range 0 (BLOCK_SIZE / 4) (fun j (r : (Z -> Z) * bool) =>
    s <- get ;;
    let '(indirect_entries, indirect_modified) := r in
    let block_num := indirect_entries j in
    if bad_block_number s block_num then
      incr_errors_fixed ;;
      ret (upd indirect_entries j 0, true)
    else ret r) r.

(** "Fix indirect block" of inode [i]; a modified block is written back at
    once. *)
Definition fix_indirect_block (i : Z) : M unit :=
  s <- get ;;
  let ind := indirect_block (inodes s i) in
  if negb (ind =? 0) then
    if outside_data_region s ind then
      modify (fun s =>
        with_inodes (upd (inodes s) i (set_indirect_block (inodes s i) 0)) s) ;;
      incr_errors_fixed
    else
      indirect_entries <- read_indirect ind ;;
      r <- fix_indirect_entries (indirect_entries, false) ;;
      let '(indirect_entries, indirect_modified) := r in
      if indirect_modified then
        fwrite (u32 (ind * BLOCK_SIZE)) BLOCK_SIZE
               (encode_entries indirect_entries)
      else ret tt
  else ret tt.

Definition fix_bad_blocks : M unit :=
  for_range 0 INODE_COUNT (fun i _ =>
    s <- get ;;
    if is_valid_inode s i then
      fix_direct_blocks i ;;
      fix_indirect_block i
    else ret tt) tt.

Definition fix_errors : M bool :=
  fix_superblock ;;
  fix_inode_bitmap ;;
  fix_data_bitmap ;;
  fix_bad_blocks ;;
  write_superblock ;;
  write_bitmaps ;;
  write_inodes ;;
  ret true.

(** ** Run driver *)

Definition zero_inode : inode_t :=
  mkInode 0 0 0 0 0 0 0 0 0 0 (fun _ => 0) 0 0 0 (fun _ => 0).

Definition zero_superblock : superblock_t :=
  mkSuperblock 0 (fun _ => 0) 0 0 0 0 0 0 0 0 (fun _ => 0) (fun _ => 0).

(** The globals as the C runtime initialises them, with the opened file. *)
Definition initial_state (img : file) : fsck :=
  mkFsck img zero_superblock (fun _ => 0) (fun _ => 0) (fun _ => zero_inode)
         (fun _ => false) (fun _ => 0) 0 0 [] [].

(** The five validators in the order [main] calls them. *)
Definition run_validators (recheck : bool) : M unit :=
  sb_consistent <- check_superblock ;;
  inode_bitmap_consistent <- check_inode_bitmap_consistency ;;
  data_bitmap_consistent <- check_data_bitmap_consistency ;;
  no_duplicate_blocks <- check_duplicate_blocks ;;
  no_bad_blocks <- check_bad_blocks ;;
  printf (Summary recheck sb_consistent inode_bitmap_consistent
                  data_bitmap_consistent no_duplicate_blocks no_bad_blocks).

Definition checker : M Z :=
  for_range 0 TOTAL_BLOCKS (fun i _ =>
    modify (fun s =>
      with_block_referenced (upd (block_referenced s) i false)
                            (upd (block_referenced_by s) i (-1)) s)) tt ;;
  read_superblock ;;
  read_bitmaps ;;
  read_inodes ;;
  printf Checking ;;
  run_validators false ;;
  s <- get ;;
  printf (TotalErrorsFound (errors_found s)) ;;
  (if 0 <? errors_found s then
     printf Attempting ;;
     fix_errors ;;
     s <- get ;;
     printf (ErrorsFixed (errors_fixed s)) ;;
     let original_errors := errors_found s in
     modify (with_errors_found 0) ;;
     modify (with_errors_fixed 0) ;;
     printf Rechecking ;;
     run_validators true ;;
     s <- get ;;
     printf (OriginalErrors original_errors) ;;
     printf (RemainingErrors (errors_found s)) ;;
     if errors_found s =? 0 then printf AllFixed else printf SomeRemain
   else printf NoErrors) ;;
  ret 0.

Definition no_file : file := mkFile 0 (fun _ => 0).

(** [main(argc, argv)]: [opened] is the file [argv[1]] names when
    [fopen(argv[1], "r+")] succeeds, [None] when it fails.  The result is the
    exit code and the final state (its [fs_image] is the file afterwards). *)
Definition main (argc : Z) (opened : option file) : option (Z * fsck) :=
  if negb (argc =? 2) then (printf Usage ;; ret 1) (initial_state no_file)
  else match opened with
       | None => (printf OpenError ;; ret 1) (initial_state no_file)
       | Some img => checker (initial_state img)
       end.

(** * Specification-level definitions

    What the validators are meant to report, written from the description of
    the checker and independent of the loops above; the theorems relate the
    two. *)

(** ** Superblock: the single supported geometry *)

Definition sb_fields : list sb_field :=
  [F_magic; F_block_size; F_total_blocks; F_inode_bitmap_block;
   F_data_bitmap_block; F_inode_table_start; F_data_block_start;
   F_inode_size; F_inode_count].

Definition sb_value (sb : superblock_t) (f : sb_field) : Z :=
  match f with
  | F_magic => magic sb
  | F_block_size => block_size sb
  | F_total_blocks => total_blocks sb
  | F_inode_bitmap_block => inode_bitmap_block sb
  | F_data_bitmap_block => data_bitmap_block sb
  | F_inode_table_start => inode_table_start sb
  | F_data_block_start => data_block_start sb
  | F_inode_size => inode_size sb
  | F_inode_count => inode_count sb
  end.

Definition sb_constant (f : sb_field) : Z :=
  match f with
  | F_magic => 0xD34D
  | F_block_size => 4096
  | F_total_blocks => 64
  | F_inode_bitmap_block => 1
  | F_data_bitmap_block => 2
  | F_inode_table_start => 3
  | F_data_block_start => 8
  | F_inode_size => 256
  | F_inode_count => 80
  end.

(** A field is accepted when it holds its constant; an inode count of 0 is
    accepted too. *)
Definition sb_field_ok (sb : superblock_t) (f : sb_field) : bool :=
  (sb_value sb f =? sb_constant f)
  || match f with
     | F_inode_count => sb_value sb f =? 0
     | _ => false
     end.

(** One finding (field, found, expected) per field that is not accepted, in
    the order of the fields. *)
Definition superblock_findings (sb : superblock_t) : list message :=
  map (fun f => ErrSuperblock f (sb_value sb f) (sb_constant f))
      (filter (fun f => negb (sb_field_ok sb f)) sb_fields).

(** The state after a validator has printed the findings [l]: they are
    appended to the output and counted in [errors_found]. *)
Definition add_findings (l : list message) (s : fsck) : fsck :=
  with_errors_found (errors_found s + Z.of_nat (length l))
                    (with_console (console s ++ l) s).

(** ** Inode bitmap *)

(** An inode is in use iff its link count is positive and its deletion time
    is 0: a property of the inode record alone. *)
Definition inode_in_use (ino : inode_t) : bool :=
  (0 <? nlink ino) && (dtime ino =? 0).

(** Bit [i] of a bitmap, least significant bit of byte 0 first. *)
Definition bitmap_bit (bitmap : Z -> Z) (i : Z) : bool :=
  Z.testbit (bitmap (i / 8)) (i mod 8).

(** The finding of slot [i]: none when bit and validity agree. *)
Definition inode_slot_findings (s : fsck) (i : Z) : list message :=
  match bitmap_bit (inode_bitmap s) i, inode_in_use (inodes s i) with
  | true, false => [ErrInodeMarkedNotValid i]
  | false, true => [ErrInodeValidNotMarked i]
  | _, _ => []
  end.

Definition is_nil {A : Type} (l : list A) : bool :=
  match l with [] => true | _ => false end.

(** ** Repair *)

(** The superblock after repair: the nine geometry fields hold the supported
    constants, the bytes that are not geometry are kept. *)
Definition repaired_superblock (sb : superblock_t) : superblock_t :=
  mkSuperblock 0xD34D (sb_pad sb) 4096 64 1 2 3 8 256 80
               (sb_reserved sb) (sb_tail sb).

(** The number of geometry fields that differ from their constant (here an
    inode count of 0 differs from 80). *)
Definition sb_mismatches (sb : superblock_t) : Z :=
  Z.of_nat (length (filter (fun f => negb (sb_value sb f =? sb_constant f))
                           sb_fields)).

(** A block pointer the repair zeroes: non-zero and outside blocks 8..63. *)
Definition bad_pointer (b : Z) : bool :=
  negb (b =? 0) && ((b <? 8) || (b >=? 64)).

Definition repaired_pointer (b : Z) : Z := if bad_pointer b then 0 else b.

(** A write of one whole block of the data region. *)
Definition indirect_write (w : Z * Z) : Prop :=
  exists b, 8 <= b < 64 /\ w = (b * 4096, 4096).

(** The writes that persist the metadata, in program order: superblock, inode
    bitmap, data bitmap, the 80 inode records. *)
Definition persist_trace : list (Z * Z) :=
  [(0, 4096); (4096, 4096); (8192, 4096)]
    ++ map (fun i => (12288 + 256 * i, 256)) (zrange 0 80).

(** The inodes the repair of block pointers has dealt with when its loop
    reaches slot [k]: the in-use ones below [k]. *)
Definition repaired_upto (k : Z) (s : fsck) (i : Z) : bool :=
  (0 <=? i) && (i <? k) && inode_in_use (inodes s i).

(** * Concrete images

    [mk_image sb ibm dbm tbl data] is a 64-block image: block 0 the superblock
    [sb], block 1 the inode bitmap, block 2 the data bitmap, blocks 3..7 the
    80 inode records [tbl], and [data] the bytes from offset 32768 on. *)

Definition good_superblock : superblock_t :=
  mkSuperblock 0xD34D (fun _ => 0) 4096 64 1 2 3 8 256 80
               (fun _ => 0) (fun _ => 0).

Definition mk_image (sb : superblock_t) (ibm dbm : Z -> Z) (tbl : Z -> inode_t)
           (data : Z -> Z) : file :=
  mkFile 262144 (fun k =>
    if k <? 4096 then encode_superblock sb k
    else if k <? 8192 then ibm (k - 4096)
    else if k <? 12288 then dbm (k - 8192)
    else if k <? 32768 then
      encode_inode (tbl ((k - 12288) / 256)) ((k - 12288) mod 256)
    else data k).

(** An in-use inode (one link, not deleted) with first direct pointer [b0]
    and single-indirect pointer [ind]; every other field is 0. *)
Definition file_inode (b0 ind : Z) : inode_t :=
  mkInode 0 0 0 0 0 0 0 0 1 0 (upd (fun _ => 0) 0 b0) ind 0 0 (fun _ => 0).

Definition no_bits : Z -> Z := fun _ => 0.
Definition no_inodes : Z -> inode_t := fun _ => zero_inode.
Definition no_data : Z -> Z := fun _ => 0.

(** Inode 0 owns block 9 and has the single-indirect block 10, whose entry 0
    is 100 (out of range); the bitmaps agree with that. *)
Definition image_bad_entry : file :=
  mk_image good_superblock
           (upd no_bits 0 1) (upd no_bits 0 6)
           (upd no_inodes 0 (file_inode 9 10))
           (fun k => if k =? 40960 then 100 else 0).

(** The superblock's inode count is 0; inode 0 is in use and owns block 8 but
    its inode bitmap bit is clear. *)
Definition image_count_zero : file :=
  mk_image (set_inode_count 0 good_superblock)
           no_bits (upd no_bits 0 1)
           (upd no_inodes 0 (file_inode 8 0))
           no_data.

(** Inodes 0 and 1 both own block 10; nothing else is wrong. *)
Definition image_shared_block : file :=
  mk_image good_superblock
           (upd no_bits 0 3) (upd no_bits 0 4)
           (upd (upd no_inodes 0 (file_inode 10 0)) 1 (file_inode 10 0))
           no_data.

(** The order of writes the specification describes: the metadata, then the
    modified indirect blocks. *)
Definition claimed_write_order (w : list (Z * Z)) : Prop :=
  exists ind_writes,
    w = persist_trace ++ ind_writes /\ Forall indirect_write ind_writes.

(** ** Out-of-range block pointers *)

(** The 32-bit entry [j] of the block the program reads for the block
    pointer [blk]: the one at byte offset [blk * 4096], a product made in
    32-bit unsigned arithmetic. *)
Definition block_entry (img : file) (blk j : Z) : Z :=
  let o := u32 (blk * 4096) + 4 * j in
  file_byte img o + 256 * file_byte img (o + 1)
  + 65536 * file_byte img (o + 2) + 16777216 * file_byte img (o + 3).

(** Non-zero and not within [data-region start, total block count). *)
Definition out_of_range (sb : superblock_t) (b : Z) : bool :=
  negb (b =? 0) && negb ((data_block_start sb <=? b) && (b <? 64)).

Definition direct_findings (s : fsck) (i : Z) : list message :=
  flat_map (fun j => let b := direct_blocks (inodes s i) j in
                     if out_of_range (superblock s) b
                     then [ErrBadDirect i j b] else [])
           (zrange 0 12).

Definition indirect_findings (s : fsck) (i : Z) : list message :=
  let ind := indirect_block (inodes s i) in
  if ind =? 0 then []
  else if out_of_range (superblock s) ind then [ErrBadIndirect i ind]
  else flat_map (fun j => let b := block_entry (fs_image s) ind j in
                          if out_of_range (superblock s) b
                          then [ErrBadIndirectEntry i j b] else [])
                (zrange 0 1024).

(** The findings of the bad-block validator: for every in-use inode, its
    direct slots, then its single-indirect pointer or, when that is in
    range, the entries of the indirect block. *)
Definition bad_block_findings (s : fsck) : list message :=
  flat_map (fun i => if inode_in_use (inodes s i)
                     then direct_findings s i ++ indirect_findings s i
                     else [])
           (zrange 0 80).

(** Inode 0 is in use and its first direct pointer is 64, one past the last
    block; bit 56 of the data bitmap (the bit block 64 would have,
    64 - 8 = 56, i.e. bit 0 of byte 7) is set. *)
Definition image_past_end : file :=
  mk_image good_superblock
           (upd no_bits 0 1) (upd no_bits 7 1)
           (upd no_inodes 0 (file_inode 64 0))
           no_data.

(** The globals once [image_past_end] has been loaded. *)
Definition state_past_end : fsck :=
  mkFsck image_past_end good_superblock
         (upd no_bits 0 1) (upd no_bits 7 1)
         (upd no_inodes 0 (file_inode 64 0))
         (fun _ => false) (fun _ => -1) 0 0 [] [].

(** ** Duplicate block references *)

(** The block numbers the duplicate validator records: non-zero and below
    the total block count. *)
Definition claimable (b : Z) : bool := negb (b =? 0) && (b <? 64).

(** The blocks inode [i] claims, in the order of the walk: its direct
    pointers, then, when the single-indirect pointer is itself recorded, that
    pointer and the entries of the block it names. *)
Definition inode_claims (s : fsck) (i : Z) : list Z :=
  if inode_in_use (inodes s i) then
    filter claimable (map (direct_blocks (inodes s i)) (zrange 0 12))
    ++ (let ind := indirect_block (inodes s i) in
        if claimable ind
        then ind :: filter claimable
                      (map (block_entry (fs_image s) ind) (zrange 0 1024))
        else [])
  else [].

(** Every claim (block, inode) of the image, inode by inode. *)
Definition claim_walk (s : fsck) : list (Z * Z) :=
  flat_map (fun i => map (fun b => (b, i)) (inode_claims s i)) (zrange 0 80).

(** The claimants of block [b]: the inode of each claim of [b], so an inode
    that claims [b] twice is listed twice. *)
Definition claimants_in (walk : list (Z * Z)) (b : Z) : list Z :=
  map snd (filter (fun c => fst c =? b) walk).

Definition claimants (s : fsck) (b : Z) : list Z :=
  claimants_in (claim_walk s) b.

(** One finding per block, from the superblock's data-region start up to 63,
    that has more than one claim. *)
Definition duplicate_findings (s : fsck) : list message :=
  let lo := to_int (data_block_start (superblock s)) in
  flat_map (fun b => if 1 <? Z.of_nat (length (claimants s b))
                     then [ErrDuplicate b (claimants s b)] else [])
           (zrange lo (Z.to_nat (64 - lo))).

(** The locals of [check_duplicate_blocks] hold the claims [walk]: each count
    is the number of claimants, each row starts with the claimants. *)
Definition represents (walk : list (Z * Z)) (loc : dup_locals) : Prop :=
  forall b,
    snd loc b = Z.of_nat (length (claimants_in walk b))
    /\ forall n, (n < length (claimants_in walk b))%nat ->
                 fst loc b (Z.of_nat n) = nth n (claimants_in walk b) 0.

(** Block [b] is claimed by two different inodes. *)
Definition claimed_by_two_inodes (s : fsck) (b : Z) : Prop :=
  exists i1 i2, i1 <> i2 /\ In (b, i1) (claim_walk s) /\ In (b, i2) (claim_walk s).

(** Inode 0 is the only inode in use; its direct slots 0 and 1 both hold
    block 10.  The bitmaps agree with that. *)
Definition inode_twice : inode_t :=
  mkInode 0 0 0 0 0 0 0 0 1 0 (upd (upd (fun _ => 0) 0 10) 1 10) 0 0 0
          (fun _ => 0).

Definition image_twice : file :=
  mk_image good_superblock
           (upd no_bits 0 1) (upd no_bits 0 4)
           (upd no_inodes 0 inode_twice)
           no_data.

(** The globals once [image_twice] has been loaded. *)
Definition state_twice : fsck :=
  mkFsck image_twice good_superblock
         (upd no_bits 0 1) (upd no_bits 0 4)
         (upd no_inodes 0 inode_twice)
         (fun _ => false) (fun _ => -1) 0 0 [] [].


(** The globals once [image_shared_block] has been loaded. *)
Definition state_shared_block : fsck :=
  mkFsck image_shared_block good_superblock
         (upd no_bits 0 3) (upd no_bits 0 4)
         (upd (upd no_inodes 0 (file_inode 10 0)) 1 (file_inode 10 0))
         (fun _ => false) (fun _ => -1) 0 0 [] [].

(** ** The data region of the image during repair *)

(** Every byte of blocks 8..63 is a byte. *)
Definition data_bytes_ok (img : file) : Prop :=
  forall k, 32768 <= k < 262144 -> 0 <= file_byte img k < 256.

(** Block [blk] is the single-indirect block of an in-use inode below
    slot [k]. *)
Definition indirect_of_upto (k : Z) (s : fsck) (blk : Z) : bool :=
  existsb (fun i => inode_in_use (inodes s i)
                    && (indirect_block (inodes s i) =? blk))
          (zrange 0 (Z.to_nat k)).


(** The superblock claims the data region starts at block 9 (it starts at 8);
    inode 0 is in use and owns block 8, and both bitmaps say so (inode bit 0,
    data bit 0).  Nothing but the superblock field is wrong. *)
Definition image_stale_map : file :=
  mk_image (set_data_block_start 9 good_superblock)
           (upd no_bits 0 1) (upd no_bits 0 1)
           (upd no_inodes 0 (file_inode 8 0))
           no_data.

(** ** The single-indirect blocks the repair writes back *)

(** Block [blk] holds an entry the repair zeroes. *)
Definition has_bad_entry (img : file) (blk : Z) : bool :=
  existsb (fun j => bad_pointer (block_entry img blk j)) (zrange 0 1024).

(** The write made while an in-use inode [ino] is repaired, the image being
    [img]: its single-indirect block, when the pointer is in 8..63 and the
    block holds an entry to zero. *)
Definition indirect_block_write (img : file) (ino : inode_t) : list (Z * Z) :=
  let ind := indirect_block ino in
  if (8 <=? ind) && (ind <? 64) && has_bad_entry img ind
  then [(ind * 4096, 4096)] else [].

(** The writes of single-indirect blocks made while slots 0..k-1 are
    repaired, in terms of the image before the repair: for each in-use inode
    in slot order, its block when that holds an entry to zero and no in-use
    inode of a lower slot has the same block (which would have repaired it
    already). *)
Definition modified_indirect_writes (k : Z) (s : fsck) : list (Z * Z) :=
  flat_map (fun i =>
              if inode_in_use (inodes s i)
                 && negb (indirect_of_upto i s (indirect_block (inodes s i)))
              then indirect_block_write (fs_image s) (inodes s i)
              else [])
           (zrange 0 (Z.to_nat k)).

(** The globals once [image_bad_entry] has been loaded. *)
Definition state_bad_entry : fsck :=
  mkFsck image_bad_entry good_superblock
         (upd no_bits 0 1) (upd no_bits 0 6)
         (upd no_inodes 0 (file_inode 9 10))
         (fun _ => false) (fun _ => -1) 0 0 [] [].

(** ** Claims made through a single-indirect pointer in 1..7 *)



(** ** Images on which the run leaves defined behaviour *)

(** Inode 0 is in use, owns block 9 and has the single-indirect pointer 64,
    the block past the end of the 64-block image; the bitmaps agree with
    the direct pointer. *)
Definition image_indirect_past_end : file :=
  mk_image good_superblock
           (upd no_bits 0 1) (upd no_bits 0 2)
           (upd no_inodes 0 (file_inode 9 64))
           no_data.

(** Inode 0 is in use and its first direct pointer is 2^31, which is
    negative as an [int]. *)
Definition image_huge_pointer : file :=
  mk_image good_superblock
           (upd no_bits 0 1) no_bits
           (upd no_inodes 0 (file_inode 2147483648 0))
           no_data.

(** ** What an operation leaves alone

    [preserves P m]: whenever [m] has a result, the state before and the
    state after are related by [P]. *)
Definition preserves {A : Type} (P : fsck -> fsck -> Prop) (m : M A) : Prop :=
  forall s a s', m s = Some (a, s') -> P s s'.

(** The image, the loaded metadata and the count of repairs are the same. *)
Definition same_metadata (s s' : fsck) : Prop :=
  fs_image s' = fs_image s
  /\ fwrites s' = fwrites s
  /\ superblock s' = superblock s
  /\ inode_bitmap s' = inode_bitmap s
  /\ data_bitmap s' = data_bitmap s
  /\ inodes s' = inodes s
  /\ errors_fixed s' = errors_fixed s.

(** ** Data bitmap: the reference map *)

Definition nonzero (b : Z) : bool := negb (b =? 0).

(** The block numbers [check_data_bitmap_consistency] passes to
    [mark_block_referenced] for inode [i], in order: its non-zero direct
    pointers, then, when the single-indirect pointer is not zero, that
    pointer and the non-zero entries of the block it names. *)
Definition inode_marks (s : fsck) (i : Z) : list Z :=
  if inode_in_use (inodes s i) then
    filter nonzero (map (direct_blocks (inodes s i)) (zrange 0 12))
    ++ (let ind := indirect_block (inodes s i) in
        if nonzero ind
        then ind :: filter nonzero
                      (map (block_entry (fs_image s) ind) (zrange 0 1024))
        else [])
  else [].

Definition mark_walk (s : fsck) : list (Z * Z) :=
  flat_map (fun i => map (fun b => (b, i)) (inode_marks s i)) (zrange 0 80).

(** Block [b] is referenced: it lies between the superblock's data-region
    start and 63, and an in-use inode points to it. *)
Definition referenced (s : fsck) (b : Z) : bool :=
  (data_block_start (superblock s) <=? b) && (b <? 64)
  && negb (is_nil (claimants_in (mark_walk s) b)).

(** The inode recorded for a referenced block: the first one met that points
    to it; -1 for a block that is not referenced. *)
Definition referenced_by (s : fsck) (b : Z) : Z :=
  if referenced s b then hd (-1) (claimants_in (mark_walk s) b) else -1.

(** The finding of block [b]: none when its bit and the reference map
    agree. *)
Definition data_slot_findings (s : fsck) (b : Z) : list message :=
  match bitmap_bit (data_bitmap s) (b - data_block_start (superblock s)),
        referenced s b with
  | true, false => [ErrBlockMarkedNotReferenced b]
  | false, true => [ErrBlockReferencedNotMarked b (referenced_by s b)]
  | _, _ => []
  end.

Definition data_bitmap_findings (s : fsck) : list message :=
  let lo := data_block_start (superblock s) in
  flat_map (data_slot_findings s) (zrange lo (Z.to_nat (64 - lo))).

(** The tracking arrays [R], [RB] hold the marks [walk], the data region
    starting at [lo]. *)
Definition marked (lo : Z) (walk : list (Z * Z))
           (R : Z -> bool) (RB : Z -> Z) : Prop :=
  forall b, 0 <= b < 64 ->
    R b = (lo <=? b) && negb (is_nil (claimants_in walk b))
    /\ RB b = if R b then hd (-1) (claimants_in walk b) else -1.

(** Inode 0 is in use and owns block 9, whose data bitmap bit is clear, and
    the bit of block 8, which no inode owns, is set. *)
Definition state_wrong_bits : fsck :=
  mkFsck (mk_image good_superblock (upd no_bits 0 1) (upd no_bits 0 1)
                   (upd no_inodes 0 (file_inode 9 0)) no_data)
         good_superblock
         (upd no_bits 0 1) (upd no_bits 0 1)
         (upd no_inodes 0 (file_inode 9 0))
         (fun _ => false) (fun _ => -1) 0 0 [] [].

(** Inode 0 is in use and its single-indirect block 10 holds 9 in each of its
    1024 entries: block 9 has 1024 claims. *)
Definition state_many_claims : fsck :=
  mkFsck (mk_image good_superblock (upd no_bits 0 1) (upd no_bits 0 6)
                   (upd no_inodes 0 (file_inode 0 10))
                   (fun k => if (40960 <=? k) && (k <? 45056) && (k mod 4 =? 0)
                             then 9 else 0))
         good_superblock
         (upd no_bits 0 1) (upd no_bits 0 6)
         (upd no_inodes 0 (file_inode 0 10))
         (fun _ => false) (fun _ => -1) 0 0 [] [].

(** The globals once [image_huge_pointer] has been loaded. *)
Definition state_huge_pointer : fsck :=
  mkFsck image_huge_pointer good_superblock
         (upd no_bits 0 1) no_bits
         (upd no_inodes 0 (file_inode 2147483648 0))
         (fun _ => false) (fun _ => -1) 0 0 [] [].

(** ** The metadata as the image holds it *)

Definition uint32 (v : Z) : Prop := 0 <= v < 2 ^ 32.

(** Every field of the superblock holds a value of its type. *)
Definition superblock_in_range (sb : superblock_t) : Prop :=
  0 <= magic sb < 2 ^ 16
  /\ uint32 (block_size sb) /\ uint32 (total_blocks sb)
  /\ uint32 (inode_bitmap_block sb) /\ uint32 (data_bitmap_block sb)
  /\ uint32 (inode_table_start sb) /\ uint32 (data_block_start sb)
  /\ uint32 (inode_size sb) /\ uint32 (inode_count sb).

Definition inode_in_range (ino : inode_t) : Prop :=
  uint32 (mode ino) /\ uint32 (uid ino) /\ uint32 (gid ino)
  /\ uint32 (size ino) /\ uint32 (atime ino) /\ uint32 (ctime ino)
  /\ uint32 (mtime ino) /\ uint32 (dtime ino) /\ uint32 (nlink ino)
  /\ uint32 (blocks ino)
  /\ (forall j, 0 <= j < 12 -> uint32 (direct_blocks ino j))
  /\ uint32 (indirect_block ino) /\ uint32 (double_indirect ino)
  /\ uint32 (triple_indirect ino).

(** Two superblocks with the same content: the nine fields and the 4058
    reserved bytes. *)
Definition same_superblock (a b : superblock_t) : Prop :=
  magic a = magic b
  /\ block_size a = block_size b /\ total_blocks a = total_blocks b
  /\ inode_bitmap_block a = inode_bitmap_block b
  /\ data_bitmap_block a = data_bitmap_block b
  /\ inode_table_start a = inode_table_start b
  /\ data_block_start a = data_block_start b
  /\ inode_size a = inode_size b /\ inode_count a = inode_count b
  /\ (forall k, 0 <= k < 4058 -> sb_reserved a k = sb_reserved b k).

(** Two inodes with the same content: every field, the 12 direct pointers
    and the 156 reserved bytes. *)
Definition same_inode (a b : inode_t) : Prop :=
  mode a = mode b /\ uid a = uid b /\ gid a = gid b /\ size a = size b
  /\ atime a = atime b /\ ctime a = ctime b /\ mtime a = mtime b
  /\ dtime a = dtime b /\ nlink a = nlink b /\ blocks a = blocks b
  /\ (forall j, 0 <= j < 12 -> direct_blocks a j = direct_blocks b j)
  /\ indirect_block a = indirect_block b
  /\ double_indirect a = double_indirect b
  /\ triple_indirect a = triple_indirect b
  /\ (forall k, 0 <= k < 156 -> reserved a k = reserved b k).

(** The image [img] holds the metadata of [s] where the supported geometry
    puts it: the superblock in block 0, the inode bitmap in block 1, the
    data bitmap in block 2, the 80 inode records from block 3 on. *)
Definition holds_metadata (img : file) (s : fsck) : Prop :=
  32768 <= file_len img
  /\ (forall k, 0 <= k < 4096 ->
        file_byte img k = encode_superblock (superblock s) k)
  /\ (forall k, 0 <= k < 4096 -> file_byte img (4096 + k) = inode_bitmap s k)
  /\ (forall k, 0 <= k < 4096 -> file_byte img (8192 + k) = data_bitmap s k)
  /\ (forall i k, 0 <= i < 80 -> 0 <= k < 256 ->
        file_byte img (12288 + 256 * i + k) = encode_inode (inodes s i) k).

(** Two inodes that differ at most in their direct pointers and their
    single-indirect pointer. *)
Definition same_attributes (a b : inode_t) : Prop :=
  mode a = mode b /\ uid a = uid b /\ gid a = gid b /\ size a = size b
  /\ atime a = atime b /\ ctime a = ctime b /\ mtime a = mtime b
  /\ dtime a = dtime b /\ nlink a = nlink b /\ blocks a = blocks b
  /\ double_indirect a = double_indirect b
  /\ triple_indirect a = triple_indirect b
  /\ reserved a = reserved b.

(** From [s] to [s'] no inode changed but in those pointers. *)
Definition attributes_kept (s s' : fsck) : Prop :=
  forall i, same_attributes (inodes s' i) (inodes s i).

(** From [s] to [s'] the superblock in memory is the same. *)
Definition superblock_kept (s s' : fsck) : Prop := superblock s' = superblock s.

(** * Proofs *)

(** ** The monad *)

Lemma bind_some {A B : Type} (m : M A) (f : A -> M B) (s : fsck) (b : B) (s' : fsck) :
  bind m f s = Some (b, s') <->
  exists a s1, m s = Some (a, s1) /\ f a s1 = Some (b, s').
Proof.
  unfold bind. split.
  - destruct (m s) as [[a s1]|] eqn:E; [|discriminate].
    intros H. exists a, s1. auto.
  - intros (a & s1 & E & H). rewrite E. exact H.
Qed.

Lemma bind_eq {A B : Type} (m : M A) (f : A -> M B) (s : fsck) (a : A) (s1 : fsck) :
  m s = Some (a, s1) -> bind m f s = f a s1.
Proof. intros E. unfold bind. rewrite E. reflexivity. Qed.

(** ** Findings: what a validator adds to the output and to the count *)

Lemma add_findings_nil (s : fsck) : add_findings [] s = s.
Proof.
  destruct s. unfold add_findings, with_errors_found, with_console. cbn.
  rewrite app_nil_r, Z.add_0_r. reflexivity.
Qed.

Lemma add_findings_app (l1 l2 : list message) (s : fsck) :
  add_findings l2 (add_findings l1 s) = add_findings (l1 ++ l2) s.
Proof.
  destruct s. unfold add_findings, with_errors_found, with_console. cbn.
  rewrite length_app, Nat2Z.inj_add, app_assoc, Z.add_assoc. reflexivity.
Qed.

Lemma found_eq (m : message) (s : fsck) :
  found m s = Some (false, add_findings [m] s).
Proof. destruct s. reflexivity. Qed.

Lemma report_eq (c : bool) (m : message) (flag : bool) (s : fsck) :
  report c m flag s =
  Some (flag && negb c, add_findings (if c then [m] else []) s).
Proof.
  unfold report. destruct c.
  - rewrite found_eq, andb_false_r. reflexivity.
  - rewrite add_findings_nil, andb_true_r. reflexivity.
Qed.

(** ** Superblock validator *)

Lemma filter_cons_if {A : Type} (p : A -> bool) (x : A) (l : list A) :
  filter p (x :: l) = (if p x then [x] else []) ++ filter p l.
Proof. cbn. destruct (p x); reflexivity. Qed.

Lemma map_if_singleton {A B : Type} (g : A -> B) (b : bool) (x : A) :
  map g (if b then [x] else []) = if b then [g x] else [].
Proof. destruct b; reflexivity. Qed.

Lemma check_superblock_eq : forall s : fsck,
  check_superblock s =
  Some (forallb (sb_field_ok (superblock s)) sb_fields,
        add_findings (superblock_findings (superblock s)) s).
Proof.
  intros s. unfold check_superblock.
  rewrite (bind_eq get _ s s s) by reflexivity. cbv zeta.
  rewrite (bind_eq (ret true) _ s true s) by reflexivity.
  repeat (erewrite bind_eq by apply report_eq; rewrite ?add_findings_app).
  unfold ret. f_equal. f_equal.
  - unfold sb_fields, forallb, sb_field_ok, sb_value, sb_constant,
      MAGIC_NUMBER, BLOCK_SIZE, TOTAL_BLOCKS, INODE_SIZE, INODE_COUNT.
    rewrite !negb_involutive, !orb_false_r, negb_andb, !negb_involutive,
      andb_true_r.
    cbn [andb]. rewrite <- !andb_assoc. reflexivity.
  - f_equal. unfold superblock_findings, sb_fields.
    rewrite !filter_cons_if, !map_app, !map_if_singleton. cbn [filter map].
    unfold sb_field_ok, sb_value, sb_constant,
      MAGIC_NUMBER, BLOCK_SIZE, TOTAL_BLOCKS, INODE_SIZE, INODE_COUNT.
    rewrite !orb_false_r, negb_orb, app_nil_r, <- !app_assoc. reflexivity.
Qed.

Lemma NoDup_map_injective {A B : Type} (f : A -> B) (l : list A) :
  (forall x y, f x = f y -> x = y) -> NoDup l -> NoDup (map f l).
Proof.
  intros Hf. induction 1 as [|x l Hx Hl IH]; cbn; constructor; auto.
  rewrite in_map_iff. intros (y & Hy & Hin). apply Hf in Hy. subst y. auto.
Qed.

Lemma sb_fields_complete (f : sb_field) : In f sb_fields.
Proof. destruct f; cbn; tauto. Qed.

Lemma sb_fields_NoDup : NoDup sb_fields.
Proof.
  unfold sb_fields.
  repeat (constructor; [cbn; intuition discriminate|]). constructor.
Qed.

Lemma sb_field_ok_false (sb : superblock_t) (f : sb_field) :
  sb_field_ok sb f = false <->
  sb_value sb f <> sb_constant f /\ (f = F_inode_count -> sb_value sb f <> 0).
Proof.
  unfold sb_field_ok. rewrite orb_false_iff, Z.eqb_neq.
  destruct f; rewrite ?Z.eqb_neq; intuition (discriminate || auto).
Qed.

Lemma filter_negb_nil {A : Type} (p : A -> bool) (l : list A) :
  filter (fun x => negb (p x)) l = [] <-> forallb p l = true.
Proof.
  induction l as [|x l IH]; cbn; [tauto|].
  destruct (p x); cbn; [exact IH|]. split; discriminate.
Qed.

(** C6.  [check_superblock] compares all nine geometry fields with the
    supported constants (0xD34D, 4096, 64, 1, 2, 3, 8, 256, 80), prints one
    finding (field, found, expected) per field that differs, in field order
    and without stopping at the first, adds one to the error count per
    finding, returns whether every field was accepted, and accepts an inode
    count of 0 (no finding, no increment).  The second part spells out which
    findings are printed: the one of field [f] exactly when the value found
    differs from the constant and, for the inode count, from 0; no finding is
    printed twice; the result is [true] exactly when nothing is printed. *)
Theorem check_superblock_reports_every_mismatch : forall s : fsck,
  let sb := superblock s in
  check_superblock s =
    Some (forallb (sb_field_ok sb) sb_fields,
          add_findings (superblock_findings sb) s)
  /\ (forall (f : sb_field) (found expected : Z),
        In (ErrSuperblock f found expected) (superblock_findings sb) <->
        found = sb_value sb f /\ expected = sb_constant f
        /\ found <> expected /\ (f = F_inode_count -> found <> 0))
  /\ NoDup (superblock_findings sb)
  /\ (forallb (sb_field_ok sb) sb_fields = true <->
      superblock_findings sb = [])
  /\ errors_found (add_findings (superblock_findings sb) s) =
        errors_found s
        + Z.of_nat (length (filter (fun f => negb (sb_field_ok sb f))
                                   sb_fields)).
Proof.
  intros s sb. split; [apply check_superblock_eq|]. split; [|split; [|split]].
  - intros f v c. unfold superblock_findings.
    rewrite in_map_iff. split.
    + intros (f0 & E & Hin). injection E as -> <- <-.
      apply filter_In in Hin. destruct Hin as [_ Hok].
      apply negb_true_iff, sb_field_ok_false in Hok. tauto.
    + intros (-> & -> & Hne & H0). exists f. split; [reflexivity|].
      apply filter_In. split; [apply sb_fields_complete|].
      apply negb_true_iff, sb_field_ok_false. tauto.
  - unfold superblock_findings. apply NoDup_map_injective.
    + intros x y E. injection E as ->. reflexivity.
    + apply NoDup_filter, sb_fields_NoDup.
  - unfold superblock_findings. rewrite <- filter_negb_nil. split.
    + intros ->. reflexivity.
    + apply map_eq_nil.
  - unfold superblock_findings, add_findings. cbn.
    rewrite length_map. reflexivity.
Qed.

(** ** Loops *)

Lemma zrange_snoc (lo : Z) (n : nat) :
  zrange lo (S n) = zrange lo n ++ [lo + Z.of_nat n].
Proof.
  revert lo. induction n; intros lo.
  - cbn. rewrite Z.add_0_r. reflexivity.
  - change (zrange lo (S (S n))) with (lo :: zrange (lo + 1) (S n)).
    rewrite IHn. cbn [zrange app]. do 2 f_equal. f_equal. lia.
Qed.

Lemma in_zrange (lo : Z) (n : nat) (k : Z) :
  In k (zrange lo n) <-> lo <= k < lo + Z.of_nat n.
Proof.
  revert lo. induction n; intros lo.
  - cbn. lia.
  - cbn [zrange In]. rewrite IHn. lia.
Qed.

(** A loop whose body always has a result and maintains [I] has a result
    that satisfies [I]. *)
Lemma for_loop_total {A : Type} (I : Z -> A -> fsck -> Prop) (body : Z -> A -> M A) :
  forall (n : nat) (i : Z) (a : A) (s : fsck),
    I i a s ->
    (forall k b t, i <= k < i + Z.of_nat n -> I k b t ->
       exists b' t', body k b t = Some (b', t') /\ I (k + 1) b' t') ->
    exists a' s', for_loop n i body a s = Some (a', s')
                  /\ I (i + Z.of_nat n) a' s'.
Proof.
  induction n as [|n IH]; intros i a s Hi Hbody.
  - exists a, s. cbn. rewrite Z.add_0_r. auto.
  - destruct (Hbody i a s) as (b' & t' & Eb & Hb); [lia | exact Hi |].
    destruct (IH (i + 1) b' t' Hb) as (a' & s' & El & Hl).
    { intros k b t Hk. apply Hbody. lia. }
    exists a', s'. split.
    + cbn [for_loop]. rewrite (bind_eq _ _ _ _ _ Eb). exact El.
    + replace (i + Z.of_nat (S n)) with (i + 1 + Z.of_nat n) by lia. exact Hl.
Qed.

(** The partial version: whatever result the loop has satisfies [I]. *)
Lemma for_loop_partial {A : Type} (I : Z -> A -> fsck -> Prop) (body : Z -> A -> M A) :
  forall (n : nat) (i : Z) (a : A) (s : fsck) (a' : A) (s' : fsck),
    for_loop n i body a s = Some (a', s') ->
    I i a s ->
    (forall k b t b' t', i <= k < i + Z.of_nat n -> I k b t ->
       body k b t = Some (b', t') -> I (k + 1) b' t') ->
    I (i + Z.of_nat n) a' s'.
Proof.
  induction n as [|n IH]; intros i a s a' s' E Hi Hbody.
  - cbn in E. inversion E; subst. rewrite Z.add_0_r. exact Hi.
  - cbn [for_loop] in E. apply bind_some in E. destruct E as (b & t & Eb & El).
    replace (i + Z.of_nat (S n)) with (i + 1 + Z.of_nat n) by lia.
    apply (IH _ _ _ _ _ El).
    + apply (Hbody i a s); auto. lia.
    + intros k b0 t0 b' t' Hk. apply Hbody. lia.
Qed.

Lemma for_range_total {A : Type} (I : Z -> A -> fsck -> Prop) (body : Z -> A -> M A)
      (lo hi : Z) (a : A) (s : fsck) :
  lo <= hi ->
  I lo a s ->
  (forall k b t, lo <= k < hi -> I k b t ->
     exists b' t', body k b t = Some (b', t') /\ I (k + 1) b' t') ->
  exists a' s', for_range lo hi body a s = Some (a', s') /\ I hi a' s'.
Proof.
  intros Hle Hi Hbody. unfold for_range.
  destruct (for_loop_total I body (Z.to_nat (hi - lo)) lo a s Hi)
    as (a' & s' & E & H).
  { intros k b t Hk. apply Hbody. lia. }
  exists a', s'. split; [exact E|].
  replace hi with (lo + Z.of_nat (Z.to_nat (hi - lo))) at 1 by lia. exact H.
Qed.

Lemma for_range_partial {A : Type} (I : Z -> A -> fsck -> Prop) (body : Z -> A -> M A)
      (lo hi : Z) (a : A) (s : fsck) (a' : A) (s' : fsck) :
  lo <= hi ->
  for_range lo hi body a s = Some (a', s') ->
  I lo a s ->
  (forall k b t b' t', lo <= k < hi -> I k b t ->
     body k b t = Some (b', t') -> I (k + 1) b' t') ->
  I hi a' s'.
Proof.
  intros Hle E Hi Hbody. unfold for_range in E.
  replace hi with (lo + Z.of_nat (Z.to_nat (hi - lo))) at 1 by lia.
  apply (for_loop_partial I body _ _ _ _ _ _ E Hi).
  intros k b t b' t' Hk. apply Hbody. lia.
Qed.

Lemma for_range_empty {A : Type} (body : Z -> A -> M A) (lo hi : Z) (a : A) (s : fsck) :
  hi <= lo -> for_range lo hi body a s = Some (a, s).
Proof.
  intros H. unfold for_range. replace (Z.to_nat (hi - lo)) with O by lia.
  reflexivity.
Qed.

(** [loop_total I a s E H]: on a goal about a [for_range] loop, use
    [for_range_total] with invariant [I]; the loop's result is [(a, s)], by
    [E], and satisfies [I], by [H]. *)
Ltac loop_total I a s E H :=
  match goal with
  | |- context [for_range ?lo ?hi ?body ?a0 ?s0] =>
      destruct (for_range_total I body lo hi a0 s0) as (a & s & E & H)
  end.

(** ** Bitmaps *)

Lemma land_1_testbit (x : Z) : Z.land x 1 = Z.b2z (Z.testbit x 0).
Proof.
  change 1 with (Z.ones 1). rewrite Z.land_ones by lia.
  rewrite Z.bit0_mod. reflexivity.
Qed.

Lemma get_bit_testbit (bitmap : Z -> Z) (i : Z) :
  0 <= i -> get_bit bitmap i = Z.b2z (bitmap_bit bitmap i).
Proof.
  intros Hi. unfold get_bit, bitmap_bit. cbv zeta.
  rewrite Z.quot_div_nonneg, Z.rem_mod_nonneg by lia.
  rewrite land_1_testbit, Z.shiftr_spec by lia. rewrite Z.add_0_l.
  reflexivity.
Qed.

Lemma get_bit_zero (bitmap : Z -> Z) (i : Z) :
  0 <= i -> (get_bit bitmap i =? 0) = negb (bitmap_bit bitmap i).
Proof.
  intros Hi. rewrite get_bit_testbit by exact Hi.
  destruct (bitmap_bit bitmap i); reflexivity.
Qed.

(** ** Inode bitmap validator *)

Lemma is_valid_inode_in_use (s : fsck) (i : Z) :
  is_valid_inode s i = inode_in_use (inodes s i).
Proof. reflexivity. Qed.

Lemma inode_slot_findings_cases (s : fsck) (i : Z) (m : message) :
  In m (inode_slot_findings s i) <->
  (m = ErrInodeMarkedNotValid i
   /\ bitmap_bit (inode_bitmap s) i = true
   /\ inode_in_use (inodes s i) = false)
  \/ (m = ErrInodeValidNotMarked i
      /\ bitmap_bit (inode_bitmap s) i = false
      /\ inode_in_use (inodes s i) = true).
Proof.
  unfold inode_slot_findings.
  destruct (bitmap_bit (inode_bitmap s) i), (inode_in_use (inodes s i));
    cbn; intuition (discriminate || auto).
Qed.

Lemma inode_slot_findings_length (s : fsck) (i : Z) :
  (length (inode_slot_findings s i) <= 1)%nat.
Proof.
  unfold inode_slot_findings.
  destruct (bitmap_bit (inode_bitmap s) i), (inode_in_use (inodes s i));
    cbn; lia.
Qed.

Lemma check_inode_bitmap_consistency_eq (s : fsck) :
  check_inode_bitmap_consistency s =
  Some (is_nil (flat_map (inode_slot_findings s) (zrange 0 80)),
        add_findings (flat_map (inode_slot_findings s) (zrange 0 80)) s).
Proof.
  unfold check_inode_bitmap_consistency.
  loop_total (fun k (c : bool) t =>
       let l := flat_map (inode_slot_findings s) (zrange 0 (Z.to_nat k)) in
       c = is_nil l /\ t = add_findings l s) c t E Hc.
  4: destruct Hc as [Hc Ht].
  - unfold INODE_COUNT. lia.
  - cbn. rewrite add_findings_nil. auto.
  - intros k b t Hk [Hb Ht]. subst t.
    rewrite (bind_eq get _ _ _ _ eq_refl). cbv zeta.
    replace (Z.to_nat (k + 1)) with (S (Z.to_nat k)) by lia.
    rewrite zrange_snoc, flat_map_app, Z2Nat.id by lia. cbn [flat_map].
    rewrite app_nil_r, Z.add_0_l, <- add_findings_app.
    set (l := flat_map (inode_slot_findings s) (zrange 0 (Z.to_nat k))) in *.
    rewrite get_bit_zero by lia. rewrite is_valid_inode_in_use.
    rewrite negb_involutive.
    change (inode_bitmap (add_findings l s)) with (inode_bitmap s).
    change (inodes (add_findings l s)) with (inodes s).
    unfold inode_slot_findings.
    destruct (bitmap_bit (inode_bitmap s) k), (inode_in_use (inodes s k));
      cbn [andb negb]; rewrite ?found_eq; unfold ret;
      rewrite ?app_nil_r, ?add_findings_nil;
      eexists _, _; (split; [reflexivity|]); split; try reflexivity;
      subst b; destruct l; reflexivity.
  - rewrite E.
    cbv zeta in Hc, Ht. unfold INODE_COUNT in Hc, Ht.
    change (Z.to_nat 80) with 80%nat in Hc, Ht.
    subst c t. reflexivity.
Qed.

(** C7.  For every inode slot 0..79 [check_inode_bitmap_consistency]
    recomputes validity from the inode record (link count positive and
    deletion time 0) and prints exactly one finding when the slot's bitmap bit
    disagrees with it: "marked but not valid" when the bit is set and the
    inode is invalid, "valid but not marked" when the bit is clear and the
    inode is valid, nothing when they agree; the error count grows by the
    number of findings and the result tells whether there was none.  The
    validity used is [is_valid_inode], which reads [nlink] and [dtime] only;
    the bit is the one [get_bit] reads. *)
Theorem check_inode_bitmap_consistency_findings : forall s : fsck,
  let findings := flat_map (inode_slot_findings s) (zrange 0 80) in
  check_inode_bitmap_consistency s =
    Some (is_nil findings, add_findings findings s)
  /\ (forall i : Z,
        is_valid_inode s i
        = (0 <? nlink (inodes s i)) && (dtime (inodes s i) =? 0))
  /\ (forall i : Z,
        In (ErrInodeMarkedNotValid i) findings <->
        0 <= i < 80 /\ get_bit (inode_bitmap s) i <> 0
        /\ is_valid_inode s i = false)
  /\ (forall i : Z,
        In (ErrInodeValidNotMarked i) findings <->
        0 <= i < 80 /\ get_bit (inode_bitmap s) i = 0
        /\ is_valid_inode s i = true)
  /\ (forall i : Z, (length (inode_slot_findings s i) <= 1)%nat)
  /\ errors_found (add_findings findings s) =
        errors_found s + Z.of_nat (length findings).
Proof.
  intros s findings. split; [apply check_inode_bitmap_consistency_eq|].
  split; [reflexivity|].
  assert (Hbit : forall i, 0 <= i < 80 ->
            (get_bit (inode_bitmap s) i <> 0
             <-> bitmap_bit (inode_bitmap s) i = true)
            /\ (get_bit (inode_bitmap s) i = 0
                <-> bitmap_bit (inode_bitmap s) i = false)).
  { intros i Hi. pose proof (get_bit_zero (inode_bitmap s) i) as H.
    specialize (H ltac:(lia)).
    destruct (bitmap_bit (inode_bitmap s) i);
      destruct (get_bit (inode_bitmap s) i =? 0) eqn:E; cbn in H;
      try discriminate;
      [apply Z.eqb_neq in E | apply Z.eqb_eq in E];
      intuition (discriminate || auto). }
  split; [|split; [|split]].
  - intros i. subst findings. rewrite in_flat_map. split.
    + intros (k & Hk & Hin). apply in_zrange in Hk.
      apply inode_slot_findings_cases in Hin.
      destruct Hin as [(E & Hb & Hv)|(E & _)]; [|discriminate].
      injection E as <-. rewrite is_valid_inode_in_use.
      split; [lia|]. split; [apply Hbit; [lia|exact Hb]|exact Hv].
    + intros (Hi & Hb & Hv). exists i. split; [apply in_zrange; lia|].
      apply inode_slot_findings_cases. left.
      rewrite is_valid_inode_in_use in Hv.
      split; [reflexivity|]. split; [apply Hbit; assumption|exact Hv].
  - intros i. subst findings. rewrite in_flat_map. split.
    + intros (k & Hk & Hin). apply in_zrange in Hk.
      apply inode_slot_findings_cases in Hin.
      destruct Hin as [(E & _)|(E & Hb & Hv)]; [discriminate|].
      injection E as <-. rewrite is_valid_inode_in_use.
      split; [lia|]. split; [apply Hbit; [lia|exact Hb]|exact Hv].
    + intros (Hi & Hb & Hv). exists i. split; [apply in_zrange; lia|].
      apply inode_slot_findings_cases. right.
      rewrite is_valid_inode_in_use in Hv.
      split; [reflexivity|]. split; [apply Hbit; assumption|exact Hv].
  - apply inode_slot_findings_length.
  - reflexivity.
Qed.

Lemma testbit_u8 (x p : Z) : 0 <= p < 8 -> Z.testbit (u8 x) p = Z.testbit x p.
Proof.
  intros Hp. unfold u8. change 256 with (2 ^ 8).
  apply Z.mod_pow2_bits_low. lia.
Qed.

Lemma same_bit_index (i j : Z) :
  j / 8 = i / 8 -> j mod 8 = i mod 8 -> j = i.
Proof.
  intros Hd Hm.
  rewrite (Z.div_mod j 8), (Z.div_mod i 8) by lia. rewrite Hd, Hm. reflexivity.
Qed.

Lemma bitmap_bit_set_bit (bitmap : Z -> Z) (i j : Z) :
  0 <= i -> 0 <= j ->
  bitmap_bit (set_bit bitmap i) j = if j =? i then true else bitmap_bit bitmap j.
Proof.
  intros Hi Hj. unfold set_bit, bitmap_bit, upd. cbv zeta.
  rewrite Z.quot_div_nonneg, Z.rem_mod_nonneg by lia.
  assert (Hp : 0 <= j mod 8 < 8) by (apply Z.mod_pos_bound; lia).
  assert (Ho : 0 <= i mod 8 < 8) by (apply Z.mod_pos_bound; lia).
  destruct (Z.eqb_spec (j / 8) (i / 8)) as [Hd|Hd].
  - rewrite testbit_u8, Z.lor_spec, Z.shiftl_1_l, Z.pow2_bits_eqb by lia.
    rewrite Hd.
    destruct (Z.eqb_spec (i mod 8) (j mod 8)) as [Hm|Hm].
    + rewrite (same_bit_index i j Hd (eq_sym Hm)), Z.eqb_refl, orb_true_r.
      reflexivity.
    + destruct (Z.eqb_spec j i) as [->|_]; [congruence|].
      rewrite orb_false_r. reflexivity.
  - destruct (Z.eqb_spec j i) as [->|_]; [congruence|]. reflexivity.
Qed.

Lemma bitmap_bit_clear_bit (bitmap : Z -> Z) (i j : Z) :
  0 <= i -> 0 <= j ->
  bitmap_bit (clear_bit bitmap i) j = if j =? i then false else bitmap_bit bitmap j.
Proof.
  intros Hi Hj. unfold clear_bit, bitmap_bit, upd. cbv zeta.
  rewrite Z.quot_div_nonneg, Z.rem_mod_nonneg by lia.
  assert (Hp : 0 <= j mod 8 < 8) by (apply Z.mod_pos_bound; lia).
  assert (Ho : 0 <= i mod 8 < 8) by (apply Z.mod_pos_bound; lia).
  destruct (Z.eqb_spec (j / 8) (i / 8)) as [Hd|Hd].
  - rewrite testbit_u8, Z.land_spec, Z.lnot_spec, Z.shiftl_1_l,
      Z.pow2_bits_eqb by lia.
    rewrite Hd.
    destruct (Z.eqb_spec (i mod 8) (j mod 8)) as [Hm|Hm].
    + rewrite (same_bit_index i j Hd (eq_sym Hm)), Z.eqb_refl, andb_false_r.
      reflexivity.
    + destruct (Z.eqb_spec j i) as [->|_]; [congruence|].
      rewrite andb_true_r. reflexivity.
  - destruct (Z.eqb_spec j i) as [->|_]; [congruence|]. reflexivity.
Qed.

(** ** Repair: the superblock *)

Lemma fix_field_eq (field : superblock_t -> Z)
      (set : Z -> superblock_t -> superblock_t) (c : Z)
      (Hid : forall sb, field sb = c -> set c sb = sb)
      (e : Z) (sb : superblock_t) (s : fsck) :
  fix_field field set c (with_errors_fixed e (with_superblock sb s)) =
  Some (tt, with_errors_fixed (e + Z.b2z (negb (field sb =? c)))
                              (with_superblock (set c sb) s)).
Proof.
  unfold fix_field. rewrite (bind_eq get _ _ _ _ eq_refl).
  change (superblock (with_errors_fixed e (with_superblock sb s))) with sb.
  destruct (Z.eqb_spec (field sb) c) as [E|E]; cbn [negb Z.b2z].
  - rewrite (Hid sb E), Z.add_0_r. reflexivity.
  - reflexivity.
Qed.

Lemma length_filter_cons {A : Type} (p : A -> bool) (x : A) (l : list A) :
  Z.of_nat (length (filter p (x :: l))) =
  Z.b2z (p x) + Z.of_nat (length (filter p l)).
Proof. cbn [filter]. destruct (p x); cbn [length Z.b2z]; lia. Qed.

Lemma fix_superblock_eq (s : fsck) :
  fix_superblock s =
  Some (tt, with_errors_fixed (errors_fixed s + sb_mismatches (superblock s))
              (with_superblock (repaired_superblock (superblock s)) s)).
Proof.
  destruct s as [img sb ibm dbm tbl br brb ef ex co fw].
  change (mkFsck img sb ibm dbm tbl br brb ef ex co fw)
    with (with_errors_fixed ex (with_superblock sb
            (mkFsck img sb ibm dbm tbl br brb ef ex co fw))) at 1.
  cbn [errors_fixed superblock].
  set (s := mkFsck img sb ibm dbm tbl br brb ef ex co fw).
  destruct sb as [mg pd bs tb ib db it ds isz ic rs tl].
  unfold fix_superblock.
  repeat (erewrite bind_eq;
          [| apply fix_field_eq; intros [] <-; reflexivity]).
  rewrite fix_field_eq by (intros [] <-; reflexivity).
  unfold sb_mismatches, sb_fields. rewrite !length_filter_cons.
  cbn. rewrite <- !Z.add_assoc, Z.add_0_r. reflexivity.
Qed.

(** ** Machine integers *)

Lemma u32_small (z : Z) : 0 <= z < 2 ^ 32 -> u32 z = z.
Proof. intros H. unfold u32. apply Z.mod_small. exact H. Qed.

Lemma to_int_small (z : Z) : 0 <= z < 2 ^ 31 -> to_int z = z.
Proof.
  intros H. unfold to_int. cbv zeta. rewrite Z.mod_small by lia.
  destruct (Z.ltb_spec z (2 ^ 31)); lia.
Qed.

(** ** Repair: the bitmaps *)

Lemma fsck_eta (s : fsck) :
  s = mkFsck (fs_image s) (superblock s) (inode_bitmap s) (data_bitmap s)
             (inodes s) (block_referenced s) (block_referenced_by s)
             (errors_found s) (errors_fixed s) (console s) (fwrites s).
Proof. destruct s. reflexivity. Qed.

Lemma fix_inode_bitmap_spec (s : fsck) :
  exists bm e,
    fix_inode_bitmap s = Some (tt, with_errors_fixed e (with_inode_bitmap bm s))
    /\ errors_fixed s <= e
    /\ (forall i, 0 <= i < 80 -> bitmap_bit bm i = inode_in_use (inodes s i))
    /\ (forall i, 80 <= i -> bitmap_bit bm i = bitmap_bit (inode_bitmap s) i).
Proof.
  unfold fix_inode_bitmap.
  loop_total (fun k (_ : unit) t =>
    exists bm e,
      t = with_errors_fixed e (with_inode_bitmap bm s)
      /\ errors_fixed s <= e
      /\ (forall i, 0 <= i < k -> bitmap_bit bm i = inode_in_use (inodes s i))
      /\ (forall i, k <= i -> bitmap_bit bm i = bitmap_bit (inode_bitmap s) i))
    u t E H.
  - unfold INODE_COUNT. lia.
  - exists (inode_bitmap s), (errors_fixed s). repeat split; try lia.
    apply fsck_eta.
  - intros k [] t Hk (bm & e & -> & He & Hlo & Hhi).
    rewrite (bind_eq get _ _ _ _ eq_refl). cbv zeta.
    rewrite get_bit_zero by lia. rewrite is_valid_inode_in_use, negb_involutive.
    change (inode_bitmap (with_errors_fixed e (with_inode_bitmap bm s))) with bm.
    change (inodes (with_errors_fixed e (with_inode_bitmap bm s))) with (inodes s).
    assert (Hk' : bitmap_bit bm k = bitmap_bit (inode_bitmap s) k)
      by (apply Hhi; lia).
    destruct (bitmap_bit bm k) eqn:Eb, (inode_in_use (inodes s k)) eqn:Ev;
      cbn [andb negb].
    + exists tt, (with_errors_fixed e (with_inode_bitmap bm s)).
      split; [reflexivity|]. exists bm, e. repeat split; auto.
      * intros i Hi. destruct (Z.eq_dec i k) as [->|]; [congruence|].
        apply Hlo. lia.
      * intros i Hi. apply Hhi. lia.
    + exists tt, (with_errors_fixed (e + 1) (with_inode_bitmap (clear_bit bm k) s)).
      split; [reflexivity|]. exists (clear_bit bm k), (e + 1).
      repeat split; try lia.
      * intros i Hi. rewrite bitmap_bit_clear_bit by lia.
        destruct (Z.eqb_spec i k) as [->|]; [congruence|]. apply Hlo. lia.
      * intros i Hi. rewrite bitmap_bit_clear_bit by lia.
        destruct (Z.eqb_spec i k); [lia|]. apply Hhi. lia.
    + exists tt, (with_errors_fixed (e + 1) (with_inode_bitmap (set_bit bm k) s)).
      split; [reflexivity|]. exists (set_bit bm k), (e + 1).
      repeat split; try lia.
      * intros i Hi. rewrite bitmap_bit_set_bit by lia.
        destruct (Z.eqb_spec i k) as [->|]; [congruence|]. apply Hlo. lia.
      * intros i Hi. rewrite bitmap_bit_set_bit by lia.
        destruct (Z.eqb_spec i k); [lia|]. apply Hhi. lia.
    + exists tt, (with_errors_fixed e (with_inode_bitmap bm s)).
      split; [reflexivity|]. exists bm, e. repeat split; auto.
      * intros i Hi. destruct (Z.eq_dec i k) as [->|]; [congruence|].
        apply Hlo. lia.
      * intros i Hi. apply Hhi. lia.
  - destruct H as (bm & e & -> & He & Hlo & Hhi). destruct u.
    exists bm, e. split; [exact E|]. repeat split; auto.
Qed.

(** With the data region starting at block 8 (as it does once the superblock
    has been repaired), the bit of every block 8..63 is made to agree with
    [block_referenced]; the other bits are left alone. *)
Lemma fix_data_bitmap_spec (s : fsck) :
  data_block_start (superblock s) = 8 ->
  exists bm e,
    fix_data_bitmap s = Some (tt, with_errors_fixed e (with_data_bitmap bm s))
    /\ errors_fixed s <= e
    /\ (forall b, 8 <= b < 64 -> bitmap_bit bm (b - 8) = block_referenced s b)
    /\ (forall n, 56 <= n -> bitmap_bit bm n = bitmap_bit (data_bitmap s) n).
Proof.
  intros Hds. unfold fix_data_bitmap.
  rewrite (bind_eq get _ _ _ _ eq_refl). rewrite Hds.
  rewrite (to_int_small 8) by lia.
  loop_total (fun k (_ : unit) t =>
    exists bm e,
      t = with_errors_fixed e (with_data_bitmap bm s)
      /\ errors_fixed s <= e
      /\ (forall b, 8 <= b < k -> bitmap_bit bm (b - 8) = block_referenced s b)
      /\ (forall n, k - 8 <= n -> bitmap_bit bm n = bitmap_bit (data_bitmap s) n))
    u t E H.
  - unfold TOTAL_BLOCKS. lia.
  - exists (data_bitmap s), (errors_fixed s). repeat split; try lia.
    apply fsck_eta.
  - unfold TOTAL_BLOCKS. intros k [] t Hk (bm & e & -> & He & Hlo & Hhi).
    rewrite (bind_eq get _ _ _ _ eq_refl). cbv zeta.
    change (superblock (with_errors_fixed e (with_data_bitmap bm s)))
      with (superblock s).
    rewrite Hds, (u32_small k), (to_int_small (k - 8)) by lia.
    rewrite get_bit_zero by lia. rewrite negb_involutive.
    destruct (Z.leb_spec 0 k); [|lia].
    change (data_bitmap (with_errors_fixed e (with_data_bitmap bm s))) with bm.
    change (block_referenced (with_errors_fixed e (with_data_bitmap bm s)))
      with (block_referenced s).
    destruct (bitmap_bit bm (k - 8)) eqn:Eb, (block_referenced s k) eqn:Er;
      cbn [andb negb].
    + exists tt, (with_errors_fixed e (with_data_bitmap bm s)).
      split; [reflexivity|]. exists bm, e. repeat split; auto.
      * intros b Hb. destruct (Z.eq_dec b k) as [->|]; [congruence|].
        apply Hlo. lia.
      * intros n Hn. apply Hhi. lia.
    + exists tt, (with_errors_fixed (e + 1)
                    (with_data_bitmap (clear_bit bm (k - 8)) s)).
      split; [reflexivity|]. exists (clear_bit bm (k - 8)), (e + 1).
      repeat split; try lia.
      * intros b Hb. rewrite bitmap_bit_clear_bit by lia.
        destruct (Z.eqb_spec (b - 8) (k - 8)) as [Hbk|Hbk].
        -- replace b with k by lia. congruence.
        -- apply Hlo. lia.
      * intros n Hn. rewrite bitmap_bit_clear_bit by lia.
        destruct (Z.eqb_spec n (k - 8)); [lia|]. apply Hhi. lia.
    + exists tt, (with_errors_fixed (e + 1)
                    (with_data_bitmap (set_bit bm (k - 8)) s)).
      split; [reflexivity|]. exists (set_bit bm (k - 8)), (e + 1).
      repeat split; try lia.
      * intros b Hb. rewrite bitmap_bit_set_bit by lia.
        destruct (Z.eqb_spec (b - 8) (k - 8)) as [Hbk|Hbk].
        -- replace b with k by lia. congruence.
        -- apply Hlo. lia.
      * intros n Hn. rewrite bitmap_bit_set_bit by lia.
        destruct (Z.eqb_spec n (k - 8)); [lia|]. apply Hhi. lia.
    + exists tt, (with_errors_fixed e (with_data_bitmap bm s)).
      split; [reflexivity|]. exists bm, e. repeat split; auto.
      * intros b Hb. destruct (Z.eq_dec b k) as [->|]; [congruence|].
        apply Hlo. lia.
      * intros n Hn. apply Hhi. lia.
  - destruct H as (bm & e & -> & He & Hlo & Hhi). destruct u.
    exists bm, e. split; [exact E|]. repeat split; auto.
Qed.

(** ** Repair: out-of-range block pointers *)

Lemma bad_block_number_eq (t : fsck) (b : Z) :
  data_block_start (superblock t) = 8 -> bad_block_number t b = bad_pointer b.
Proof.
  intros H. unfold bad_block_number, outside_data_region, bad_pointer.
  rewrite H. reflexivity.
Qed.

Lemma upd_same {A : Type} (f : Z -> A) (i : Z) (v : A) : upd f i v i = v.
Proof. unfold upd. rewrite Z.eqb_refl. reflexivity. Qed.

Lemma upd_other {A : Type} (f : Z -> A) (i k : Z) (v : A) :
  k <> i -> upd f i v k = f k.
Proof. intros H. unfold upd. destruct (Z.eqb_spec k i); congruence. Qed.

Lemma fix_direct_blocks_spec (t : fsck) (i : Z) :
  data_block_start (superblock t) = 8 ->
  exists tbl e,
    fix_direct_blocks i t = Some (tt, with_errors_fixed e (with_inodes tbl t))
    /\ errors_fixed t <= e
    /\ (forall i', i' <> i -> tbl i' = inodes t i')
    /\ nlink (tbl i) = nlink (inodes t i)
    /\ dtime (tbl i) = dtime (inodes t i)
    /\ indirect_block (tbl i) = indirect_block (inodes t i)
    /\ (forall j, direct_blocks (tbl i) j =
                  if (0 <=? j) && (j <? 12)
                  then repaired_pointer (direct_blocks (inodes t i) j)
                  else direct_blocks (inodes t i) j).
Proof.
  intros Hds. unfold fix_direct_blocks.
  loop_total (fun k (_ : unit) t' =>
    exists tbl e,
      t' = with_errors_fixed e (with_inodes tbl t)
      /\ errors_fixed t <= e
      /\ (forall i', i' <> i -> tbl i' = inodes t i')
      /\ nlink (tbl i) = nlink (inodes t i)
      /\ dtime (tbl i) = dtime (inodes t i)
      /\ indirect_block (tbl i) = indirect_block (inodes t i)
      /\ (forall j, direct_blocks (tbl i) j =
                    if (0 <=? j) && (j <? k)
                    then repaired_pointer (direct_blocks (inodes t i) j)
                    else direct_blocks (inodes t i) j))
    u t' E H.
  - lia.
  - exists (inodes t), (errors_fixed t). repeat split; try lia.
    + apply fsck_eta.
    + intros j. destruct (Z.leb_spec 0 j), (Z.ltb_spec j 0); try reflexivity; lia.
  - intros k [] t' Hk (tbl & e & -> & He & Ho & Hn & Hd & Hi & Hj).
    rewrite (bind_eq get _ _ _ _ eq_refl). cbv zeta.
    rewrite bad_block_number_eq by exact Hds.
    change (inodes (with_errors_fixed e (with_inodes tbl t))) with tbl.
    assert (Hk' : direct_blocks (tbl i) k = direct_blocks (inodes t i) k).
    { rewrite Hj. destruct (Z.ltb_spec k k); [lia|].
      rewrite andb_false_r. reflexivity. }
    rewrite Hk'.
    destruct (bad_pointer (direct_blocks (inodes t i) k)) eqn:Eb.
    + exists tt, (with_errors_fixed (e + 1)
           (with_inodes (upd tbl i (set_direct_block (tbl i) k 0)) t)).
      split; [reflexivity|].
      exists (upd tbl i (set_direct_block (tbl i) k 0)), (e + 1).
      split; [reflexivity|]. split; [lia|]. split.
      { intros i' Hi'. rewrite upd_other by exact Hi'. apply Ho. exact Hi'. }
      rewrite upd_same. cbn [set_direct_block nlink dtime indirect_block direct_blocks].
      repeat split; auto.
      intros j. unfold upd. destruct (Z.eqb_spec j k) as [->|Hjk].
      * destruct (Z.leb_spec 0 k), (Z.ltb_spec k (k + 1)); try lia.
        cbn [andb]. unfold repaired_pointer. rewrite Eb. reflexivity.
      * rewrite Hj.
        destruct (0 <=? j), (Z.ltb_spec j k), (Z.ltb_spec j (k + 1));
          try reflexivity; lia.
    + exists tt, (with_errors_fixed e (with_inodes tbl t)).
      split; [reflexivity|]. exists tbl, e.
      repeat split; auto.
      intros j. destruct (Z.eq_dec j k) as [->|Hjk].
      * rewrite Hk'.
        destruct (Z.leb_spec 0 k), (Z.ltb_spec k (k + 1)); try lia.
        cbn [andb]. unfold repaired_pointer. rewrite Eb. reflexivity.
      * rewrite Hj.
        destruct (0 <=? j), (Z.ltb_spec j k), (Z.ltb_spec j (k + 1));
          try reflexivity; lia.
  - destruct H as (tbl & e & -> & H). destruct u. exists tbl, e.
    split; [exact E|]. exact H.
Qed.

Lemma fix_indirect_entries_spec (t : fsck) (entries : Z -> Z) :
  data_block_start (superblock t) = 8 ->
  exists entries' modified' e,
    fix_indirect_entries (entries, false) t =
    Some ((entries', modified'), with_errors_fixed e t)
    /\ errors_fixed t <= e
    /\ (forall j, entries' j =
                  if (0 <=? j) && (j <? 1024) then repaired_pointer (entries j)
                  else entries j)
    /\ (modified' = false ->
        forall j, 0 <= j < 1024 -> bad_pointer (entries j) = false)
    /\ modified' = existsb (fun j => bad_pointer (entries j)) (zrange 0 1024).
Proof.
  intros Hds. unfold fix_indirect_entries.
  loop_total (fun k (r : (Z -> Z) * bool) t' =>
    exists e,
      t' = with_errors_fixed e t
      /\ errors_fixed t <= e
      /\ (forall j, fst r j =
                    if (0 <=? j) && (j <? k) then repaired_pointer (entries j)
                    else entries j)
      /\ (snd r = false ->
          forall j, 0 <= j < k -> bad_pointer (entries j) = false)
      /\ snd r = existsb (fun j => bad_pointer (entries j))
                         (zrange 0 (Z.to_nat k)))
    r t' E H.
  - unfold BLOCK_SIZE. cbn. lia.
  - exists (errors_fixed t). repeat split; try lia.
    + apply fsck_eta.
    + intros j. cbn [fst].
      destruct (Z.leb_spec 0 j), (Z.ltb_spec j 0); try reflexivity; lia.
  - intros k [ent m] t' Hk (e & -> & He & Hj & Hm & Hx).
    cbn [fst snd] in Hj, Hm, Hx.
    assert (Hsucc : existsb (fun j => bad_pointer (entries j))
                            (zrange 0 (Z.to_nat (k + 1)))
                    = existsb (fun j => bad_pointer (entries j))
                              (zrange 0 (Z.to_nat k))
                      || bad_pointer (entries k)).
    { replace (Z.to_nat (k + 1)) with (S (Z.to_nat k)) by lia.
      rewrite zrange_snoc, existsb_app, Z2Nat.id, Z.add_0_l by lia.
      cbn [existsb]. rewrite orb_false_r. reflexivity. }
    rewrite (bind_eq get _ _ _ _ eq_refl). cbv zeta.
    rewrite bad_block_number_eq by exact Hds.
    assert (Hk' : ent k = entries k).
    { rewrite Hj. destruct (Z.ltb_spec k k); [lia|].
      rewrite andb_false_r. reflexivity. }
    rewrite Hk'.
    destruct (bad_pointer (entries k)) eqn:Eb.
    + exists (upd ent k 0, true), (with_errors_fixed (e + 1) t).
      split; [reflexivity|]. exists (e + 1). split; [reflexivity|].
      split; [lia|]. split;
        [|split; [cbn [snd]; discriminate
                 |cbn [snd]; rewrite Hsucc, ?Eb, orb_true_r; reflexivity]].
      intros j. cbn [fst]. unfold upd. destruct (Z.eqb_spec j k) as [->|Hjk].
      * destruct (Z.leb_spec 0 k), (Z.ltb_spec k (k + 1)); try lia.
        cbn [andb]. unfold repaired_pointer. rewrite Eb. reflexivity.
      * rewrite Hj.
        destruct (0 <=? j), (Z.ltb_spec j k), (Z.ltb_spec j (k + 1));
          try reflexivity; lia.
    + exists (ent, m), (with_errors_fixed e t).
      split; [reflexivity|]. exists e. split; [reflexivity|].
      split; [exact He|]. split.
      * intros j. cbn [fst]. destruct (Z.eq_dec j k) as [->|Hjk].
        -- rewrite Hk'.
           destruct (Z.leb_spec 0 k), (Z.ltb_spec k (k + 1)); try lia.
           cbn [andb]. unfold repaired_pointer. rewrite Eb. reflexivity.
        -- rewrite Hj.
           destruct (0 <=? j), (Z.ltb_spec j k), (Z.ltb_spec j (k + 1));
             try reflexivity; lia.
      * cbn [snd]. split.
        -- intros Hmf j Hjr. destruct (Z.eq_dec j k) as [->|Hjk].
           ++ exact Eb.
           ++ apply (Hm Hmf). lia.
        -- rewrite Hsucc, ?Eb, orb_false_r. exact Hx.
  - destruct H as (e & -> & He & Hj & Hm & Hx). destruct r as [ent m].
    exists ent, m, e. split; [exact E|]. split; [exact He|].
    split; [exact Hj|]. cbn [snd] in Hm, Hx. split.
    + intros Hmf j Hjr. apply (Hm Hmf). unfold BLOCK_SIZE. cbn. lia.
    + exact Hx.
Qed.

Lemma fread_ok (t : fsck) (off n : Z) :
  off + n <= file_len (fs_image t) ->
  fread off n t = Some (fun k => file_byte (fs_image t) (off + k), t).
Proof.
  intros H. unfold fread. rewrite (bind_eq get _ _ _ _ eq_refl).
  unfold file_read. destruct (Z.leb_spec (off + n) (file_len (fs_image t))); [|lia].
  reflexivity.
Qed.

Lemma decode_entries_block_entry (img : file) (blk j : Z) :
  decode_entries (fun k => file_byte img (u32 (blk * 4096) + k)) j
  = block_entry img blk j.
Proof.
  unfold decode_entries, le32_at, block_entry. cbv zeta.
  rewrite !Z.add_assoc. reflexivity.
Qed.

Lemma read_indirect_eq (t : fsck) (blk : Z) :
  u32 (blk * 4096) + 4096 <= file_len (fs_image t) ->
  read_indirect blk t =
  Some (decode_entries (fun k => file_byte (fs_image t) (u32 (blk * 4096) + k)), t).
Proof.
  intros H. unfold read_indirect, BLOCK_SIZE.
  rewrite (bind_eq _ _ _ _ _ (fread_ok t _ _ H)). reflexivity.
Qed.

(** Whatever [read_indirect] returns is the content of the block. *)
Lemma read_indirect_some (t : fsck) (blk : Z) (entries : Z -> Z) (t1 : fsck) :
  read_indirect blk t = Some (entries, t1) ->
  t1 = t /\ forall j, entries j = block_entry (fs_image t) blk j.
Proof.
  unfold read_indirect, fread, BLOCK_SIZE. intros E.
  apply bind_some in E. destruct E as (buf & t2 & E1 & E2).
  apply bind_some in E1. destruct E1 as (t3 & t4 & Eg & E1).
  inversion Eg; subst t3 t4. unfold file_read in E1.
  destruct (_ <=? _); [|discriminate]. inversion E1; subst buf t2.
  inversion E2; subst entries t1. split; [reflexivity|].
  intros j. apply decode_entries_block_entry.
Qed.

Lemma repaired_pointer_in_range (b : Z) :
  8 <= b < 64 -> repaired_pointer b = b.
Proof.
  intros H. unfold repaired_pointer, bad_pointer.
  destruct (Z.ltb_spec b 8), (Z.geb_spec b 64); try lia.
  rewrite andb_false_r. reflexivity.
Qed.

(** *** Block content under writes *)

Lemma le32_roundtrip (v : Z) :
  0 <= v < 2 ^ 32 ->
  byte_of v 0 + 256 * byte_of v 1 + 65536 * byte_of v 2 + 16777216 * byte_of v 3 = v.
Proof.
  intros H. unfold byte_of.
  change (256 ^ 0) with 1. change (256 ^ 1) with 256.
  change (256 ^ 2) with 65536. change (256 ^ 3) with 16777216.
  change (2 ^ 32) with 4294967296 in H.
  Z.div_mod_to_equations. lia.
Qed.

Lemma entry_index (j c : Z) :
  0 <= c < 4 -> (4 * j + c) / 4 = j /\ (4 * j + c) mod 4 = c.
Proof. intros H. Z.div_mod_to_equations. lia. Qed.

Lemma byte_of_range (v c : Z) : 0 <= byte_of v c < 256.
Proof. unfold byte_of. apply Z.mod_pos_bound. lia. Qed.

Lemma block_entry_range (img : file) (blk j : Z) :
  data_bytes_ok img -> 8 <= blk < 64 -> 0 <= j < 1024 ->
  0 <= block_entry img blk j < 2 ^ 32.
Proof.
  intros Hok Hb Hj. unfold block_entry. cbv zeta.
  rewrite u32_small by lia.
  pose proof (Hok (blk * 4096 + 4 * j) ltac:(lia)).
  pose proof (Hok (blk * 4096 + 4 * j + 1) ltac:(lia)).
  pose proof (Hok (blk * 4096 + 4 * j + 2) ltac:(lia)).
  pose proof (Hok (blk * 4096 + 4 * j + 3) ltac:(lia)).
  change (2 ^ 32) with 4294967296. lia.
Qed.

Lemma repaired_pointer_range (v : Z) :
  0 <= v < 2 ^ 32 -> 0 <= repaired_pointer v < 2 ^ 32.
Proof. unfold repaired_pointer. destruct (bad_pointer v); lia. Qed.

Lemma repaired_pointer_idem (v : Z) :
  repaired_pointer (repaired_pointer v) = repaired_pointer v.
Proof.
  unfold repaired_pointer. destruct (bad_pointer v) eqn:E; [reflexivity|].
  rewrite E. reflexivity.
Qed.

(** A block that has been written holds the entries written. *)
Lemma block_entry_write_same (img : file) (blk j : Z) (entries : Z -> Z) :
  8 <= blk < 64 -> 0 <= j < 1024 -> 0 <= entries j < 2 ^ 32 ->
  block_entry (file_write img (blk * 4096) 4096 (encode_entries entries)) blk j
  = entries j.
Proof.
  intros Hb Hj Hv. unfold block_entry, file_write. cbv zeta. cbn [file_byte].
  rewrite u32_small by lia.
  assert (Hin : forall c, 0 <= c < 4 ->
            (if (blk * 4096 <=? blk * 4096 + 4 * j + c)
                && (blk * 4096 + 4 * j + c <? blk * 4096 + 4096)
             then encode_entries entries (blk * 4096 + 4 * j + c - blk * 4096)
             else if blk * 4096 + 4 * j + c <? file_len img
                  then file_byte img (blk * 4096 + 4 * j + c) else 0)
            = byte_of (entries j) c).
  { intros c Hc.
    destruct (Z.leb_spec (blk * 4096) (blk * 4096 + 4 * j + c)); [|lia].
    destruct (Z.ltb_spec (blk * 4096 + 4 * j + c) (blk * 4096 + 4096)); [|lia].
    cbn [andb]. unfold encode_entries.
    replace (blk * 4096 + 4 * j + c - blk * 4096) with (4 * j + c) by lia.
    destruct (entry_index j c Hc) as [-> ->]. reflexivity. }
  pose proof (Hin 0 ltac:(lia)) as H0. rewrite Z.add_0_r in H0.
  rewrite H0, (Hin 1), (Hin 2), (Hin 3) by lia.
  apply le32_roundtrip. exact Hv.
Qed.

(** A write that does not overlap a block leaves its entries alone. *)
Lemma block_entry_write_other (img : file) (off n : Z) (buf : Z -> Z) (blk j : Z) :
  0 <= blk < 64 -> 0 <= j < 1024 ->
  262144 <= file_len img ->
  off + n <= blk * 4096 \/ (blk + 1) * 4096 <= off ->
  block_entry (file_write img off n buf) blk j = block_entry img blk j.
Proof.
  intros Hb Hj Hlen Hdis. unfold block_entry, file_write. cbv zeta.
  cbn [file_byte]. rewrite u32_small by lia.
  assert (Hout : forall k, blk * 4096 <= k < blk * 4096 + 4096 ->
            (if (off <=? k) && (k <? off + n) then buf (k - off)
             else if k <? file_len img then file_byte img k else 0)
            = file_byte img k).
  { intros k Hk.
    destruct (Z.leb_spec off k), (Z.ltb_spec k (off + n)); cbn [andb];
      try lia; destruct (Z.ltb_spec k (file_len img)); try lia; reflexivity. }
  rewrite !Hout by lia. reflexivity.
Qed.

Lemma data_bytes_ok_write_block (img : file) (blk : Z) (entries : Z -> Z) :
  262144 <= file_len img ->
  data_bytes_ok img ->
  data_bytes_ok (file_write img (blk * 4096) 4096 (encode_entries entries)).
Proof.
  intros Hlen Hok k Hk. unfold file_write. cbn [file_byte].
  destruct ((blk * 4096 <=? k) && (k <? blk * 4096 + 4096)).
  - unfold encode_entries. apply byte_of_range.
  - destruct (Z.ltb_spec k (file_len img)); [apply Hok; exact Hk | lia].
Qed.

Lemma existsb_pointwise {A : Type} (f g : A -> bool) (l : list A) :
  (forall x, f x = g x) -> existsb f l = existsb g l.
Proof.
  intros H. induction l as [|x l IH]; cbn; [reflexivity|].
  rewrite H, IH. reflexivity.
Qed.

Lemma fix_indirect_block_spec (t : fsck) (i : Z) :
  data_block_start (superblock t) = 8 ->
  262144 <= file_len (fs_image t) ->
  exists tbl img w e,
    fix_indirect_block i t =
    Some (tt, with_errors_fixed e (with_inodes tbl (with_image img w t)))
    /\ errors_fixed t <= e
    /\ file_len (fs_image t) <= file_len img
    /\ (exists ws, w = fwrites t ++ ws /\ Forall indirect_write ws
                   /\ ws = indirect_block_write (fs_image t) (inodes t i))
    /\ (forall i', i' <> i -> tbl i' = inodes t i')
    /\ nlink (tbl i) = nlink (inodes t i)
    /\ dtime (tbl i) = dtime (inodes t i)
    /\ (forall j, direct_blocks (tbl i) j = direct_blocks (inodes t i) j)
    /\ indirect_block (tbl i) = repaired_pointer (indirect_block (inodes t i))
    /\ (data_bytes_ok (fs_image t) ->
        data_bytes_ok img
        /\ forall blk j, 8 <= blk < 64 -> 0 <= j < 1024 ->
             block_entry img blk j =
             if indirect_block (inodes t i) =? blk
             then repaired_pointer (block_entry (fs_image t) blk j)
             else block_entry (fs_image t) blk j).
Proof.
  intros Hds Hlen. unfold fix_indirect_block.
  rewrite (bind_eq get _ _ _ _ eq_refl). cbv zeta.
  set (ind := indirect_block (inodes t i)).
  assert (Hnil : indirect_block_write (fs_image t) (inodes t i) = [] ->
                 exists ws, fwrites t = fwrites t ++ ws /\ Forall indirect_write ws
                            /\ ws = indirect_block_write (fs_image t) (inodes t i)).
  { intros Hw. exists []. rewrite app_nil_r, Hw. auto. }
  assert (Hwrite : indirect_block_write (fs_image t) (inodes t i)
                   = if (8 <=? ind) && (ind <? 64)
                        && has_bad_entry (fs_image t) ind
                     then [(ind * 4096, 4096)] else []) by reflexivity.
  destruct (Z.eqb_spec ind 0) as [E0|E0]; cbn [negb].
  { exists (inodes t), (fs_image t), (fwrites t), (errors_fixed t).
    split; [unfold ret; do 2 f_equal; apply fsck_eta|].
    split; [lia|]. split; [lia|]. split.
    { apply Hnil. rewrite Hwrite, E0. reflexivity. }
    split; [auto|]. split; [auto|]. split; [auto|]. split; [auto|].
    split. { fold ind. rewrite E0. reflexivity. }
    intros Hok. split; [exact Hok|]. intros blk j Hblk Hj.
    destruct (Z.eqb_spec ind blk); [lia | reflexivity]. }
  unfold outside_data_region. rewrite Hds. unfold TOTAL_BLOCKS.
  destruct ((ind <? 8) || (ind >=? 64)) eqn:Eout.
  { exists (upd (inodes t) i (set_indirect_block (inodes t i) 0)),
           (fs_image t), (fwrites t), (errors_fixed t + 1).
    split; [reflexivity|]. split; [lia|]. split; [lia|]. split.
    { apply Hnil. rewrite Hwrite.
      assert (Hr : (8 <=? ind) && (ind <? 64) = false).
      { destruct (Z.leb_spec 8 ind), (Z.ltb_spec ind 64), (Z.ltb_spec ind 8),
                 (Z.geb_spec ind 64); cbn in Eout |- *;
          first [discriminate | reflexivity | lia]. }
      rewrite Hr. reflexivity. }
    split. { intros i' Hi'. apply upd_other. exact Hi'. }
    rewrite upd_same. cbn [set_indirect_block nlink dtime direct_blocks indirect_block].
    split; [auto|]. split; [auto|]. split; [auto|].
    split.
    { fold ind. unfold repaired_pointer, bad_pointer. rewrite Eout.
      destruct (Z.eqb_spec ind 0); [contradiction|]. reflexivity. }
    intros Hok. split; [exact Hok|]. intros blk j Hblk Hj.
    destruct (Z.eqb_spec ind blk) as [Eq|]; [|reflexivity].
    rewrite Eq in Eout.
    destruct (Z.ltb_spec blk 8), (Z.geb_spec blk 64); cbn in Eout;
      try discriminate; lia. }
  assert (Hin : 8 <= ind < 64).
  { destruct (Z.ltb_spec ind 8), (Z.geb_spec ind 64); cbn in Eout;
      try discriminate; lia. }
  assert (Hoff : u32 (ind * 4096) + 4096 <= file_len (fs_image t))
    by (rewrite u32_small; lia).
  rewrite (bind_eq _ _ _ _ _ (read_indirect_eq t ind Hoff)).
  set (entries := decode_entries _).
  assert (Hent : forall j, entries j = block_entry (fs_image t) ind j)
    by (intros j; apply decode_entries_block_entry).
  destruct (fix_indirect_entries_spec t entries Hds)
    as (entries' & modified' & e & Ef & He & Hrep & Hmod & Hmodx).
  rewrite (bind_eq _ _ _ _ _ Ef).
  assert (Hbad : has_bad_entry (fs_image t) ind = modified').
  { rewrite Hmodx. unfold has_bad_entry. apply existsb_pointwise.
    intros j. rewrite Hent. reflexivity. }
  assert (Hrange : (8 <=? ind) && (ind <? 64) = true).
  { destruct (Z.leb_spec 8 ind), (Z.ltb_spec ind 64);
      first [lia | reflexivity]. }
  rewrite Hrange, Hbad in Hwrite. cbn [andb] in Hwrite.
  destruct modified'.
  - exists (inodes t),
           (file_write (fs_image t) (u32 (ind * BLOCK_SIZE)) BLOCK_SIZE
                       (encode_entries entries')),
           (fwrites t ++ [(u32 (ind * BLOCK_SIZE), BLOCK_SIZE)]),
           e.
    split; [reflexivity|]. split; [exact He|]. split.
    { unfold file_write. cbn [file_len]. lia. }
    split.
    { eexists. split; [reflexivity|]. split.
      - constructor; [|constructor].
        exists ind. split; [exact Hin|].
        unfold BLOCK_SIZE. rewrite u32_small by lia. reflexivity.
      - rewrite Hwrite. unfold BLOCK_SIZE. rewrite u32_small by lia.
        reflexivity. }
    split; [auto|]. split; [auto|]. split; [auto|]. split; [auto|].
    split. { fold ind. symmetry. apply repaired_pointer_in_range. exact Hin. }
    intros Hok. unfold BLOCK_SIZE. rewrite u32_small by lia. split.
    { apply data_bytes_ok_write_block; assumption. }
    intros blk j Hblk Hj. destruct (Z.eqb_spec ind blk) as [<-|Hne].
    + pose proof (block_entry_range _ _ _ Hok Hin Hj) as Hr.
      rewrite block_entry_write_same; auto.
      * rewrite Hrep, Hent.
        destruct (Z.leb_spec 0 j), (Z.ltb_spec j 1024); try lia. reflexivity.
      * rewrite Hrep, Hent.
        destruct (Z.leb_spec 0 j), (Z.ltb_spec j 1024); try lia.
        apply repaired_pointer_range. exact Hr.
    + apply block_entry_write_other; auto; lia.
  - exists (inodes t), (fs_image t), (fwrites t), e.
    split; [unfold ret; do 2 f_equal; destruct t; reflexivity|].
    split; [exact He|]. split; [lia|]. split; [exact (Hnil Hwrite)|].
    split; [auto|]. split; [auto|]. split; [auto|]. split; [auto|].
    split. { fold ind. symmetry. apply repaired_pointer_in_range. exact Hin. }
    intros Hok. split; [exact Hok|].
    intros blk j Hblk Hj. destruct (Z.eqb_spec ind blk) as [<-|Hne];
      [|reflexivity].
    unfold repaired_pointer. rewrite <- Hent, (Hmod eq_refl j Hj). reflexivity.
Qed.

Lemma indirect_of_upto_succ (k : Z) (s : fsck) (blk : Z) :
  0 <= k ->
  indirect_of_upto (k + 1) s blk =
  indirect_of_upto k s blk
  || (inode_in_use (inodes s k) && (indirect_block (inodes s k) =? blk)).
Proof.
  intros Hk. unfold indirect_of_upto.
  replace (Z.to_nat (k + 1)) with (S (Z.to_nat k)) by lia.
  rewrite zrange_snoc, existsb_app, Z2Nat.id, Z.add_0_l by lia.
  cbn [existsb]. rewrite orb_false_r. reflexivity.
Qed.

Lemma existsb_none {A : Type} (f : A -> bool) (l : list A) :
  (forall x, In x l -> f x = false) -> existsb f l = false.
Proof.
  intros H. induction l as [|x l IH]; cbn [existsb]; [reflexivity|].
  rewrite (H x) by (left; reflexivity). apply IH.
  intros y Hy. apply H. right. exact Hy.
Qed.

Lemma existsb_pointwise_in {A : Type} (f g : A -> bool) (l : list A) :
  (forall x, In x l -> f x = g x) -> existsb f l = existsb g l.
Proof.
  intros H. induction l as [|x l IH]; cbn [existsb]; [reflexivity|].
  rewrite (H x) by (left; reflexivity). f_equal. apply IH.
  intros y Hy. apply H. right. exact Hy.
Qed.

Lemma bad_pointer_repaired (v : Z) : bad_pointer (repaired_pointer v) = false.
Proof.
  unfold repaired_pointer. destruct (bad_pointer v) eqn:E; [reflexivity|exact E].
Qed.

Lemma modified_indirect_writes_succ (k : Z) (s : fsck) :
  0 <= k ->
  modified_indirect_writes (k + 1) s =
  modified_indirect_writes k s
  ++ (if inode_in_use (inodes s k)
         && negb (indirect_of_upto k s (indirect_block (inodes s k)))
      then indirect_block_write (fs_image s) (inodes s k) else []).
Proof.
  intros Hk. unfold modified_indirect_writes.
  replace (Z.to_nat (k + 1)) with (S (Z.to_nat k)) by lia.
  rewrite zrange_snoc, flat_map_app, Z2Nat.id, Z.add_0_l by lia.
  cbn [flat_map]. rewrite app_nil_r. reflexivity.
Qed.

(** The write made for slot [k] when the blocks of the in-use inodes below
    [k] have been repaired in the image [img]. *)
Lemma indirect_block_write_during (s : fsck) (img : file) (ino : inode_t) (k : Z) :
  indirect_block ino = indirect_block (inodes s k) ->
  (forall blk j, 8 <= blk < 64 -> 0 <= j < 1024 ->
     block_entry img blk j =
     if indirect_of_upto k s blk
     then repaired_pointer (block_entry (fs_image s) blk j)
     else block_entry (fs_image s) blk j) ->
  indirect_block_write img ino =
  if negb (indirect_of_upto k s (indirect_block (inodes s k)))
  then indirect_block_write (fs_image s) (inodes s k) else [].
Proof.
  intros Hind Hent. unfold indirect_block_write. cbv zeta. rewrite Hind.
  set (ind := indirect_block (inodes s k)).
  destruct (Z.leb_spec 8 ind) as [H8|H8]; cbn [andb];
    [|destruct (negb _); reflexivity].
  destruct (Z.ltb_spec ind 64) as [H64|H64]; cbn [andb];
    [|destruct (negb _); reflexivity].
  unfold has_bad_entry.
  destruct (indirect_of_upto k s ind) eqn:Eup; cbn [negb].
  - rewrite existsb_none; [reflexivity|].
    intros j Hj. apply in_zrange in Hj.
    rewrite Hent, Eup by lia. apply bad_pointer_repaired.
  - rewrite (existsb_pointwise_in _
               (fun j => bad_pointer (block_entry (fs_image s) ind j)));
      [reflexivity|].
    intros j Hj. apply in_zrange in Hj. rewrite Hent, Eup by lia. reflexivity.
Qed.

Lemma fix_bad_blocks_spec (s : fsck) :
  data_block_start (superblock s) = 8 ->
  262144 <= file_len (fs_image s) ->
  exists tbl img w e,
    fix_bad_blocks s =
    Some (tt, with_errors_fixed e (with_inodes tbl (with_image img w s)))
    /\ errors_fixed s <= e
    /\ file_len (fs_image s) <= file_len img
    /\ (exists ws, w = fwrites s ++ ws /\ Forall indirect_write ws)
    /\ (forall i, nlink (tbl i) = nlink (inodes s i)
                  /\ dtime (tbl i) = dtime (inodes s i))
    /\ (forall i j, direct_blocks (tbl i) j =
                    if repaired_upto 80 s i && ((0 <=? j) && (j <? 12))
                    then repaired_pointer (direct_blocks (inodes s i) j)
                    else direct_blocks (inodes s i) j)
    /\ (forall i, indirect_block (tbl i) =
                  if repaired_upto 80 s i
                  then repaired_pointer (indirect_block (inodes s i))
                  else indirect_block (inodes s i))
    /\ (data_bytes_ok (fs_image s) ->
        data_bytes_ok img
        /\ (forall blk j, 8 <= blk < 64 -> 0 <= j < 1024 ->
              block_entry img blk j =
              if indirect_of_upto 80 s blk
              then repaired_pointer (block_entry (fs_image s) blk j)
              else block_entry (fs_image s) blk j)
        /\ w = fwrites s ++ modified_indirect_writes 80 s).
Proof.
  intros Hds Hlen. unfold fix_bad_blocks.
  loop_total (fun k (_ : unit) t =>
    exists tbl img w e,
      t = with_errors_fixed e (with_inodes tbl (with_image img w s))
      /\ errors_fixed s <= e
      /\ file_len (fs_image s) <= file_len img
      /\ (exists ws, w = fwrites s ++ ws /\ Forall indirect_write ws)
      /\ (forall i, nlink (tbl i) = nlink (inodes s i)
                    /\ dtime (tbl i) = dtime (inodes s i))
      /\ (forall i j, direct_blocks (tbl i) j =
                      if repaired_upto k s i && ((0 <=? j) && (j <? 12))
                      then repaired_pointer (direct_blocks (inodes s i) j)
                      else direct_blocks (inodes s i) j)
      /\ (forall i, indirect_block (tbl i) =
                    if repaired_upto k s i
                    then repaired_pointer (indirect_block (inodes s i))
                    else indirect_block (inodes s i))
      /\ (data_bytes_ok (fs_image s) ->
          data_bytes_ok img
          /\ (forall blk j, 8 <= blk < 64 -> 0 <= j < 1024 ->
                block_entry img blk j =
                if indirect_of_upto k s blk
                then repaired_pointer (block_entry (fs_image s) blk j)
                else block_entry (fs_image s) blk j)
          /\ w = fwrites s ++ modified_indirect_writes k s))
    u t E H.
  - unfold INODE_COUNT. lia.
  - exists (inodes s), (fs_image s), (fwrites s), (errors_fixed s).
    split; [apply fsck_eta|]. split; [lia|]. split; [lia|].
    split; [exists []; rewrite app_nil_r; auto|].
    assert (Hr : forall i, repaired_upto 0 s i = false).
    { intros i. unfold repaired_upto.
      destruct (Z.leb_spec 0 i), (Z.ltb_spec i 0); try reflexivity. lia. }
    split; [auto|]. split; [intros; rewrite Hr; reflexivity|].
    split; [intros; rewrite Hr; reflexivity|].
    intros Hok. split; [exact Hok|].
    split; [intros blk j _ _; reflexivity|].
    unfold modified_indirect_writes. cbn [Z.to_nat zrange flat_map].
    rewrite app_nil_r. reflexivity.
  - intros k [] t Hk (tbl & img & w & e & -> & He & Hl & (ws & -> & Hws)
                      & Hm & Hd & Hi & Himg).
    rewrite (bind_eq get _ _ _ _ eq_refl).
    set (t := with_errors_fixed e (with_inodes tbl (with_image img (fwrites s ++ ws) s))).
    assert (Hv : is_valid_inode t k = inode_in_use (inodes s k)).
    { unfold is_valid_inode, inode_in_use. cbn [t with_errors_fixed with_inodes inodes].
      destruct (Hm k) as [-> ->]. reflexivity. }
    assert (Hup : forall i, i <> k -> repaired_upto (k + 1) s i = repaired_upto k s i).
    { intros i Hik. unfold repaired_upto.
      destruct (Z.ltb_spec i k), (Z.ltb_spec i (k + 1)); try reflexivity; lia. }
    assert (Hk0 : repaired_upto k s k = false).
    { unfold repaired_upto. destruct (Z.ltb_spec k k); [lia|].
      rewrite andb_false_r. reflexivity. }
    assert (Hk1 : repaired_upto (k + 1) s k = inode_in_use (inodes s k)).
    { unfold repaired_upto.
      destruct (Z.leb_spec 0 k), (Z.ltb_spec k (k + 1)); try lia. reflexivity. }
    rewrite Hv. destruct (inode_in_use (inodes s k)) eqn:Euse.
    + destruct (fix_direct_blocks_spec t k Hds)
        as (tbl1 & e1 & E1 & He1 & Ho1 & Hn1 & Hdt1 & Hi1 & Hj1).
      rewrite (bind_eq _ _ _ _ _ E1).
      set (t1 := with_errors_fixed e1 (with_inodes tbl1 t)).
      destruct (fix_indirect_block_spec t1 k Hds)
        as (tbl2 & img2 & w2 & e2 & E2 & He2 & Hl2 & (ws2 & -> & Hws2 & Hex2)
            & Ho2 & Hn2 & Hdt2 & Hj2 & Hi2 & Himg2).
      { cbn. lia. }
      exists tt, (with_errors_fixed e2 (with_inodes tbl2
                   (with_image img2 (fwrites t1 ++ ws2) s))).
      split; [exact E2|].
      exists tbl2, img2, (fwrites t1 ++ ws2), e2.
      split; [reflexivity|].
      cbn [t1 t with_errors_fixed with_inodes with_image errors_fixed
              fs_image fwrites inodes] in *.
      split; [lia|]. split; [lia|]. split.
      { exists (ws ++ ws2). rewrite app_assoc. split; [reflexivity|].
        apply Forall_app. auto. }
      split; [|split; [|split]].
      * intros i. destruct (Z.eq_dec i k) as [->|Hik].
        -- rewrite Hn2, Hdt2, Hn1, Hdt1. apply Hm.
        -- rewrite (Ho2 i Hik), (Ho1 i Hik). apply Hm.
      * intros i j. destruct (Z.eq_dec i k) as [->|Hik].
        -- rewrite Hj2, Hj1, Hk1, Hd, Hk0. cbn [andb]. reflexivity.
        -- rewrite (Ho2 i Hik), (Ho1 i Hik), (Hup i Hik). apply Hd.
      * intros i. destruct (Z.eq_dec i k) as [->|Hik].
        -- rewrite Hi2, Hi1, Hk1, Hi, Hk0. reflexivity.
        -- rewrite (Ho2 i Hik), (Ho1 i Hik), (Hup i Hik). apply Hi.
      * intros Hok. destruct (Himg Hok) as (Hok1 & Hent1 & Htr1).
        destruct (Himg2 Hok1) as [Hok2 Hent2]. split; [exact Hok2|]. split.
        -- intros blk j Hblk Hj.
           rewrite (Hent2 blk j Hblk Hj), (Hent1 blk j Hblk Hj).
           rewrite indirect_of_upto_succ, Euse, Hi1, Hi, Hk0 by lia.
           cbn [andb].
           destruct (indirect_block (inodes s k) =? blk),
                    (indirect_of_upto k s blk); cbn [orb];
             rewrite ?repaired_pointer_idem; reflexivity.
        -- apply app_inv_head in Htr1.
           rewrite modified_indirect_writes_succ, Euse by lia. cbn [andb].
           rewrite Hex2, Htr1, <- app_assoc. f_equal. f_equal.
           apply indirect_block_write_during; [|exact Hent1].
           rewrite Hi1, Hi, Hk0. reflexivity.
    + exists tt, t. split; [reflexivity|].
      exists tbl, img, (fwrites s ++ ws), e.
      split; [reflexivity|]. split; [exact He|]. split; [exact Hl|].
      split; [exists ws; auto|]. split; [exact Hm|]. split; [|split].
      * intros i j. destruct (Z.eq_dec i k) as [->|Hik].
        -- rewrite Hk1, Hd, Hk0. reflexivity.
        -- rewrite (Hup i Hik). apply Hd.
      * intros i. destruct (Z.eq_dec i k) as [->|Hik].
        -- rewrite Hk1, Hi, Hk0. reflexivity.
        -- rewrite (Hup i Hik). apply Hi.
      * intros Hok. destruct (Himg Hok) as (Hok1 & Hent1 & Htr1).
        split; [exact Hok1|]. split.
        -- intros blk j Hblk Hj. rewrite (Hent1 blk j Hblk Hj).
           rewrite indirect_of_upto_succ, Euse by lia. cbn [andb].
           rewrite orb_false_r. reflexivity.
        -- rewrite modified_indirect_writes_succ, Euse by lia. cbn [andb].
           rewrite app_nil_r. exact Htr1.
  - destruct H as (tbl & img & w & e & -> & H). destruct u.
    exists tbl, img, w, e. split; [exact E|]. exact H.
Qed.

(** ** Persisting *)

Lemma write_superblock_eq (t : fsck) :
  write_superblock t =
  Some (tt, with_image (file_write (fs_image t) 0 4096
                                   (encode_superblock (superblock t)))
                       (fwrites t ++ [(0, 4096)]) t).
Proof. reflexivity. Qed.

Lemma write_bitmaps_eq (t : fsck) :
  inode_bitmap_block (superblock t) = 1 ->
  data_bitmap_block (superblock t) = 2 ->
  262144 <= file_len (fs_image t) ->
  exists img,
    write_bitmaps t =
    Some (tt, with_image img (fwrites t ++ [(4096, 4096); (8192, 4096)]) t)
    /\ file_len (fs_image t) <= file_len img
    /\ (forall blk j, 8 <= blk < 64 -> 0 <= j < 1024 ->
          block_entry img blk j = block_entry (fs_image t) blk j).
Proof.
  intros H1 H2 Hlen. unfold write_bitmaps, fwrite.
  rewrite (bind_eq get _ _ _ _ eq_refl). rewrite H1, H2.
  unfold modify, bind, BLOCK_SIZE.
  eexists. split; [|split].
  - cbn [with_image fs_image fwrites inode_bitmap data_bitmap superblock
         block_referenced block_referenced_by errors_found errors_fixed
         console inodes].
    rewrite <- app_assoc. reflexivity.
  - unfold file_write. cbn [file_len fs_image with_image]. lia.
  - intros blk j Hblk Hj. cbn [fs_image with_image].
    rewrite !u32_small by lia.
    rewrite block_entry_write_other; try lia.
    + apply block_entry_write_other; lia.
    + unfold file_write. cbn [file_len]. lia.
Qed.

Lemma write_inodes_spec (t : fsck) :
  inode_table_start (superblock t) = 3 ->
  262144 <= file_len (fs_image t) ->
  exists img,
    write_inodes t =
    Some (tt, with_image img
                (fwrites t ++ map (fun i => (12288 + 256 * i, 256)) (zrange 0 80)) t)
    /\ file_len (fs_image t) <= file_len img
    /\ (forall blk j, 8 <= blk < 64 -> 0 <= j < 1024 ->
          block_entry img blk j = block_entry (fs_image t) blk j).
Proof.
  intros Hits Hlen. unfold write_inodes.
  loop_total (fun k (_ : unit) t' =>
    exists img,
      t' = with_image img
             (fwrites t ++ map (fun i => (12288 + 256 * i, 256))
                               (zrange 0 (Z.to_nat k))) t
      /\ file_len (fs_image t) <= file_len img
      /\ (forall blk j, 8 <= blk < 64 -> 0 <= j < 1024 ->
            block_entry img blk j = block_entry (fs_image t) blk j))
    u t' E H.
  - unfold INODE_COUNT. lia.
  - exists (fs_image t). cbn [Z.to_nat zrange map]. rewrite app_nil_r.
    split; [apply fsck_eta|]. split; [lia | reflexivity].
  - unfold INODE_COUNT. intros k [] t' Hk (img & -> & Hl & Hent).
    rewrite (bind_eq get _ _ _ _ eq_refl).
    change (superblock (with_image img _ t)) with (superblock t).
    rewrite Hits. unfold fwrite, modify, BLOCK_SIZE, INODE_SIZE.
    rewrite u32_small by lia.
    eexists tt, _. split; [reflexivity|].
    eexists. split; [|split].
    + replace (Z.to_nat (k + 1)) with (S (Z.to_nat k)) by lia.
      rewrite zrange_snoc, map_app, app_assoc, Z2Nat.id, Z.add_0_l by lia.
      cbn [map with_image fwrites].
      replace (3 * 4096 + k * 256) with (12288 + 256 * k) by lia.
      reflexivity.
    + unfold file_write. cbn [file_len fs_image with_image]. lia.
    + intros blk j Hblk Hj. cbn [fs_image with_image].
      rewrite block_entry_write_other by lia. apply Hent; assumption.
  - destruct H as (img & -> & Hl & Hent). destruct u. exists img.
    split; [exact E|]. split; [exact Hl | exact Hent].
Qed.

(** ** The repair engine as a whole *)

(** On an image of at least 64 blocks [fix_errors] has a result.  The
    superblock holds the supported geometry; output, error count and block
    reference tracking are as before; inode bitmap bits 0..79 agree with
    inode validity; data bitmap bits of blocks 8..63 agree with
    [block_referenced] as the last validation left it; the block pointers of
    in-use inodes that are non-zero and outside 8..63 are zero, and so are
    such entries of their (in-range) single-indirect blocks, while every
    other entry of the data region is as it was; the writes are those of
    the modified indirect blocks ([modified_indirect_writes] when the data
    region is made of bytes) followed by [persist_trace]. *)
Lemma fix_errors_spec (s : fsck) :
  262144 <= file_len (fs_image s) ->
  exists ibm dbm tbl img ws e,
    fix_errors s =
    Some (true,
          mkFsck img (repaired_superblock (superblock s)) ibm dbm tbl
                 (block_referenced s) (block_referenced_by s)
                 (errors_found s) e (console s)
                 (fwrites s ++ ws ++ persist_trace))
    /\ errors_fixed s + sb_mismatches (superblock s) <= e
    /\ file_len (fs_image s) <= file_len img
    /\ Forall indirect_write ws
    /\ (forall i, 0 <= i < 80 -> bitmap_bit ibm i = inode_in_use (inodes s i))
    /\ (forall i, 80 <= i -> bitmap_bit ibm i = bitmap_bit (inode_bitmap s) i)
    /\ (forall b, 8 <= b < 64 -> bitmap_bit dbm (b - 8) = block_referenced s b)
    /\ (forall n, 56 <= n -> bitmap_bit dbm n = bitmap_bit (data_bitmap s) n)
    /\ (forall i, nlink (tbl i) = nlink (inodes s i)
                  /\ dtime (tbl i) = dtime (inodes s i))
    /\ (forall i j, direct_blocks (tbl i) j =
                    if repaired_upto 80 s i && ((0 <=? j) && (j <? 12))
                    then repaired_pointer (direct_blocks (inodes s i) j)
                    else direct_blocks (inodes s i) j)
    /\ (forall i, indirect_block (tbl i) =
                  if repaired_upto 80 s i
                  then repaired_pointer (indirect_block (inodes s i))
                  else indirect_block (inodes s i))
    /\ (data_bytes_ok (fs_image s) ->
        forall blk j, 8 <= blk < 64 -> 0 <= j < 1024 ->
          block_entry img blk j =
          if indirect_of_upto 80 s blk
          then repaired_pointer (block_entry (fs_image s) blk j)
          else block_entry (fs_image s) blk j)
    /\ (data_bytes_ok (fs_image s) -> ws = modified_indirect_writes 80 s).
Proof.
  intros Hlen. unfold fix_errors.
  rewrite (bind_eq _ _ _ _ _ (fix_superblock_eq s)).
  set (s1 := with_errors_fixed _ (with_superblock _ s)).
  destruct (fix_inode_bitmap_spec s1) as (ibm & e2 & E2 & He2 & Hib1 & Hib2).
  rewrite (bind_eq _ _ _ _ _ E2).
  set (s2 := with_errors_fixed e2 (with_inode_bitmap ibm s1)).
  destruct (fix_data_bitmap_spec s2 eq_refl) as (dbm & e3 & E3 & He3 & Hdb1 & Hdb2).
  rewrite (bind_eq _ _ _ _ _ E3).
  set (s3 := with_errors_fixed e3 (with_data_bitmap dbm s2)).
  destruct (fix_bad_blocks_spec s3 eq_refl Hlen)
    as (tbl & img4 & w4 & e4 & E4 & He4 & Hl4 & (ws & -> & Hws) & Hm & Hd & Hi
        & Himg).
  rewrite (bind_eq _ _ _ _ _ E4).
  set (s4 := with_errors_fixed e4 (with_inodes tbl (with_image img4 _ s3))).
  rewrite (bind_eq _ _ _ _ _ (write_superblock_eq s4)).
  set (s5 := with_image _ _ s4).
  assert (Hl5 : file_len img4 <= file_len (fs_image s5)).
  { unfold file_write. cbn. lia. }
  assert (Hlen4 : 262144 <= file_len img4) by (cbn in Hl4; lia).
  destruct (write_bitmaps_eq s5 eq_refl eq_refl) as (img6 & E6 & Hl6 & Hent6).
  { lia. }
  rewrite (bind_eq _ _ _ _ _ E6).
  set (s6 := with_image img6 _ s5).
  destruct (write_inodes_spec s6 eq_refl) as (img7 & E7 & Hl7 & Hent7).
  { cbn [s6 fs_image with_image]. lia. }
  rewrite (bind_eq _ _ _ _ _ E7).
  exists ibm, dbm, tbl, img7, ws, e4.
  split.
  - unfold ret. do 2 f_equal.
    cbn [s6 s5 s4 s3 s2 s1 with_image with_errors_fixed with_inodes
         with_data_bitmap with_inode_bitmap with_superblock
         fs_image superblock inode_bitmap data_bitmap inodes block_referenced
         block_referenced_by errors_found errors_fixed console fwrites].
    unfold persist_trace. rewrite <- !app_assoc. reflexivity.
  - cbn [s6 s5 s4 s3 s2 s1 with_image with_errors_fixed with_inodes
         with_data_bitmap with_inode_bitmap with_superblock
         fs_image superblock inode_bitmap data_bitmap inodes block_referenced
         block_referenced_by errors_found errors_fixed console fwrites] in *.
    split; [lia|]. split; [lia|]. split; [exact Hws|].
    split; [exact Hib1|]. split; [exact Hib2|]. split; [exact Hdb1|].
    split; [exact Hdb2|]. split; [exact Hm|]. split; [exact Hd|].
    split; [exact Hi|]. split.
    + intros Hok blk j Hblk Hj. destruct (Himg Hok) as (_ & Hent4 & _).
      rewrite (Hent7 blk j Hblk Hj), (Hent6 blk j Hblk Hj).
      rewrite block_entry_write_other by lia.
      apply Hent4; assumption.
    + intros Hok. destruct (Himg Hok) as (_ & _ & Htr4).
      apply app_inv_head in Htr4. exact Htr4.
Qed.

(** ** Order of writes *)

(** C5 as stated fails: on [image_bad_entry] the first write of the run is
    that of the repaired indirect block 10 (offset 40960), before the
    superblock, so the writes are not the metadata followed by the indirect
    blocks. *)
Lemma write_order_counterexample :
  exists w,
    option_map (fun r => fwrites (snd r)) (main 2 (Some image_bad_entry)) = Some w
    /\ w = (40960, 4096) :: persist_trace
    /\ ~ claimed_write_order w.
Proof.
  eexists. split; [vm_compute; reflexivity|]. split; [reflexivity|].
  intros (ind_writes & E & _). discriminate E.
Qed.

Lemma indirect_block_write_cases (img : file) (ino : inode_t) (w : Z * Z) :
  In w (indirect_block_write img ino) <->
  w = (indirect_block ino * 4096, 4096)
  /\ 8 <= indirect_block ino < 64
  /\ has_bad_entry img (indirect_block ino) = true.
Proof.
  unfold indirect_block_write. cbv zeta.
  destruct (Z.leb_spec 8 (indirect_block ino)),
           (Z.ltb_spec (indirect_block ino) 64); cbn [andb];
    try (split; [intros [] | intros (_ & Hr & _); lia]).
  destruct (has_bad_entry img (indirect_block ino)).
  - split.
    + intros [<-|[]]. split; [reflexivity|]. split; [lia|reflexivity].
    + intros (-> & _). left. reflexivity.
  - split; [intros [] | intros (_ & _ & Hb); discriminate Hb].
Qed.

Lemma in_modified_indirect_writes (k : Z) (s : fsck) (w : Z * Z) :
  In w (modified_indirect_writes k s) <->
  exists i, 0 <= i < k
    /\ inode_in_use (inodes s i) = true
    /\ indirect_of_upto i s (indirect_block (inodes s i)) = false
    /\ w = (indirect_block (inodes s i) * 4096, 4096)
    /\ 8 <= indirect_block (inodes s i) < 64
    /\ has_bad_entry (fs_image s) (indirect_block (inodes s i)) = true.
Proof.
  unfold modified_indirect_writes. rewrite in_flat_map. split.
  - intros (i & Hi & H). apply in_zrange in Hi. exists i.
    destruct (inode_in_use (inodes s i)); [|contradiction].
    destruct (indirect_of_upto i s (indirect_block (inodes s i)));
      [contradiction|].
    cbn [andb negb] in H. apply indirect_block_write_cases in H.
    split; [lia|]. split; [reflexivity|]. split; [reflexivity|]. exact H.
  - intros (i & Hi & Hu & Hup & H). exists i.
    split; [apply in_zrange; lia|]. rewrite Hu, Hup. cbn [andb negb].
    apply indirect_block_write_cases. exact H.
Qed.

(** A block that is the single-indirect block of an in-use inode below slot
    [n] has a first such inode. *)
Lemma first_owner (s : fsck) (blk : Z) (n : nat) :
  indirect_of_upto (Z.of_nat n) s blk = true ->
  exists i, 0 <= i < Z.of_nat n
    /\ inode_in_use (inodes s i) = true
    /\ indirect_block (inodes s i) = blk
    /\ indirect_of_upto i s blk = false.
Proof.
  induction n as [|n IH]; intros H; [discriminate H|].
  rewrite Nat2Z.inj_succ in H |- *. unfold Z.succ in H |- *.
  rewrite indirect_of_upto_succ in H by lia.
  destruct (indirect_of_upto (Z.of_nat n) s blk) eqn:Eup.
  - destruct (IH eq_refl) as (i & Hi & H'). exists i. split; [lia|exact H'].
  - cbn [orb] in H. apply andb_prop in H. destruct H as [Hu He].
    apply Z.eqb_eq in He. exists (Z.of_nat n).
    split; [lia|]. split; [exact Hu|]. split; [exact He|exact Eup].
Qed.

Lemma owner_below (s : fsck) (i k : Z) :
  0 <= i < k -> inode_in_use (inodes s i) = true ->
  indirect_of_upto k s (indirect_block (inodes s i)) = true.
Proof.
  intros Hi Hu. unfold indirect_of_upto. apply existsb_exists. exists i.
  split; [apply in_zrange; lia|]. rewrite Hu, Z.eqb_refl. reflexivity.
Qed.

Lemma modified_indirect_writes_NoDup (s : fsck) (n : nat) :
  NoDup (modified_indirect_writes (Z.of_nat n) s).
Proof.
  induction n as [|n IH]; [constructor|].
  rewrite Nat2Z.inj_succ. unfold Z.succ.
  rewrite modified_indirect_writes_succ by lia.
  destruct (inode_in_use (inodes s (Z.of_nat n))
            && negb (indirect_of_upto (Z.of_nat n) s
                       (indirect_block (inodes s (Z.of_nat n))))) eqn:Ec;
    [|rewrite app_nil_r; exact IH].
  apply andb_prop in Ec. destruct Ec as [_ Eup].
  apply negb_true_iff in Eup.
  unfold indirect_block_write. cbv zeta.
  destruct ((8 <=? _) && (_ <? 64) && has_bad_entry _ _);
    [|rewrite app_nil_r; exact IH].
  apply NoDup_app; [exact IH | repeat constructor; intros [] |].
  intros w Hw [<-|[]].
  apply in_modified_indirect_writes in Hw.
  destruct Hw as (i & Hi & Hu & _ & Hw & _).
  injection Hw as Hw.
  assert (Hsame : indirect_block (inodes s (Z.of_nat n))
                  = indirect_block (inodes s i)) by lia.
  rewrite Hsame in Eup.
  rewrite (owner_below s i (Z.of_nat n) Hi Hu) in Eup. discriminate Eup.
Qed.

(** C5, amended.  On an image of at least 64 blocks (of bytes) the repair
    engine writes, in this order: the single-indirect blocks it modifies,
    then the superblock (offset 0), the inode bitmap (4096), the data bitmap
    (8192) and the 80 inode records (12288 + 256 i).  The blocks it
    modifies, written as a whole and once each, are exactly the blocks of
    8..63 that are the single-indirect block of some in-use inode 0..79 and
    hold an entry to zero (non-zero and outside 8..63); they are written in
    the slot order of the first in-use inode that names them, each at the
    moment that inode is repaired. *)
Theorem fix_errors_write_order : forall s : fsck,
  262144 <= file_len (fs_image s) ->
  data_bytes_ok (fs_image s) ->
  exists s',
    fix_errors s = Some (true, s')
    /\ fwrites s' = fwrites s ++ modified_indirect_writes 80 s ++ persist_trace
    /\ NoDup (modified_indirect_writes 80 s)
    /\ (forall w, In w (modified_indirect_writes 80 s) <->
          exists blk, w = (blk * 4096, 4096) /\ 8 <= blk < 64
            /\ (exists i, 0 <= i < 80 /\ is_valid_inode s i = true
                          /\ indirect_block (inodes s i) = blk)
            /\ (exists j, 0 <= j < 1024
                          /\ bad_pointer (block_entry (fs_image s) blk j) = true)).
Proof.
  intros s Hlen Hok.
  destruct (fix_errors_spec s Hlen)
    as (ibm & dbm & tbl & img & ws & e & E & _ & _ & _ & _ & _ & _ & _ & _
        & _ & _ & _ & Htr).
  rewrite (Htr Hok) in E.
  eexists. split; [exact E|]. split; [reflexivity|].
  split; [exact (modified_indirect_writes_NoDup s 80)|].
  intros w. rewrite in_modified_indirect_writes. split.
  - intros (i & Hi & Hu & _ & -> & Hr & Hb).
    exists (indirect_block (inodes s i)).
    split; [reflexivity|]. split; [exact Hr|]. split.
    + exists i. rewrite is_valid_inode_in_use. auto.
    + unfold has_bad_entry in Hb. apply existsb_exists in Hb.
      destruct Hb as (j & Hj & Hb). apply in_zrange in Hj.
      exists j. split; [lia|exact Hb].
  - intros (blk & -> & Hr & (i & Hi & Hu & Hind) & (j & Hj & Hb)).
    rewrite is_valid_inode_in_use in Hu.
    pose proof (owner_below s i 80 Hi Hu) as Hup. rewrite Hind in Hup.
    destruct (first_owner s blk 80 Hup) as (i0 & Hi0 & Hu0 & Hind0 & Hup0).
    exists i0. rewrite Hind0.
    split; [lia|]. split; [exact Hu0|]. split; [exact Hup0|].
    split; [reflexivity|]. split; [exact Hr|].
    unfold has_bad_entry. apply existsb_exists. exists j.
    split; [apply in_zrange; lia|exact Hb].
Qed.

Lemma fix_errors_write_order_witness :
  exists s',
    fix_errors state_bad_entry = Some (true, s')
    /\ fwrites s' = (40960, 4096) :: persist_trace.
Proof.
  destruct (fix_errors_write_order state_bad_entry) as (s' & E & Hw & _).
  - cbn. lia.
  - intros k Hk. cbn [state_bad_entry fs_image image_bad_entry mk_image file_byte].
    destruct (Z.ltb_spec k 4096), (Z.ltb_spec k 8192), (Z.ltb_spec k 12288),
             (Z.ltb_spec k 32768); try lia.
    destruct (k =? 40960); lia.
  - exists s'. split; [exact E|]. rewrite Hw.
    replace (modified_indirect_writes 80 state_bad_entry)
      with [(40960, 4096)] by (vm_compute; reflexivity).
    reflexivity.
Defined.

(** ** Inode count 0: accepted by the validator, rewritten by the repair *)

Lemma no_inode_count_finding (sb : superblock_t) :
  inode_count sb = 0 ->
  forall v c, ~ In (ErrSuperblock F_inode_count v c) (superblock_findings sb).
Proof.
  intros H0 v c Hin. unfold superblock_findings in Hin.
  apply in_map_iff in Hin. destruct Hin as (f & Ef & Hf).
  apply filter_In in Hf. destruct Hf as [_ Hf].
  inversion Ef; subst f. unfold sb_field_ok, sb_value in Hf.
  rewrite H0 in Hf. discriminate Hf.
Qed.

Lemma sb_mismatches_inode_count_zero (sb : superblock_t) :
  inode_count sb = 0 -> 1 <= sb_mismatches sb.
Proof.
  intros H0. unfold sb_mismatches, sb_fields.
  rewrite !length_filter_cons. cbn [filter length sb_value sb_constant].
  rewrite H0. cbn [Z.eqb negb Z.b2z Z.of_nat].
  repeat match goal with
         | |- context [Z.b2z ?b] =>
             let H := fresh in
             assert (H : 0 <= Z.b2z b) by (destruct b; cbn; lia);
             generalize dependent (Z.b2z b); intros
         end.
  lia.
Qed.

(** C10.  With an inode count of 0 in the superblock, [check_superblock]
    prints no inode-count finding (and counts none), while [fix_errors],
    whenever it runs, sets the field to 80 and counts it in [errors_fixed];
    so a run can report more errors fixed than found: on [image_count_zero]
    it prints "Total errors found: 1" and "Errors fixed: 2". *)
Theorem inode_count_zero_fixed_but_not_found : forall s : fsck,
  inode_count (superblock s) = 0 ->
  262144 <= file_len (fs_image s) ->
  (exists ok s1 l,
      check_superblock s = Some (ok, s1)
      /\ console s1 = console s ++ l
      /\ errors_found s1 = errors_found s + Z.of_nat (length l)
      /\ forall v c, ~ In (ErrSuperblock F_inode_count v c) l)
  /\ (exists s2,
         fix_errors s = Some (true, s2)
         /\ inode_count (superblock s2) = 80
         /\ errors_fixed s + 1 <= errors_fixed s2)
  /\ (exists out n_found n_fixed,
         option_map (fun r => console (snd r)) (main 2 (Some image_count_zero))
         = Some out
         /\ In (TotalErrorsFound n_found) out
         /\ In (ErrorsFixed n_fixed) out
         /\ n_found < n_fixed).
Proof.
  intros s H0 Hlen. split; [|split].
  - eexists _, _, (superblock_findings (superblock s)).
    split; [apply check_superblock_eq|].
    split; [reflexivity|]. split; [reflexivity|].
    apply no_inode_count_finding. exact H0.
  - destruct (fix_errors_spec s Hlen)
      as (ibm & dbm & tbl & img & ws & e & E & He & _).
    eexists. split; [exact E|]. split; [reflexivity|].
    cbn [errors_fixed].
    pose proof (sb_mismatches_inode_count_zero (superblock s) H0). lia.
  - eexists _, 1, 2. split; [vm_compute; reflexivity|].
    split; [|split]; [cbn; tauto | cbn; tauto | lia].
Qed.

Lemma inode_count_zero_witness :
  inode_count (superblock (with_superblock (set_inode_count 0 good_superblock)
                             (initial_state image_count_zero))) = 0
  /\ exists s2,
       fix_errors (with_superblock (set_inode_count 0 good_superblock)
                     (initial_state image_count_zero)) = Some (true, s2)
       /\ inode_count (superblock s2) = 80.
Proof.
  split; [reflexivity|].
  destruct (inode_count_zero_fixed_but_not_found
              (with_superblock (set_inode_count 0 good_superblock)
                 (initial_state image_count_zero)))
    as (_ & (s2 & E & H80 & _) & _).
  - reflexivity.
  - cbn. lia.
  - exists s2. split; [exact E | exact H80].
Defined.

(** ** Exit code *)

Lemma checker_exit_code (s : fsck) (code : Z) (s' : fsck) :
  checker s = Some (code, s') -> code = 0.
Proof.
  unfold checker. intros H.
  repeat (apply bind_some in H; destruct H as (? & ? & _ & H)).
  inversion H. reflexivity.
Qed.

(** C9.  [main] returns 1, after the usage or the open-error message, when
    the argument count is not 2 (one positional argument) or the image cannot
    be opened, and a run that returns returns 1 in those two cases only and 0
    in every other.  A run on an empty file returns 0 (the reads are short
    and leave the zeroed globals).  But not every other run returns 0.  On
    [image_indirect_past_end] the data-bitmap validator reads the
    single-indirect block 64 past the end of the file into the local
    [indirect_entries], ignores that nothing was read and walks the
    uninitialised array; on [image_huge_pointer] it passes the pointer 2^31
    to [mark_block_referenced] as the [int] -2^31, which passes both range
    tests and indexes [block_referenced] below its start.  Neither run has
    an exit code that the source determines. *)
Theorem main_exit_code :
  (forall (argc : Z) (opened : option file),
      argc <> 2 \/ opened = None ->
      exists s, main argc opened = Some (1, s)
                /\ (console s = [Usage] \/ console s = [OpenError]))
  /\ (forall (argc : Z) (opened : option file) (code : Z) (s : fsck),
        main argc opened = Some (code, s) ->
        (code = 1 <-> (argc <> 2 \/ opened = None))
        /\ (code = 0 <-> (argc = 2 /\ opened <> None)))
  /\ option_map fst (main 2 (Some no_file)) = Some 0
  /\ option_map (fun r => (fst r, last (console (snd r)) NoErrors))
                (main 2 (Some image_shared_block)) = Some (0, SomeRemain)
  /\ main 2 (Some image_indirect_past_end) = None
  /\ main 2 (Some image_huge_pointer) = None.
Proof.
  split; [|split; [|split; [|split; [|split]]]].
  - intros argc opened. unfold main.
    destruct (Z.eqb_spec argc 2) as [E2|E2]; cbn [negb].
    + destruct opened as [img|].
      * intros [H|H]; [contradiction | discriminate].
      * intros _. eexists. split; [reflexivity|]. right. reflexivity.
    + intros _. eexists. split; [reflexivity|]. left. reflexivity.
  - intros argc opened. unfold main.
    destruct (Z.eqb_spec argc 2) as [E2|E2]; cbn [negb].
    + destruct opened as [img|].
      * intros code s H. apply checker_exit_code in H. subst code.
        split; split; try lia; try discriminate.
        -- intros [H|H]; [contradiction | discriminate].
        -- intros _. split; [exact E2 | discriminate].
      * intros code s H. inversion H; subst. split; split; auto; try lia.
        intros [_ Hn]. contradiction.
    + intros code s H. inversion H; subst. split; split; auto; try lia.
  - vm_compute. reflexivity.
  - vm_compute. reflexivity.
  - vm_compute. reflexivity.
  - vm_compute. reflexivity.
Qed.

(** ** Loops that only report findings *)

Lemma is_nil_app {A : Type} (l1 l2 : list A) :
  is_nil (l1 ++ l2) = is_nil l1 && is_nil l2.
Proof. destruct l1; reflexivity. Qed.

(** A loop whose iteration [k] prints the findings [F k] (and clears the
    flag when there is one) prints [F lo ++ ... ++ F (hi - 1)]. *)
Lemma findings_loop (F : Z -> list message) (body : Z -> bool -> M bool)
      (lo hi : Z) (flag : bool) (t : fsck) :
  lo <= hi ->
  (forall k fl l, lo <= k < hi ->
     body k fl (add_findings l t) =
     Some (fl && is_nil (F k), add_findings (l ++ F k) t)) ->
  let all := flat_map F (zrange lo (Z.to_nat (hi - lo))) in
  for_range lo hi body flag t = Some (flag && is_nil all, add_findings all t).
Proof.
  intros Hle Hbody all.
  destruct (for_range_total
    (fun k fl t' =>
       let l := flat_map F (zrange lo (Z.to_nat (k - lo))) in
       fl = flag && is_nil l /\ t' = add_findings l t)
    body lo hi flag t Hle) as (fl & t' & E & Hfl & Ht).
  - rewrite Z.sub_diag. cbn. rewrite andb_true_r, add_findings_nil. auto.
  - intros k fl t' Hk [Hfl ->].
    eexists _, _. split; [apply Hbody; exact Hk|]. cbv zeta.
    replace (Z.to_nat (k + 1 - lo)) with (S (Z.to_nat (k - lo))) by lia.
    rewrite zrange_snoc, flat_map_app. cbn [flat_map].
    rewrite app_nil_r, Z2Nat.id by lia.
    replace (lo + (k - lo)) with k by lia.
    split; [|reflexivity].
    rewrite is_nil_app, Hfl, andb_assoc. reflexivity.
  - rewrite E. subst fl t'. reflexivity.
Qed.

(** ** Bad-block validator *)

Lemma bad_block_number_out_of_range (t : fsck) (b : Z) :
  bad_block_number t b = out_of_range (superblock t) b.
Proof.
  unfold bad_block_number, outside_data_region, out_of_range, TOTAL_BLOCKS.
  destruct (Z.ltb_spec b (data_block_start (superblock t))),
           (Z.leb_spec (data_block_start (superblock t)) b),
           (Z.geb_spec b 64), (Z.ltb_spec b 64); try lia; reflexivity.
Qed.

Lemma is_nil_if_singleton {A : Type} (c : bool) (x : A) :
  is_nil (if c then [x] else []) = negb c.
Proof. destruct c; reflexivity. Qed.

Lemma check_direct_blocks_eq (i : Z) (flag : bool) (t : fsck) :
  check_direct_blocks i flag t =
  Some (flag && is_nil (direct_findings t i),
        add_findings (direct_findings t i) t).
Proof.
  unfold check_direct_blocks, direct_findings.
  apply (findings_loop
           (fun j => let b := direct_blocks (inodes t i) j in
                     if out_of_range (superblock t) b
                     then [ErrBadDirect i j b] else [])); [lia|].
  intros k fl l Hk. rewrite (bind_eq get _ _ _ _ eq_refl). cbv zeta.
  rewrite report_eq, add_findings_app, bad_block_number_out_of_range.
  change (inodes (add_findings l t)) with (inodes t).
  change (superblock (add_findings l t)) with (superblock t).
  rewrite is_nil_if_singleton. reflexivity.
Qed.

Lemma out_of_range_false (sb : superblock_t) (b : Z) :
  b <> 0 -> out_of_range sb b = false -> data_block_start sb <= b < 64.
Proof.
  unfold out_of_range. intros Hb H.
  destruct (Z.eqb_spec b 0); [contradiction|].
  destruct (Z.leb_spec (data_block_start sb) b), (Z.ltb_spec b 64);
    cbn in H; try discriminate; lia.
Qed.

Lemma check_indirect_block_eq (i : Z) (flag : bool) (t : fsck) :
  0 <= data_block_start (superblock t) ->
  262144 <= file_len (fs_image t) ->
  check_indirect_block i flag t =
  Some (flag && is_nil (indirect_findings t i),
        add_findings (indirect_findings t i) t).
Proof.
  intros Hds Hlen. unfold check_indirect_block, indirect_findings.
  rewrite (bind_eq get _ _ _ _ eq_refl). cbv zeta.
  set (ind := indirect_block (inodes t i)).
  destruct (Z.eqb_spec ind 0) as [E0|E0]; cbn [negb].
  { unfold ret. rewrite add_findings_nil, andb_true_r. reflexivity. }
  assert (Ho : outside_data_region t ind = out_of_range (superblock t) ind).
  { rewrite <- bad_block_number_out_of_range. unfold bad_block_number.
    destruct (Z.eqb_spec ind 0); [contradiction|]. reflexivity. }
  rewrite Ho. destruct (out_of_range (superblock t) ind) eqn:Er.
  { rewrite found_eq, andb_false_r. reflexivity. }
  pose proof (out_of_range_false _ _ E0 Er) as Hin.
  assert (Hoff : u32 (ind * 4096) + 4096 <= file_len (fs_image t))
    by (rewrite u32_small; lia).
  rewrite (bind_eq _ _ _ _ _ (read_indirect_eq t ind Hoff)).
  apply (findings_loop
           (fun j => let b := block_entry (fs_image t) ind j in
                     if out_of_range (superblock t) b
                     then [ErrBadIndirectEntry i j b] else []));
    [unfold BLOCK_SIZE; cbn; lia|].
  intros k fl l Hk. rewrite (bind_eq get _ _ _ _ eq_refl). cbv zeta.
  rewrite report_eq, add_findings_app, bad_block_number_out_of_range.
  change (superblock (add_findings l t)) with (superblock t).
  rewrite decode_entries_block_entry, is_nil_if_singleton. reflexivity.
Qed.

(** On an image of at least 64 blocks [check_bad_blocks] prints
    [bad_block_findings]. *)
Lemma check_bad_blocks_eq (s : fsck) :
  0 <= data_block_start (superblock s) ->
  262144 <= file_len (fs_image s) ->
  check_bad_blocks s =
  Some (is_nil (bad_block_findings s), add_findings (bad_block_findings s) s).
Proof.
  intros Hds Hlen. unfold check_bad_blocks, bad_block_findings.
  apply (findings_loop
           (fun i => if inode_in_use (inodes s i)
                     then direct_findings s i ++ indirect_findings s i
                     else [])); [unfold INODE_COUNT; lia|].
  intros k fl l Hk. rewrite (bind_eq get _ _ _ _ eq_refl).
  rewrite is_valid_inode_in_use.
  change (inodes (add_findings l s)) with (inodes s).
  destruct (inode_in_use (inodes s k)).
  - rewrite (bind_eq _ _ _ _ _ (check_direct_blocks_eq k fl (add_findings l s))).
    rewrite check_indirect_block_eq by assumption.
    rewrite !add_findings_app, is_nil_app, andb_assoc, app_assoc. reflexivity.
  - unfold ret. rewrite app_nil_r, andb_true_r. reflexivity.
Qed.

(** ** A pointer one past the last block *)

Lemma is_nil_false_of_in {A : Type} (x : A) (l : list A) :
  In x l -> is_nil l = false.
Proof. destruct l; [contradiction | reflexivity]. Qed.

Lemma in_direct_findings (s : fsck) (i : Z) (m : message) :
  In m (direct_findings s i) ->
  exists j, 0 <= j < 12
            /\ out_of_range (superblock s) (direct_blocks (inodes s i) j) = true
            /\ m = ErrBadDirect i j (direct_blocks (inodes s i) j).
Proof.
  unfold direct_findings. intros H. apply in_flat_map in H.
  destruct H as (j & Hj & H). apply in_zrange in Hj. cbv zeta in H.
  destruct (out_of_range _ _) eqn:E; [|contradiction].
  destruct H as [<-|[]]. exists j. repeat split; auto; lia.
Qed.

Lemma not_direct_in_indirect_findings (s : fsck) (i i' j v : Z) :
  ~ In (ErrBadDirect i' j v) (indirect_findings s i).
Proof.
  unfold indirect_findings. cbv zeta.
  destruct (_ =? 0); [auto|].
  destruct (out_of_range _ _).
  - intros [H|[]]. discriminate H.
  - intros H. apply in_flat_map in H. destruct H as (k & _ & H).
    cbv zeta in H. destruct (out_of_range _ _); [|contradiction].
    destruct H as [H|[]]. discriminate H.
Qed.

(** C1 as stated fails in its last part: after the run on [image_past_end]
    the slot is zero and no inode refers to block 64, yet bit 56 of the data
    bitmap, set before, is still set, in memory and in the file (byte 7 of
    block 2). *)
Lemma past_end_bit_counterexample :
  bitmap_bit (file_byte image_past_end) (8 * 8192 + 56) = true
  /\ option_map (fun r => (direct_blocks (inodes (snd r) 0) 0,
                           bitmap_bit (data_bitmap (snd r)) 56,
                           bitmap_bit (file_byte (fs_image (snd r))) (8 * 8192 + 56)))
                (main 2 (Some image_past_end))
     = Some (0, true, true).
Proof. split; vm_compute; reflexivity. Qed.

(** C1, amended.  An in-use inode (slot 0..79) whose first direct pointer is
    64 is flagged by [check_bad_blocks] (inode, slot 0, value 64);
    [fix_errors] zeroes that slot, and a re-check prints no finding for that
    (inode, slot 0).  The data bitmap bits from index 56 on (56 = 64 - 8 is
    the one block 64 would have) are left as they were: the repair only
    touches the bits of blocks 8..63. *)
Theorem past_end_pointer_flagged_and_zeroed : forall (s : fsck) (i : Z),
  0 <= i < 80 ->
  inode_in_use (inodes s i) = true ->
  direct_blocks (inodes s i) 0 = 64 ->
  0 <= data_block_start (superblock s) ->
  262144 <= file_len (fs_image s) ->
  (exists s1 l,
      check_bad_blocks s = Some (false, s1)
      /\ console s1 = console s ++ l
      /\ In (ErrBadDirect i 0 64) l)
  /\ (exists s2,
         fix_errors s = Some (true, s2)
         /\ direct_blocks (inodes s2 i) 0 = 0
         /\ (forall n, 56 <= n ->
               bitmap_bit (data_bitmap s2) n = bitmap_bit (data_bitmap s) n)
         /\ exists ok s3 l,
              check_bad_blocks s2 = Some (ok, s3)
              /\ console s3 = console s2 ++ l
              /\ forall v, ~ In (ErrBadDirect i 0 v) l).
Proof.
  intros s i Hi Huse Hd Hds Hlen. split.
  - assert (Hin : In (ErrBadDirect i 0 64) (bad_block_findings s)).
    { unfold bad_block_findings. apply in_flat_map. exists i. split.
      - apply in_zrange. lia.
      - rewrite Huse. apply in_or_app. left.
        unfold direct_findings. apply in_flat_map. exists 0. split.
        + apply in_zrange. lia.
        + cbv zeta. rewrite Hd. unfold out_of_range.
          destruct (data_block_start (superblock s) <=? 64); cbn; auto. }
    eexists _, (bad_block_findings s).
    rewrite check_bad_blocks_eq by assumption.
    rewrite (is_nil_false_of_in _ _ Hin). split; [reflexivity|].
    split; [reflexivity | exact Hin].
  - destruct (fix_errors_spec s Hlen)
      as (ibm & dbm & tbl & img & ws & e & E & _ & Hl & _ & _ & _ & _ & Hdb
          & Hm & Hdir & _).
    eexists. split; [exact E|]. cbn [inodes data_bitmap console].
    assert (Hz : direct_blocks (tbl i) 0 = 0).
    { rewrite Hdir. unfold repaired_upto. rewrite Huse, Hd.
      destruct (Z.leb_spec 0 i), (Z.ltb_spec i 80); try lia. reflexivity. }
    split; [exact Hz|]. split; [exact Hdb|].
    eexists _, _, _. split; [apply check_bad_blocks_eq|].
    + cbn. lia.
    + cbn [fs_image]. lia.
    + split; [reflexivity|].
      intros v Hin. unfold bad_block_findings in Hin.
      apply in_flat_map in Hin. destruct Hin as (i' & _ & Hin).
      cbn [inodes] in Hin. destruct (inode_in_use (tbl i')); [|contradiction].
      apply in_app_or in Hin. destruct Hin as [Hin|Hin].
      * apply in_direct_findings in Hin.
        destruct Hin as (j & _ & Ho & Em). cbn [inodes superblock] in Ho, Em.
        inversion Em; subst i' j. rewrite Hz in Ho. discriminate Ho.
      * exact (not_direct_in_indirect_findings _ _ _ _ _ Hin).
Qed.

Lemma past_end_pointer_witness :
  exists s2,
    fix_errors state_past_end = Some (true, s2)
    /\ direct_blocks (inodes s2 0) 0 = 0
    /\ bitmap_bit (data_bitmap s2) 56 = bitmap_bit (data_bitmap state_past_end) 56.
Proof.
  destruct (past_end_pointer_flagged_and_zeroed state_past_end 0)
    as (_ & s2 & E & Hz & Hb & _).
  - lia.
  - reflexivity.
  - reflexivity.
  - cbn. lia.
  - cbn. lia.
  - exists s2. split; [exact E|]. split; [exact Hz|]. apply Hb. lia.
Defined.

(** ** Duplicate validator: the locals record the walk *)

Lemma claimants_in_app (w1 w2 : list (Z * Z)) (b : Z) :
  claimants_in (w1 ++ w2) b = claimants_in w1 b ++ claimants_in w2 b.
Proof. unfold claimants_in. rewrite filter_app, map_app. reflexivity. Qed.

Lemma claimants_in_single (bn i b : Z) :
  claimants_in [(bn, i)] b = if bn =? b then [i] else [].
Proof. unfold claimants_in. cbn. destruct (bn =? b); reflexivity. Qed.

Lemma represents_nil : represents [] (fun _ _ => 0, fun _ => 0).
Proof. intros b. cbn. split; [reflexivity|]. intros n Hn. lia. Qed.

Lemma record_reference_represents (walk : list (Z * Z)) (bn i : Z)
      (loc loc' : dup_locals) (t t' : fsck) :
  represents walk loc ->
  record_reference bn i loc t = Some (loc', t') ->
  t' = t /\ represents (walk ++ [(bn, i)]) loc'.
Proof.
  intros Hr E. destruct loc as [refs counts]. unfold record_reference in E.
  destruct (counts bn <? INODE_COUNT); [|discriminate].
  inversion E; subst loc' t'. clear E. split; [reflexivity|].
  intros b. rewrite claimants_in_app, claimants_in_single.
  destruct (Hr b) as [Hc Hn]. cbn [fst snd] in *.
  destruct (Z.eqb_spec bn b) as [->|Hb].
  - rewrite !upd_same, length_app, Hc. cbn [length]. split; [lia|].
    intros n Hlt. unfold upd.
    destruct (Z.eqb_spec (Z.of_nat n) (Z.of_nat (length (claimants_in walk b))))
      as [En|En].
    + apply Nat2Z.inj in En. subst n. rewrite nth_middle. reflexivity.
    + rewrite app_nth1 by lia. apply Hn. lia.
  - rewrite !upd_other by congruence. rewrite app_nil_r. auto.
Qed.

(** One iteration of a loop that records the claimable ones among
    [value 0], [value 1], ... for inode [i]. *)
Lemma record_step_represents (value : Z -> Z) (i : Z)
      (body : Z -> dup_locals -> M dup_locals) (k : Z)
      (walk : list (Z * Z)) (l l' : dup_locals) (t t' : fsck) :
  0 <= k ->
  body k l t = (if countable (value k) then record_reference (value k) i l t
                else Some (l, t)) ->
  represents
    (walk ++ map (fun b => (b, i))
                 (filter claimable (map value (zrange 0 (Z.to_nat k))))) l ->
  body k l t = Some (l', t') ->
  t' = t
  /\ represents
       (walk ++ map (fun b => (b, i))
                    (filter claimable (map value (zrange 0 (Z.to_nat (k + 1)))))) l'.
Proof.
  intros Hk Hbody Hl Eb. rewrite Hbody in Eb.
  replace (Z.to_nat (k + 1)) with (S (Z.to_nat k)) by lia.
  rewrite zrange_snoc, map_app, filter_app, map_app, Z2Nat.id, Z.add_0_l by lia.
  cbn [map filter]. change (countable (value k)) with (claimable (value k)) in Eb.
  destruct (claimable (value k)).
  - destruct (record_reference_represents _ _ _ _ _ _ _ Hl Eb) as [-> Hr'].
    split; [reflexivity|]. cbn [map]. rewrite app_assoc. exact Hr'.
  - inversion Eb; subst. cbn [map]. rewrite app_nil_r. auto.
Qed.

(** A loop that records the claimable ones among [value 0 .. value (n-1)]
    for inode [i]. *)
Lemma record_loop_represents (value : Z -> Z) (i : Z) (body : Z -> dup_locals -> M dup_locals)
      (hi : Z) (walk : list (Z * Z)) (loc loc' : dup_locals) (t t' : fsck) :
  0 <= hi ->
  (forall k l,
     body k l t = if countable (value k) then record_reference (value k) i l t
                  else Some (l, t)) ->
  represents walk loc ->
  for_range 0 hi body loc t = Some (loc', t') ->
  t' = t
  /\ represents
       (walk ++ map (fun b => (b, i))
                    (filter claimable (map value (zrange 0 (Z.to_nat hi))))) loc'.
Proof.
  intros Hhi Hbody Hr E.
  apply (for_range_partial
    (fun k l t1 =>
       t1 = t
       /\ represents
            (walk ++ map (fun b => (b, i))
                         (filter claimable (map value (zrange 0 (Z.to_nat k))))) l)
    body 0 hi loc t loc' t' Hhi E).
  - split; [reflexivity|]. cbn. rewrite app_nil_r. exact Hr.
  - intros k l t1 l1 t2 Hk [-> Hl] Eb.
    exact (record_step_represents value i body k walk l l1 t t2
             ltac:(lia) (Hbody k l) Hl Eb).
Qed.

Lemma count_direct_blocks_represents (i : Z) (walk : list (Z * Z))
      (loc loc' : dup_locals) (t t' : fsck) :
  represents walk loc ->
  count_direct_blocks i loc t = Some (loc', t') ->
  t' = t
  /\ represents
       (walk ++ map (fun b => (b, i))
                    (filter claimable
                            (map (direct_blocks (inodes t i)) (zrange 0 12)))) loc'.
Proof.
  intros Hr E. unfold count_direct_blocks in E.
  refine (record_loop_represents (direct_blocks (inodes t i)) i _ 12 walk
                                 loc loc' t t' _ _ Hr E); [lia|].
  intros k l. rewrite (bind_eq get _ _ _ _ eq_refl). cbv zeta.
  destruct (countable _); reflexivity.
Qed.

Lemma count_indirect_blocks_represents (i : Z) (walk : list (Z * Z))
      (loc loc' : dup_locals) (t t' : fsck) :
  represents walk loc ->
  count_indirect_blocks i loc t = Some (loc', t') ->
  t' = t
  /\ represents
       (walk ++ map (fun b => (b, i))
                    (let ind := indirect_block (inodes t i) in
                     if claimable ind
                     then ind :: filter claimable
                                   (map (block_entry (fs_image t) ind)
                                        (zrange 0 1024))
                     else [])) loc'.
Proof.
  intros Hr E. unfold count_indirect_blocks in E.
  rewrite (bind_eq get _ _ _ _ eq_refl) in E. cbv zeta in E |- *.
  change (countable (indirect_block (inodes t i)))
    with (claimable (indirect_block (inodes t i))) in E.
  destruct (claimable (indirect_block (inodes t i))).
  - apply bind_some in E. destruct E as (loc1 & t1 & E1 & E).
    destruct (record_reference_represents _ _ _ _ _ _ _ Hr E1) as [-> Hr1].
    apply bind_some in E. destruct E as (entries & t2 & E2 & E).
    apply read_indirect_some in E2. destruct E2 as [-> Hent].
    unfold BLOCK_SIZE in E. change (4096 / 4) with 1024 in E.
    assert (H1024 : 0 <= 1024) by lia.
    pose proof (fun Hb => record_loop_represents entries i _ 1024 _ loc1 loc'
                            t t' H1024 Hb Hr1 E) as Hloop.
    destruct Hloop as [-> Hr2];
      [intros k l; destruct (countable (entries k)); reflexivity|].
    split; [reflexivity|].
    replace (Z.to_nat 1024) with 1024%nat in Hr2 by reflexivity.
    rewrite (map_ext _ _ Hent), <- app_assoc in Hr2.
    rewrite map_cons. exact Hr2.
  - inversion E; subst. cbn [map]. rewrite app_nil_r. auto.
Qed.

Lemma count_references_represents (s : fsck) (loc : dup_locals) (s' : fsck) :
  count_references s = Some (loc, s') ->
  s' = s /\ represents (claim_walk s) loc.
Proof.
  intros E. unfold count_references in E.
  apply (for_range_partial
    (fun k l t =>
       t = s
       /\ represents
            (flat_map (fun i => map (fun b => (b, i)) (inode_claims s i))
                      (zrange 0 (Z.to_nat k))) l)
    _ 0 INODE_COUNT _ s loc s' ltac:(unfold INODE_COUNT; lia) E).
  - split; [reflexivity | exact represents_nil].
  - intros k l t l' t' Hk [-> Hl] Eb.
    rewrite (bind_eq get _ _ _ _ eq_refl) in Eb.
    replace (Z.to_nat (k + 1)) with (S (Z.to_nat k)) by lia.
    rewrite zrange_snoc, flat_map_app, Z2Nat.id, Z.add_0_l by lia.
    cbn [flat_map]. rewrite app_nil_r. unfold inode_claims at 2.
    rewrite is_valid_inode_in_use in Eb.
    destruct (inode_in_use (inodes s k)).
    + apply bind_some in Eb. destruct Eb as (l1 & t1 & E1 & E2).
      destruct (count_direct_blocks_represents _ _ _ _ _ _ Hl E1) as [-> Hr1].
      destruct (count_indirect_blocks_represents _ _ _ _ _ _ Hr1 E2) as [-> Hr2].
      split; [reflexivity|]. rewrite map_app, app_assoc. exact Hr2.
    + inversion Eb; subst. cbn [map]. rewrite app_nil_r. auto.
Qed.

Lemma map_zrange_nth (f : Z -> Z) (l : list Z) :
  (forall n, (n < length l)%nat -> f (Z.of_nat n) = nth n l 0) ->
  map f (zrange 0 (length l)) = l.
Proof.
  induction l as [|x l IH] using rev_ind; intros H; [reflexivity|].
  rewrite length_app. cbn [length]. rewrite Nat.add_1_r.
  rewrite zrange_snoc, map_app, Z.add_0_l. cbn [map]. f_equal.
  - apply IH. intros n Hn. rewrite H by (rewrite length_app; cbn; lia).
    apply app_nth1. exact Hn.
  - rewrite H by (rewrite length_app; cbn; lia). rewrite nth_middle. reflexivity.
Qed.

Lemma for_range_undefined {A : Type} (body : Z -> A -> M A) (lo hi : Z)
      (a : A) (s : fsck) :
  lo < hi -> body lo a s = None -> for_range lo hi body a s = None.
Proof.
  intros Hlt Hb. unfold for_range.
  destruct (Z.to_nat (hi - lo)) as [|n] eqn:En; [lia|].
  cbn [for_loop]. unfold bind. rewrite Hb. reflexivity.
Qed.

(** With a data-region start that is not negative as an [int], the report
    loop has a result. *)
Lemma report_duplicates_eq (walk : list (Z * Z)) (loc : dup_locals) (s : fsck) :
  represents walk loc ->
  let lo := to_int (data_block_start (superblock s)) in
  let findings :=
    flat_map (fun b => if 1 <? Z.of_nat (length (claimants_in walk b))
                       then [ErrDuplicate b (claimants_in walk b)] else [])
             (zrange lo (Z.to_nat (64 - lo))) in
  0 <= lo ->
  report_duplicates loc s = Some (is_nil findings, add_findings findings s).
Proof.
  intros Hr lo findings Hpos. destruct loc as [refs counts].
  unfold report_duplicates. rewrite (bind_eq get _ _ _ _ eq_refl).
  fold lo. unfold TOTAL_BLOCKS.
  destruct (Z.le_gt_cases lo 64) as [Hle|Hgt].
  - rewrite (findings_loop
               (fun b => if 1 <? Z.of_nat (length (claimants_in walk b))
                         then [ErrDuplicate b (claimants_in walk b)] else [])
               _ lo 64 true s Hle); [reflexivity|].
    intros k fl l Hk. destruct (Z.leb_spec 0 k); [|lia].
    destruct (Hr k) as [Hc Hn]. cbn [fst snd] in Hc, Hn. rewrite Hc.
    destruct (1 <? Z.of_nat (length (claimants_in walk k))).
    + rewrite found_eq, add_findings_app, andb_false_r, Nat2Z.id.
      rewrite (map_zrange_nth _ _ Hn). reflexivity.
    + unfold ret. rewrite app_nil_r, andb_true_r. reflexivity.
  - rewrite for_range_empty by lia.
    unfold findings. replace (Z.to_nat (64 - lo)) with O by lia.
    cbn. rewrite add_findings_nil. reflexivity.
Qed.

Lemma report_duplicates_findings (walk : list (Z * Z)) (loc : dup_locals)
      (s : fsck) (r : bool) (s' : fsck) :
  represents walk loc ->
  report_duplicates loc s = Some (r, s') ->
  let lo := to_int (data_block_start (superblock s)) in
  let findings :=
    flat_map (fun b => if 1 <? Z.of_nat (length (claimants_in walk b))
                       then [ErrDuplicate b (claimants_in walk b)] else [])
             (zrange lo (Z.to_nat (64 - lo))) in
  r = is_nil findings /\ s' = add_findings findings s.
Proof.
  intros Hr E lo findings.
  destruct (Z.lt_ge_cases lo 0) as [Hneg|Hpos].
  - exfalso. destruct loc as [refs counts]. unfold report_duplicates in E.
    rewrite (bind_eq get _ _ _ _ eq_refl) in E. fold lo in E.
    unfold TOTAL_BLOCKS in E.
    rewrite for_range_undefined in E; [discriminate | lia |].
    destruct (Z.leb_spec 0 lo); [lia | reflexivity].
  - rewrite (report_duplicates_eq walk loc s Hr Hpos) in E.
    inversion E. split; reflexivity.
Qed.

(** Whenever [check_duplicate_blocks] has a result, it has printed
    [duplicate_findings] and nothing else has changed. *)
Lemma check_duplicate_blocks_some (s : fsck) (r : bool) (s' : fsck) :
  check_duplicate_blocks s = Some (r, s') ->
  r = is_nil (duplicate_findings s)
  /\ s' = add_findings (duplicate_findings s) s.
Proof.
  unfold check_duplicate_blocks. intros E.
  apply bind_some in E. destruct E as (loc & s1 & E1 & E2).
  apply count_references_represents in E1. destruct E1 as [-> Hr].
  exact (report_duplicates_findings _ _ _ _ _ Hr E2).
Qed.

(** ** Duplicate validator: when it has a result *)

Lemma zrange_app (lo : Z) (n m : nat) :
  zrange lo (n + m) = zrange lo n ++ zrange (lo + Z.of_nat n) m.
Proof.
  revert lo. induction n as [|n IH]; intros lo.
  - cbn. rewrite Z.add_0_r. reflexivity.
  - cbn [Nat.add zrange app]. rewrite IH. do 3 f_equal. lia.
Qed.

Lemma zrange_split (hi k : Z) :
  0 <= k < hi ->
  zrange 0 (Z.to_nat hi) =
  zrange 0 (Z.to_nat k) ++ k :: zrange (k + 1) (Z.to_nat (hi - k - 1)).
Proof.
  intros Hk.
  replace (Z.to_nat hi) with (Z.to_nat k + S (Z.to_nat (hi - k - 1)))%nat by lia.
  rewrite zrange_app. cbn [zrange]. rewrite Z2Nat.id, Z.add_0_l by lia.
  reflexivity.
Qed.

Lemma length_claimants_in_middle (w1 w2 : list (Z * Z)) (bn i : Z) :
  (length (claimants_in w1 bn) < length (claimants_in (w1 ++ (bn, i) :: w2) bn))%nat.
Proof.
  rewrite claimants_in_app, length_app.
  change ((bn, i) :: w2) with ([(bn, i)] ++ w2).
  rewrite claimants_in_app, length_app, claimants_in_single, Z.eqb_refl.
  cbn [length]. lia.
Qed.

(** The 81st claim of a block is the one that has no result. *)
Lemma record_reference_defined (walk rest : list (Z * Z)) (bn i : Z)
      (loc : dup_locals) (t : fsck) :
  represents walk loc ->
  (length (claimants_in (walk ++ (bn, i) :: rest) bn) <= 80)%nat ->
  exists loc', record_reference bn i loc t = Some (loc', t).
Proof.
  intros Hr Hb. destruct loc as [refs counts]. unfold record_reference.
  destruct (Hr bn) as [Hc _]. cbn [snd] in Hc.
  pose proof (length_claimants_in_middle walk rest bn i).
  unfold INODE_COUNT. destruct (Z.ltb_spec (counts bn) 80); [|lia].
  eexists. reflexivity.
Qed.

Lemma record_loop_defined (value : Z -> Z) (i : Z)
      (body : Z -> dup_locals -> M dup_locals)
      (hi : Z) (walk tail : list (Z * Z)) (loc : dup_locals) (t : fsck) :
  0 <= hi ->
  (forall k l,
     body k l t = if countable (value k) then record_reference (value k) i l t
                  else Some (l, t)) ->
  represents walk loc ->
  (forall b,
     (length (claimants_in
                (walk ++ map (fun b => (b, i))
                             (filter claimable (map value (zrange 0 (Z.to_nat hi))))
                      ++ tail) b) <= 80)%nat) ->
  exists loc', for_range 0 hi body loc t = Some (loc', t).
Proof.
  intros Hhi Hbody Hr Hb.
  destruct (for_range_total
    (fun k l t1 =>
       t1 = t
       /\ represents
            (walk ++ map (fun b => (b, i))
                         (filter claimable (map value (zrange 0 (Z.to_nat k))))) l)
    body 0 hi loc t Hhi) as (loc' & t' & E & -> & _).
  - split; [reflexivity|]. cbn. rewrite app_nil_r. exact Hr.
  - intros k l t1 Hk [-> Hl].
    assert (Hdef : exists l', body k l t = Some (l', t)).
    { rewrite Hbody. change (countable (value k)) with (claimable (value k)).
      destruct (claimable (value k)) eqn:Ec; [|eexists; reflexivity].
      apply (record_reference_defined _
               (map (fun b => (b, i))
                    (filter claimable
                            (map value (zrange (k + 1) (Z.to_nat (hi - k - 1)))))
                ++ tail) _ _ _ _ Hl).
      specialize (Hb (value k)).
      rewrite (zrange_split hi k Hk), map_app, filter_app, map_app in Hb.
      cbn [map filter] in Hb. rewrite Ec in Hb. cbn [map] in Hb.
      rewrite <- !app_assoc in Hb. rewrite <- app_assoc.
      rewrite <- app_comm_cons in Hb. exact Hb. }
    destruct Hdef as (l' & El). exists l', t. split; [exact El|].
    exact (record_step_represents value i body k walk l l' t t
             ltac:(lia) (Hbody k l) Hl El).
  - exists loc'. exact E.
Qed.

Lemma count_direct_blocks_defined (i : Z) (walk tail : list (Z * Z))
      (loc : dup_locals) (t : fsck) :
  represents walk loc ->
  (forall b,
     (length (claimants_in
                (walk ++ map (fun b => (b, i))
                             (filter claimable
                                (map (direct_blocks (inodes t i)) (zrange 0 12)))
                      ++ tail) b) <= 80)%nat) ->
  exists loc', count_direct_blocks i loc t = Some (loc', t).
Proof.
  intros Hr Hb. unfold count_direct_blocks.
  refine (record_loop_defined (direct_blocks (inodes t i)) i _ 12 walk tail
                              loc t _ _ Hr Hb); [lia|].
  intros k l. rewrite (bind_eq get _ _ _ _ eq_refl). cbv zeta.
  destruct (countable _); reflexivity.
Qed.

Lemma claimable_range (b : Z) : claimable b = true -> b <> 0 /\ b < 64.
Proof.
  unfold claimable. intros Hc.
  destruct (Z.eqb_spec b 0), (Z.ltb_spec b 64); cbn in Hc; try discriminate; lia.
Qed.

Lemma count_indirect_blocks_defined (i : Z) (walk tail : list (Z * Z))
      (loc : dup_locals) (t : fsck) :
  represents walk loc ->
  0 <= indirect_block (inodes t i) ->
  262144 <= file_len (fs_image t) ->
  (forall b,
     (length (claimants_in
                (walk ++ map (fun b => (b, i))
                             (let ind := indirect_block (inodes t i) in
                              if claimable ind
                              then ind :: filter claimable
                                            (map (block_entry (fs_image t) ind)
                                                 (zrange 0 1024))
                              else [])
                      ++ tail) b) <= 80)%nat) ->
  exists loc', count_indirect_blocks i loc t = Some (loc', t).
Proof.
  intros Hr Hind Hlen Hb. unfold count_indirect_blocks.
  rewrite (bind_eq get _ _ _ _ eq_refl). cbv zeta in Hb |- *.
  set (ind := indirect_block (inodes t i)) in *.
  change (countable ind) with (claimable ind).
  destruct (claimable ind) eqn:Ec; [|eexists; reflexivity].
  apply claimable_range in Ec.
  rewrite map_cons in Hb.
  destruct (record_reference_defined walk
              (map (fun b => (b, i))
                   (filter claimable
                      (map (block_entry (fs_image t) ind) (zrange 0 1024))) ++ tail)
              ind i loc t Hr) as (loc1 & E1).
  { specialize (Hb ind). rewrite <- app_comm_cons in Hb. exact Hb. }
  rewrite (bind_eq _ _ _ _ _ E1).
  destruct (record_reference_represents _ _ _ _ _ _ _ Hr E1) as [_ Hr1].
  assert (Hoff : u32 (ind * 4096) + 4096 <= file_len (fs_image t))
    by (rewrite u32_small; lia).
  rewrite (bind_eq _ _ _ _ _ (read_indirect_eq t ind Hoff)).
  unfold BLOCK_SIZE. change (4096 / 4) with 1024.
  refine (record_loop_defined
            (decode_entries (fun k => file_byte (fs_image t) (u32 (ind * 4096) + k)))
            i _ 1024 _ tail loc1 t _ _ Hr1 _); [lia | |].
  - intros k l. destruct (countable _); reflexivity.
  - intros b. replace (Z.to_nat 1024) with 1024%nat by reflexivity.
    rewrite (map_ext _ _ (decode_entries_block_entry (fs_image t) ind)).
    rewrite <- app_assoc. specialize (Hb b).
    rewrite <- app_comm_cons in Hb. exact Hb.
Qed.

Lemma count_references_defined (s : fsck) :
  262144 <= file_len (fs_image s) ->
  (forall i, 0 <= indirect_block (inodes s i)) ->
  (forall b, (length (claimants s b) <= 80)%nat) ->
  exists loc, count_references s = Some (loc, s).
Proof.
  intros Hlen Hind Hb. unfold count_references.
  loop_total (fun k (l : dup_locals) t =>
       t = s
       /\ represents
            (flat_map (fun i => map (fun b => (b, i)) (inode_claims s i))
                      (zrange 0 (Z.to_nat k))) l) loc t E H.
  - unfold INODE_COUNT. lia.
  - split; [reflexivity | exact represents_nil].
  - unfold INODE_COUNT. intros k l t Hk [-> Hl].
    rewrite (bind_eq get _ _ _ _ eq_refl).
    assert (Hw : claim_walk s =
                 flat_map (fun i => map (fun b => (b, i)) (inode_claims s i))
                          (zrange 0 (Z.to_nat k))
                 ++ map (fun b => (b, k)) (inode_claims s k)
                 ++ flat_map (fun i => map (fun b => (b, i)) (inode_claims s i))
                             (zrange (k + 1) (Z.to_nat (80 - k - 1)))).
    { unfold claim_walk. change 80%nat with (Z.to_nat 80).
      rewrite (zrange_split 80 k Hk), flat_map_app. reflexivity. }
    replace (Z.to_nat (k + 1)) with (S (Z.to_nat k)) by lia.
    rewrite zrange_snoc, flat_map_app, Z2Nat.id, Z.add_0_l by lia.
    cbn [flat_map]. rewrite app_nil_r.
    unfold claimants in Hb. rewrite Hw in Hb. clear Hw.
    unfold inode_claims at 2. unfold inode_claims at 2 in Hb.
    rewrite is_valid_inode_in_use.
    destruct (inode_in_use (inodes s k)).
    + rewrite map_app, <- app_assoc in Hb.
      destruct (count_direct_blocks_defined k _ _ l s Hl Hb) as (l1 & E1).
      rewrite (bind_eq _ _ _ _ _ E1).
      destruct (count_direct_blocks_represents _ _ _ _ _ _ Hl E1) as [_ Hr1].
      destruct (count_indirect_blocks_defined k _
                  (flat_map (fun i => map (fun b => (b, i)) (inode_claims s i))
                            (zrange (k + 1) (Z.to_nat (80 - k - 1))))
                  l1 s Hr1 (Hind k) Hlen) as (l2 & E2).
      { intros b. rewrite <- app_assoc. apply Hb. }
      exists l2, s. split; [exact E2|]. split; [reflexivity|].
      destruct (count_indirect_blocks_represents _ _ _ _ _ _ Hr1 E2) as [_ Hr2].
      rewrite map_app, app_assoc. exact Hr2.
    + exists l, s. split; [reflexivity|]. split; [reflexivity|].
      cbn [map]. rewrite app_nil_r. exact Hl.
  - destruct H as [-> _]. exists loc. exact E.
Qed.

(** On an image of at least 64 blocks, with unsigned pointers, a data-region
    start below 2^31 and no block claimed more than 80 times,
    [check_duplicate_blocks] prints [duplicate_findings]. *)
Lemma check_duplicate_blocks_eq (s : fsck) :
  262144 <= file_len (fs_image s) ->
  0 <= to_int (data_block_start (superblock s)) ->
  (forall i, 0 <= indirect_block (inodes s i)) ->
  (forall b, (length (claimants s b) <= 80)%nat) ->
  check_duplicate_blocks s =
  Some (is_nil (duplicate_findings s), add_findings (duplicate_findings s) s).
Proof.
  intros Hlen Hlo Hind Hb. unfold check_duplicate_blocks.
  destruct (count_references_defined s Hlen Hind Hb) as (loc & E).
  rewrite (bind_eq _ _ _ _ _ E).
  destruct (count_references_represents _ _ _ E) as [_ Hr].
  exact (report_duplicates_eq _ _ _ Hr Hlo).
Qed.

(** ** What the duplicate validator reports *)

Lemma in_duplicate_findings (s : fsck) (b : Z) (cl : list Z) :
  In (ErrDuplicate b cl) (duplicate_findings s) <->
  to_int (data_block_start (superblock s)) <= b < 64
  /\ cl = claimants s b
  /\ (1 < length cl)%nat.
Proof.
  unfold duplicate_findings. cbv zeta. rewrite in_flat_map. split.
  - intros (b' & Hb' & Hin). apply in_zrange in Hb'.
    destruct (Z.ltb_spec 1 (Z.of_nat (length (claimants s b')))); [|contradiction].
    destruct Hin as [Hin|[]]. inversion Hin; subst b' cl. split; [lia|].
    split; [reflexivity | lia].
  - intros (Hb & -> & Hl). exists b. split; [apply in_zrange; lia|].
    destruct (Z.ltb_spec 1 (Z.of_nat (length (claimants s b)))); [|lia].
    left. reflexivity.
Qed.

(** C4 as stated fails: in [state_twice] only inode 0 is in use, and its
    direct slots 0 and 1 both hold block 10; the validator reports block 10
    with claimants 0 and 0 (and counts an error), although no two inodes
    claim it.  The same shows in a complete run on [image_twice]. *)
Lemma single_inode_reported_counterexample :
  option_map (fun r => (fst r, console (snd r), errors_found (snd r)))
             (check_duplicate_blocks state_twice)
  = Some (false, [ErrDuplicate 10 [0; 0]], 1)
  /\ ~ claimed_by_two_inodes state_twice 10
  /\ option_map (fun r => firstn 2 (console (snd r))) (main 2 (Some image_twice))
     = Some [Checking; ErrDuplicate 10 [0; 0]].
Proof.
  split; [vm_compute; reflexivity|]. split; [|vm_compute; reflexivity].
  intros (i1 & i2 & Hne & H1 & H2).
  assert (Hw : claim_walk state_twice = [(10, 0); (10, 0)])
    by (vm_compute; reflexivity).
  rewrite Hw in H1, H2. cbn [In] in H1, H2.
  assert (E1 : i1 = 0) by (destruct H1 as [E|[E|[]]]; inversion E; reflexivity).
  assert (E2 : i2 = 0) by (destruct H2 as [E|[E|[]]]; inversion E; reflexivity).
  congruence.
Qed.

(** C4, amended.  The duplicate validator records one claim per non-zero
    block number below 64 it meets while walking each in-use inode's twelve
    direct pointers and, when the single-indirect pointer is itself non-zero
    and below 64, that pointer and the 1024 entries of the block it names.
    It reports exactly the blocks, from the superblock's data-region start up
    to 63, that have more than one claim (two claims by one inode count),
    each once, listing the claimant of every claim in walk order, and adds
    one to the error count per reported block.  (It has a result when the
    image has 64 blocks, the pointers are unsigned, the data-region start is
    below 2^31 and no block has more than 80 claims.) *)
Theorem check_duplicate_blocks_reports_claims : forall s : fsck,
  262144 <= file_len (fs_image s) ->
  0 <= to_int (data_block_start (superblock s)) ->
  (forall i, 0 <= indirect_block (inodes s i)) ->
  (forall b, (length (claimants s b) <= 80)%nat) ->
  check_duplicate_blocks s =
  Some (is_nil (duplicate_findings s), add_findings (duplicate_findings s) s)
  /\ forall b cl,
       In (ErrDuplicate b cl) (duplicate_findings s) <->
       to_int (data_block_start (superblock s)) <= b < 64
       /\ cl = claimants s b
       /\ (1 < length cl)%nat.
Proof.
  intros s Hlen Hlo Hind Hb. split.
  - apply check_duplicate_blocks_eq; assumption.
  - intros b cl. apply in_duplicate_findings.
Qed.

Lemma length_claimants_in (walk : list (Z * Z)) (b : Z) :
  (length (claimants_in walk b) <= length walk)%nat.
Proof.
  unfold claimants_in. rewrite length_map. apply filter_length_le.
Qed.

Lemma check_duplicate_blocks_witness :
  check_duplicate_blocks state_twice =
  Some (is_nil (duplicate_findings state_twice),
        add_findings (duplicate_findings state_twice) state_twice).
Proof.
  apply check_duplicate_blocks_reports_claims.
  - cbn. lia.
  - vm_compute. discriminate.
  - intros i. cbn [state_twice inodes]. unfold upd, no_inodes.
    destruct (i =? 0); cbn; lia.
  - intros b. unfold claimants.
    pose proof (length_claimants_in (claim_walk state_twice) b) as H.
    assert (Hw : length (claim_walk state_twice) = 2%nat)
      by (vm_compute; reflexivity).
    lia.
Defined.

(** ** A block owned by two inodes *)




(** *** Claims before and after repair *)





Lemma indirect_of_upto_member (s : fsck) (i : Z) :
  0 <= i < 80 -> inode_in_use (inodes s i) = true ->
  indirect_of_upto 80 s (indirect_block (inodes s i)) = true.
Proof.
  intros Hi Hu. unfold indirect_of_upto. apply existsb_exists. exists i.
  split; [apply in_zrange; lia|]. rewrite Hu, Z.eqb_refl. reflexivity.
Qed.








Lemma length_filter_le {A : Type} (f : A -> bool) (l : list A) :
  (length (filter f l) <= length l)%nat.
Proof.
  induction l as [|x l IH]; cbn [filter length]; [lia|].
  destruct (f x); cbn [length]; lia.
Qed.







(** ** The data bitmap repair uses the reference map of the last validation *)

(** C2 at its failing input.  On [image_stale_map] the first validation
    builds the reference map with the superblock's data-region start 9, so
    block 8 is not in it; [fix_errors] then sets the start to 8 and clears
    the bit of block 8 (bit 0), the bad-block repair leaves the pointer 8 of
    inode 0 alone (it is in range now), and the run ends with inode 0 in use,
    its first direct pointer 8, and the data bitmap bit of block 8 clear, in
    memory and in the file; the re-check reports just that. *)
Theorem stale_reference_map_run :
  option_map (fun r => (inode_in_use (inodes (snd r) 0),
                        direct_blocks (inodes (snd r) 0) 0,
                        bitmap_bit (data_bitmap (snd r)) (8 - 8),
                        bitmap_bit (file_byte (fs_image (snd r))) (8 * 8192),
                        console (snd r)))
             (main 2 (Some image_stale_map))
  = Some (true, 8, false, false,
          [Checking;
           ErrSuperblock F_data_block_start 9 8;
           ErrBlockMarkedNotReferenced 9;
           ErrBadDirect 0 0 8;
           Summary false false true false true false;
           TotalErrorsFound 3; Attempting; ErrorsFixed 2; Rechecking;
           ErrBlockReferencedNotMarked 8 0;
           Summary true true true false true true;
           OriginalErrors 3; RemainingErrors 1; SomeRemain]).
Proof. vm_compute. reflexivity. Qed.

(** C3 at its failing input.  A second run of the program on the image the
    first run on [image_stale_map] left behind finds one error and repairs
    it: it sets the data bitmap bit of block 8, which the first repair had
    cleared (byte 8192 of the file goes from 0 to 1). *)
Theorem second_repair_changes_image :
  match main 2 (Some image_stale_map) with
  | Some (_, s1) =>
      option_map (fun r => (file_byte (fs_image s1) 8192,
                            file_byte (fs_image (snd r)) 8192,
                            console (snd r)))
                 (main 2 (Some (fs_image s1)))
  | None => None
  end
  = Some (0, 1,
          [Checking;
           ErrBlockReferencedNotMarked 8 0;
           Summary false true true false true true;
           TotalErrorsFound 1; Attempting; ErrorsFixed 1; Rechecking;
           Summary true true true true true true;
           OriginalErrors 1; RemainingErrors 0; AllFixed]).
Proof. vm_compute. reflexivity. Qed.
(** * Further properties of the code *)

(** ** Bitmap primitives *)

(** X1.  [set_bit] and [clear_bit] change the one bit they are given and no
    other: after [set_bit(bitmap, i)], [get_bit] reads 1 at [i]; after
    [clear_bit(bitmap, i)] it reads 0 at [i]; at every other index [j] it reads
    what it read before (indices from 0 on, whatever the bytes hold). *)
Theorem bit_written_is_bit_read : forall (bitmap : Z -> Z) (i j : Z),
  0 <= i -> 0 <= j ->
  get_bit (set_bit bitmap i) j = (if j =? i then 1 else get_bit bitmap j)
  /\ get_bit (clear_bit bitmap i) j = (if j =? i then 0 else get_bit bitmap j).
Proof.
  intros bitmap i j Hi Hj.
  rewrite !get_bit_testbit by exact Hj.
  rewrite bitmap_bit_set_bit, bitmap_bit_clear_bit by assumption.
  destruct (j =? i); split; reflexivity.
Qed.

Lemma bit_written_is_bit_read_witness :
  get_bit (set_bit (fun _ => 0) 10) 10 = 1
  /\ get_bit (clear_bit (fun _ => 255) 10) 11 = 1.
Proof.
  split.
  - exact (proj1 (bit_written_is_bit_read (fun _ => 0) 10 10
                    ltac:(lia) ltac:(lia))).
  - exact (proj2 (bit_written_is_bit_read (fun _ => 255) 10 11
                    ltac:(lia) ltac:(lia))).
Defined.
(** ** The bad-block validator in general *)

Lemma out_of_range_true (sb : superblock_t) (b : Z) :
  out_of_range sb b = true <-> b <> 0 /\ (b < data_block_start sb \/ 64 <= b).
Proof.
  unfold out_of_range.
  destruct (Z.eqb_spec b 0), (Z.leb_spec (data_block_start sb) b),
           (Z.ltb_spec b 64); cbn; split; intros Hx;
    try discriminate; try reflexivity; lia.
Qed.

Lemma in_bad_block_findings (s : fsck) (m : message) :
  In m (bad_block_findings s) <->
  exists i, 0 <= i < 80 /\ inode_in_use (inodes s i) = true
    /\ let ind := indirect_block (inodes s i) in
       (exists j, 0 <= j < 12
           /\ out_of_range (superblock s) (direct_blocks (inodes s i) j) = true
           /\ m = ErrBadDirect i j (direct_blocks (inodes s i) j))
       \/ (ind <> 0 /\ out_of_range (superblock s) ind = true
           /\ m = ErrBadIndirect i ind)
       \/ (ind <> 0 /\ out_of_range (superblock s) ind = false
           /\ exists j, 0 <= j < 1024
                /\ out_of_range (superblock s)
                     (block_entry (fs_image s) ind j) = true
                /\ m = ErrBadIndirectEntry i j (block_entry (fs_image s) ind j)).
Proof.
  unfold bad_block_findings. rewrite in_flat_map. cbv zeta. split.
  - intros (i & Hi & H). apply in_zrange in Hi. exists i.
    destruct (inode_in_use (inodes s i)) eqn:Hu; [|contradiction].
    split; [lia|]. split; [reflexivity|].
    apply in_app_or in H. destruct H as [H|H].
    + left. unfold direct_findings in H. apply in_flat_map in H.
      destruct H as (j & Hj & H). apply in_zrange in Hj. cbv zeta in H.
      destruct (out_of_range _ _) eqn:E; [|contradiction].
      destruct H as [<-|[]]. exists j. split; [lia|]. split; [exact E|reflexivity].
    + right. unfold indirect_findings in H. cbv zeta in H.
      destruct (Z.eqb_spec (indirect_block (inodes s i)) 0) as [E0|E0];
        [contradiction|].
      destruct (out_of_range (superblock s) (indirect_block (inodes s i))) eqn:Eo.
      * destruct H as [<-|[]]. left. auto.
      * right. split; [exact E0|]. split; [reflexivity|].
        apply in_flat_map in H. destruct H as (j & Hj & H).
        apply in_zrange in Hj. cbv zeta in H.
        destruct (out_of_range _ (block_entry _ _ _)) eqn:E; [|contradiction].
        destruct H as [<-|[]]. exists j. split; [lia|]. split; [exact E|reflexivity].
  - intros (i & Hi & Hu & H). exists i. split; [apply in_zrange; lia|].
    rewrite Hu. apply in_or_app.
    destruct H as [(j & Hj & E & ->)|[(E0 & Eo & ->)|(E0 & Eo & j & Hj & E & ->)]].
    + left. unfold direct_findings. apply in_flat_map. exists j.
      split; [apply in_zrange; lia|]. cbv zeta. rewrite E. left. reflexivity.
    + right. unfold indirect_findings. cbv zeta.
      destruct (Z.eqb_spec (indirect_block (inodes s i)) 0); [contradiction|].
      rewrite Eo. left. reflexivity.
    + right. unfold indirect_findings. cbv zeta.
      destruct (Z.eqb_spec (indirect_block (inodes s i)) 0); [contradiction|].
      rewrite Eo. apply in_flat_map. exists j.
      split; [apply in_zrange; lia|]. cbv zeta. rewrite E. left. reflexivity.
Qed.

(** X2.  On an image of at least 64 blocks [check_bad_blocks] always has a
    result, and it reports exactly this, adding one to the error count per
    report: for every in-use inode 0..79, each direct slot 0..11 whose pointer
    is non-zero and below [data_block_start] or at least 64; its
    single-indirect pointer when that is non-zero and out of that range; and,
    only when the single-indirect pointer is non-zero and in range, each of
    the 1024 entries of the block it names that is non-zero and out of range.
    The result is [true] exactly when nothing is reported. *)
Theorem check_bad_blocks_reports_out_of_range : forall s : fsck,
  0 <= data_block_start (superblock s) ->
  262144 <= file_len (fs_image s) ->
  let lo := data_block_start (superblock s) in
  let findings := bad_block_findings s in
  check_bad_blocks s = Some (is_nil findings, add_findings findings s)
  /\ (forall i j v,
        In (ErrBadDirect i j v) findings <->
        0 <= i < 80 /\ is_valid_inode s i = true /\ 0 <= j < 12
        /\ v = direct_blocks (inodes s i) j
        /\ v <> 0 /\ (v < lo \/ 64 <= v))
  /\ (forall i v,
        In (ErrBadIndirect i v) findings <->
        0 <= i < 80 /\ is_valid_inode s i = true
        /\ v = indirect_block (inodes s i)
        /\ v <> 0 /\ (v < lo \/ 64 <= v))
  /\ (forall i j v,
        In (ErrBadIndirectEntry i j v) findings <->
        0 <= i < 80 /\ is_valid_inode s i = true
        /\ lo <= indirect_block (inodes s i) < 64
        /\ indirect_block (inodes s i) <> 0
        /\ 0 <= j < 1024
        /\ v = block_entry (fs_image s) (indirect_block (inodes s i)) j
        /\ v <> 0 /\ (v < lo \/ 64 <= v)).
Proof.
  intros s Hlo Hlen lo findings.
  split; [apply check_bad_blocks_eq; assumption|].
  subst findings lo.
  split; [|split].
  - intros i j v. rewrite in_bad_block_findings. cbv zeta. split.
    + intros (i0 & Hi & Hu & [(j0 & Hj & E & Em)|[(_ & _ & Em)|(_ & _ & j0 & _ & _ & Em)]]);
        try discriminate Em.
      injection Em as -> -> ->. apply out_of_range_true in E.
      rewrite is_valid_inode_in_use. tauto.
    + intros (Hi & Hu & Hj & -> & Hv). exists i.
      rewrite is_valid_inode_in_use in Hu.
      split; [exact Hi|]. split; [exact Hu|]. left. exists j.
      split; [exact Hj|]. split; [apply out_of_range_true; exact Hv|reflexivity].
  - intros i v. rewrite in_bad_block_findings. cbv zeta. split.
    + intros (i0 & Hi & Hu & [(j0 & Hj & E & Em)|[(E0 & E & Em)|(_ & _ & j0 & _ & _ & Em)]]);
        try discriminate Em.
      injection Em as -> ->. apply out_of_range_true in E.
      rewrite is_valid_inode_in_use. tauto.
    + intros (Hi & Hu & -> & Hv). exists i.
      rewrite is_valid_inode_in_use in Hu.
      split; [exact Hi|]. split; [exact Hu|]. right. left.
      split; [tauto|]. split; [apply out_of_range_true; exact Hv|reflexivity].
  - intros i j v. rewrite in_bad_block_findings. cbv zeta. split.
    + intros (i0 & Hi & Hu & [(j0 & Hj & E & Em)|[(E0 & E & Em)|(E0 & Eo & j0 & Hj & E & Em)]]);
        try discriminate Em.
      injection Em as -> -> ->. apply out_of_range_true in E.
      pose proof (out_of_range_false _ _ E0 Eo) as Hr.
      rewrite is_valid_inode_in_use. tauto.
    + intros (Hi & Hu & Hr & E0 & Hj & -> & Hv). exists i.
      rewrite is_valid_inode_in_use in Hu.
      split; [exact Hi|]. split; [exact Hu|]. right. right.
      split; [exact E0|]. split.
      * destruct (out_of_range (superblock s) (indirect_block (inodes s i))) eqn:Eo;
          [|reflexivity].
        apply out_of_range_true in Eo. lia.
      * exists j. split; [exact Hj|].
        split; [apply out_of_range_true; exact Hv|reflexivity].
Qed.

Lemma check_bad_blocks_reports_out_of_range_witness :
  check_bad_blocks state_past_end =
  Some (is_nil (bad_block_findings state_past_end),
        add_findings (bad_block_findings state_past_end) state_past_end)
  /\ In (ErrBadDirect 0 0 64) (bad_block_findings state_past_end).
Proof.
  destruct (check_bad_blocks_reports_out_of_range state_past_end)
    as (E & Hd & _); [cbn; lia | cbn; lia |].
  split; [exact E|]. apply Hd. cbn. repeat split; lia.
Defined.
(** ** What the validators find after a repair *)

Lemma flat_map_nil {A B : Type} (f : A -> list B) (l : list A) :
  (forall x, In x l -> f x = []) -> flat_map f l = [].
Proof.
  induction l as [|x l IH]; intros H; cbn; [reflexivity|].
  rewrite (H x) by (left; reflexivity). apply IH.
  intros y Hy. apply H. right. exact Hy.
Qed.

(** X3.  On an image of at least 64 blocks [fix_errors] has a result, and in
    the state it leaves [check_superblock] accepts all nine fields: it
    returns [true], prints nothing and counts nothing. *)
Theorem superblock_accepted_after_repair : forall s : fsck,
  262144 <= file_len (fs_image s) ->
  exists s', fix_errors s = Some (true, s')
             /\ check_superblock s' = Some (true, s').
Proof.
  intros s Hlen.
  destruct (fix_errors_spec s Hlen)
    as (ibm & dbm & tbl & img & ws & e & E & _).
  eexists. split; [exact E|].
  rewrite check_superblock_eq. cbn [superblock].
  change (superblock_findings (repaired_superblock (superblock s))) with (@nil message).
  rewrite add_findings_nil. reflexivity.
Qed.

Lemma superblock_accepted_after_repair_witness :
  exists s', fix_errors (initial_state image_count_zero) = Some (true, s')
             /\ check_superblock s' = Some (true, s').
Proof.
  apply superblock_accepted_after_repair. cbn. lia.
Defined.



(** X5.  In the state and image [fix_errors] leaves, [check_bad_blocks] finds
    nothing: every direct pointer and single-indirect pointer of an in-use
    inode, and every entry of an in-range single-indirect block, is 0 or a
    block of 8..63.  Pointers that were in range are kept. *)
Theorem no_bad_blocks_after_repair : forall s : fsck,
  262144 <= file_len (fs_image s) ->
  data_bytes_ok (fs_image s) ->
  exists s', fix_errors s = Some (true, s')
    /\ check_bad_blocks s' = Some (true, s')
    /\ (forall i j, 0 <= i < 80 -> 0 <= j < 12 ->
          8 <= direct_blocks (inodes s i) j < 64 ->
          direct_blocks (inodes s' i) j = direct_blocks (inodes s i) j)
    /\ (forall i, 0 <= i < 80 ->
          8 <= indirect_block (inodes s i) < 64 ->
          indirect_block (inodes s' i) = indirect_block (inodes s i)).
Proof.
  intros s Hlen Hbytes.
  destruct (fix_errors_spec s Hlen)
    as (ibm & dbm & tbl & img & ws & e & E & _ & Hlen' & _ & _ & _ & _ & _
        & Hnd & Hdir & Hind & Hent & _).
  specialize (Hent Hbytes).
  eexists. split; [exact E|].
  assert (Hu : forall i, inode_in_use (tbl i) = inode_in_use (inodes s i)).
  { intros i. unfold inode_in_use. destruct (Hnd i) as [-> ->]. reflexivity. }
  assert (Hoor : forall v, out_of_range (repaired_superblock (superblock s))
                             (repaired_pointer v) = false).
  { intros v. pose proof (bad_pointer_repaired v) as H.
    unfold bad_pointer in H. unfold out_of_range. cbn [data_block_start repaired_superblock].
    destruct (repaired_pointer v =? 0); [reflexivity|]. cbn [negb andb] in H |- *.
    destruct (Z.ltb_spec (repaired_pointer v) 8),
             (Z.geb_spec (repaired_pointer v) 64),
             (Z.leb_spec 8 (repaired_pointer v)),
             (Z.ltb_spec (repaired_pointer v) 64);
      cbn in H |- *; try discriminate; try reflexivity; lia. }
  split; [|split].
  - rewrite check_bad_blocks_eq; cbn [superblock fs_image repaired_superblock
                                       data_block_start]; try lia.
    unfold bad_block_findings. rewrite flat_map_nil.
    + rewrite add_findings_nil. reflexivity.
    + intros i Hi. apply in_zrange in Hi. cbn [inodes].
      rewrite Hu. destruct (inode_in_use (inodes s i)) eqn:Huse; [|reflexivity].
      assert (Hrep : repaired_upto 80 s i = true).
      { unfold repaired_upto. rewrite Huse.
        destruct (Z.leb_spec 0 i), (Z.ltb_spec i 80); first [lia | reflexivity]. }
      assert (Hd : direct_findings
                     (mkFsck img (repaired_superblock (superblock s)) ibm dbm tbl
                        (block_referenced s) (block_referenced_by s)
                        (errors_found s) e (console s)
                        (fwrites s ++ ws ++ persist_trace)) i = []).
      { unfold direct_findings. apply flat_map_nil. intros j Hj.
        apply in_zrange in Hj. cbv zeta. cbn [inodes superblock].
        rewrite Hdir, Hrep.
        destruct (Z.leb_spec 0 j), (Z.ltb_spec j 12); try lia.
        cbn [andb]. rewrite Hoor. reflexivity. }
      rewrite Hd. cbn [app].
      unfold indirect_findings. cbv zeta. cbn [inodes superblock fs_image].
      rewrite Hind, Hrep.
      destruct (Z.eqb_spec (repaired_pointer (indirect_block (inodes s i))) 0)
        as [E0|E0]; [reflexivity|].
      rewrite Hoor.
      assert (Hin : 8 <= indirect_block (inodes s i) < 64
                    /\ repaired_pointer (indirect_block (inodes s i))
                       = indirect_block (inodes s i)).
      { unfold repaired_pointer in *.
        destruct (bad_pointer (indirect_block (inodes s i))) eqn:Eb;
          [contradiction E0; reflexivity|].
        split; [|reflexivity]. unfold bad_pointer in Eb.
        destruct (Z.eqb_spec (indirect_block (inodes s i)) 0); [contradiction|].
        destruct (Z.ltb_spec (indirect_block (inodes s i)) 8),
                 (Z.geb_spec (indirect_block (inodes s i)) 64);
          cbn in Eb; try discriminate; lia. }
      destruct Hin as [Hr ->].
      apply flat_map_nil. intros j Hj. apply in_zrange in Hj. cbv zeta.
      rewrite Hent by lia.
      rewrite indirect_of_upto_member by (assumption || lia).
      rewrite Hoor. reflexivity.
  - intros i j Hi Hj Hr. cbn [inodes]. rewrite Hdir.
    destruct (repaired_upto 80 s i && ((0 <=? j) && (j <? 12))); [|reflexivity].
    apply repaired_pointer_in_range. exact Hr.
  - intros i Hi Hr. cbn [inodes]. rewrite Hind.
    destruct (repaired_upto 80 s i); [|reflexivity].
    apply repaired_pointer_in_range. exact Hr.
Qed.

Lemma no_bad_blocks_after_repair_witness :
  exists s', fix_errors state_past_end = Some (true, s')
    /\ check_bad_blocks s' = Some (true, s').
Proof.
  destruct (no_bad_blocks_after_repair state_past_end) as (s' & E & Hc & _).
  - cbn. lia.
  - intros k Hk. cbn [state_past_end fs_image image_past_end mk_image file_byte].
    destruct (Z.ltb_spec k 4096), (Z.ltb_spec k 8192), (Z.ltb_spec k 12288),
             (Z.ltb_spec k 32768); try lia.
    unfold no_data. lia.
  - exists s'. split; assumption.
Defined.
(** ** Frames *)

Section Frames.
Variable P : fsck -> fsck -> Prop.
Hypothesis P_refl : forall s, P s s.
Hypothesis P_trans : forall s t u, P s t -> P t u -> P s u.

Lemma preserves_ret {A : Type} (a : A) : preserves P (ret a).
Proof. intros s a' s' E. inversion E. apply P_refl. Qed.

Lemma preserves_get : preserves P get.
Proof. intros s a' s' E. inversion E. apply P_refl. Qed.

Lemma preserves_undefined {A : Type} : preserves P (@undefined A).
Proof. intros s a' s' E. discriminate E. Qed.

Lemma preserves_modify (f : fsck -> fsck) :
  (forall s, P s (f s)) -> preserves P (modify f).
Proof. intros H s a' s' E. inversion E. apply H. Qed.

Lemma preserves_bind {A B : Type} (m : M A) (f : A -> M B) :
  preserves P m -> (forall a, preserves P (f a)) -> preserves P (bind m f).
Proof.
  intros Hm Hf s b s' E. apply bind_some in E.
  destruct E as (a & s1 & E1 & E2).
  apply (P_trans _ s1); [exact (Hm _ _ _ E1) | exact (Hf _ _ _ _ E2)].
Qed.

Lemma preserves_for_loop {A : Type} (body : Z -> A -> M A) :
  (forall k a, preserves P (body k a)) ->
  forall n i a, preserves P (for_loop n i body a).
Proof.
  intros Hb. induction n as [|n IH]; intros i a; cbn [for_loop].
  - apply preserves_ret.
  - apply preserves_bind; [apply Hb|]. intros a'. apply IH.
Qed.

Lemma preserves_for_range {A : Type} (body : Z -> A -> M A) (lo hi : Z) (a : A) :
  (forall k a, preserves P (body k a)) -> preserves P (for_range lo hi body a).
Proof. intros Hb. apply preserves_for_loop. exact Hb. Qed.
End Frames.

(** [frame Hr Ht] proves [preserves P m] for a relation [P] that is reflexive
    by [Hr] and transitive by [Ht], following the structure of [m] down to
    [modify], where [P] is left to prove. *)
Ltac frame Hr Ht :=
  repeat match goal with
  | |- preserves _ (ret _) => apply (preserves_ret _ Hr)
  | |- preserves _ get => apply (preserves_get _ Hr)
  | |- preserves _ undefined => apply preserves_undefined
  | |- preserves _ (bind _ _) => apply (preserves_bind _ Ht); [|intros ?]
  | |- preserves _ (for_range _ _ _ _) =>
      apply (preserves_for_range _ Hr Ht); intros ? ?
  | |- preserves _ (modify _) => apply preserves_modify; intros ?
  | |- preserves _ (if ?c then _ else _) => destruct c
  | |- preserves _ (let '(_, _) := ?x in _) => destruct x
  | |- preserves _ (match ?x with Some _ => _ | None => _ end) => destruct x
  | |- preserves _ _ => progress cbv beta zeta
  end.

Lemma same_metadata_refl (s : fsck) : same_metadata s s.
Proof. repeat split. Qed.

Lemma same_metadata_trans (s t u : fsck) :
  same_metadata s t -> same_metadata t u -> same_metadata s u.
Proof.
  unfold same_metadata. intros H1 H2.
  destruct H1 as (?&?&?&?&?&?&?), H2 as (?&?&?&?&?&?&?).
  repeat split; congruence.
Qed.

Ltac read_only := frame same_metadata_refl same_metadata_trans;
                  repeat split.

Lemma check_superblock_read_only : preserves same_metadata check_superblock.
Proof. unfold check_superblock, report, found, printf, incr_errors_found. read_only. Qed.

Lemma check_inode_bitmap_consistency_read_only :
  preserves same_metadata check_inode_bitmap_consistency.
Proof.
  unfold check_inode_bitmap_consistency, found, printf, incr_errors_found.
  read_only.
Qed.

Lemma read_indirect_read_only (blk : Z) : preserves same_metadata (read_indirect blk).
Proof. unfold read_indirect, fread. read_only. Qed.

Lemma mark_block_referenced_read_only (b i : Z) :
  preserves same_metadata (mark_block_referenced b i).
Proof. unfold mark_block_referenced. read_only. Qed.

Lemma check_data_bitmap_consistency_read_only :
  preserves same_metadata check_data_bitmap_consistency.
Proof.
  unfold check_data_bitmap_consistency, reset_block_references,
    mark_referenced_blocks, mark_direct_blocks, mark_indirect_blocks,
    compare_data_bitmap, found, printf, incr_errors_found.
  frame same_metadata_refl same_metadata_trans;
    try apply mark_block_referenced_read_only;
    try apply read_indirect_read_only;
    repeat split.
Qed.

Lemma check_duplicate_blocks_read_only :
  preserves same_metadata check_duplicate_blocks.
Proof.
  intros s r s' E. apply check_duplicate_blocks_some in E.
  destruct E as [_ ->]. repeat split.
Qed.

Lemma check_bad_blocks_read_only : preserves same_metadata check_bad_blocks.
Proof.
  unfold check_bad_blocks, check_direct_blocks, check_indirect_block,
    report, found, printf, incr_errors_found.
  frame same_metadata_refl same_metadata_trans;
    try apply read_indirect_read_only;
    repeat split.
Qed.

Lemma run_validators_preserves (recheck : bool) :
  preserves same_metadata (run_validators recheck).
Proof.
  unfold run_validators, printf.
  frame same_metadata_refl same_metadata_trans;
    first [ apply check_superblock_read_only
          | apply check_inode_bitmap_consistency_read_only
          | apply check_data_bitmap_consistency_read_only
          | apply check_duplicate_blocks_read_only
          | apply check_bad_blocks_read_only
          | repeat split ].
Qed.

(** X6.  Validation is read-only.  Whenever the five validators have run
    to the summary, the image file, the loaded superblock, both bitmaps, the
    inode table and the repair counter are what they were, and no [fwrite]
    was made; only standard output, the error count and the block reference
    tracking arrays can differ. *)
Theorem run_validators_read_only : forall (recheck : bool) (s s' : fsck),
  run_validators recheck s = Some (tt, s') ->
  fs_image s' = fs_image s
  /\ fwrites s' = fwrites s
  /\ superblock s' = superblock s
  /\ inode_bitmap s' = inode_bitmap s
  /\ data_bitmap s' = data_bitmap s
  /\ inodes s' = inodes s
  /\ errors_fixed s' = errors_fixed s.
Proof.
  intros recheck s s' E. exact (run_validators_preserves recheck s tt s' E).
Qed.

Lemma run_validators_read_only_witness :
  exists s',
    run_validators false state_shared_block = Some (tt, s')
    /\ fs_image s' = fs_image state_shared_block
    /\ fwrites s' = fwrites state_shared_block
    /\ inodes s' = inodes state_shared_block.
Proof.
  destruct (run_validators false state_shared_block) as [[[] s']|] eqn:E.
  - exists s'. split; [reflexivity|].
    destruct (run_validators_read_only false state_shared_block s' E)
      as (H1 & H2 & _ & _ & _ & H6 & _).
    split; [exact H1|]. split; [exact H2|exact H6].
  - assert (H : option_map (fun _ => tt)
                  (run_validators false state_shared_block) = Some tt)
      by (vm_compute; reflexivity).
    rewrite E in H. discriminate H.
Defined.
(** ** The data-bitmap validator *)

Lemma reset_block_references_eq (s : fsck) :
  exists R RB,
    reset_block_references s = Some (tt, with_block_referenced R RB s)
    /\ forall b, 0 <= b < 64 -> R b = false /\ RB b = -1.
Proof.
  unfold reset_block_references.
  loop_total (fun k (_ : unit) t =>
    exists R RB, t = with_block_referenced R RB s
                 /\ forall b, 0 <= b < k -> R b = false /\ RB b = -1) u t E H.
  - unfold TOTAL_BLOCKS. lia.
  - exists (block_referenced s), (block_referenced_by s).
    split; [apply fsck_eta | intros b Hb; lia].
  - intros k [] t Hk (R & RB & -> & Hz).
    eexists tt, _. split; [reflexivity|].
    exists (upd R k false), (upd RB k (-1)). split; [reflexivity|].
    intros b Hb. unfold upd.
    destruct (Z.eqb_spec b k); [split; reflexivity | apply Hz; lia].
  - destruct H as (R & RB & -> & Hz). destruct u.
    exists R, RB. split; [exact E | exact Hz].
Qed.

Lemma marked_nil (lo : Z) (R : Z -> bool) (RB : Z -> Z) :
  (forall b, 0 <= b < 64 -> R b = false /\ RB b = -1) -> marked lo [] R RB.
Proof.
  intros H b Hb. destruct (H b Hb) as [-> ->]. cbn.
  rewrite andb_false_r. split; reflexivity.
Qed.

Lemma is_nil_snoc {A : Type} (l : list A) (x : A) : is_nil (l ++ [x]) = false.
Proof. destruct l; reflexivity. Qed.

Lemma hd_app_nonempty {A : Type} (d : A) (l l' : list A) :
  is_nil l = false -> hd d (l ++ l') = hd d l.
Proof. destruct l; [discriminate | reflexivity]. Qed.

(** One call of [mark_block_referenced] with a block number below 2^31. *)
Lemma mark_block_referenced_marked (s : fsck) (R : Z -> bool) (RB : Z -> Z)
      (walk : list (Z * Z)) (v i : Z) :
  0 <= v < 2 ^ 31 ->
  marked (data_block_start (superblock s)) walk R RB ->
  exists R' RB',
    mark_block_referenced (to_int v) i (with_block_referenced R RB s)
    = Some (tt, with_block_referenced R' RB' s)
    /\ marked (data_block_start (superblock s)) (walk ++ [(v, i)]) R' RB'.
Proof.
  intros Hv Hm. unfold mark_block_referenced.
  rewrite (bind_eq get _ _ _ _ eq_refl).
  rewrite to_int_small by exact Hv. rewrite u32_small by lia.
  change (superblock (with_block_referenced R RB s)) with (superblock s).
  change (block_referenced (with_block_referenced R RB s)) with R.
  set (lo := data_block_start (superblock s)) in *.
  assert (Hcl : forall b, claimants_in (walk ++ [(v, i)]) b
                          = claimants_in walk b ++ (if v =? b then [i] else [])).
  { intros b. rewrite claimants_in_app, claimants_in_single. reflexivity. }
  unfold TOTAL_BLOCKS.
  destruct (Z.ltb_spec v lo) as [Hlo|Hlo]; cbn [orb].
  { exists R, RB. split; [reflexivity|]. intros b Hb.
    destruct (Hm b Hb) as [HR HRB]. rewrite Hcl.
    destruct (Z.eqb_spec v b) as [->|Hne]; [|rewrite app_nil_r; auto].
    assert (HRf : R b = false).
    { rewrite HR. destruct (Z.leb_spec lo b); [lia | reflexivity]. }
    split.
    - rewrite HRf. destruct (Z.leb_spec lo b); [lia | reflexivity].
    - rewrite HRB, HRf. reflexivity. }
  destruct (Z.geb_spec v 64) as [H64|H64].
  { exists R, RB. split; [reflexivity|]. intros b Hb.
    destruct (Hm b Hb) as [HR HRB]. rewrite Hcl.
    destruct (Z.eqb_spec v b) as [->|Hne]; [lia|].
    rewrite app_nil_r. auto. }
  destruct (Z.leb_spec 0 v) as [H0|H0]; [|lia].
  destruct (R v) eqn:ERv.
  - exists R, RB. split; [reflexivity|]. intros b Hb.
    destruct (Hm b Hb) as [HR HRB]. rewrite Hcl.
    destruct (Z.eqb_spec v b) as [->|Hne]; [|rewrite app_nil_r; auto].
    assert (Hne : is_nil (claimants_in walk b) = false).
    { rewrite ERv in HR. symmetry in HR. apply andb_prop in HR.
      destruct HR as [_ HR]. apply negb_true_iff in HR. exact HR. }
    split.
    + rewrite ERv. destruct (Z.leb_spec lo b); [|lia].
      destruct (claimants_in walk b); [discriminate Hne | reflexivity].
    + rewrite HRB, ERv. symmetry. apply hd_app_nonempty. exact Hne.
  - exists (upd R v true), (upd RB v i). split; [reflexivity|].
    intros b Hb. destruct (Hm b Hb) as [HR HRB]. rewrite Hcl.
    unfold upd. destruct (Z.eqb_spec b v) as [->|Hne].
    + rewrite Z.eqb_refl.
      assert (Hnil : claimants_in walk v = []).
      { rewrite ERv in HR. destruct (Z.leb_spec lo v); [|lia].
        cbn [andb] in HR. destruct (claimants_in walk v);
          [reflexivity | discriminate HR]. }
      rewrite Hnil. cbn [app is_nil negb hd].
      destruct (Z.leb_spec lo v); [|lia]. split; reflexivity.
    + destruct (Z.eqb_spec v b); [congruence|]. rewrite app_nil_r. auto.
Qed.

(** A loop that marks the non-zero values [value 0 .. value (hi - 1)] for
    inode [i]. *)
Lemma mark_loop_marked (s : fsck) (value : Z -> Z) (i hi : Z)
      (body : Z -> unit -> M unit) (walk : list (Z * Z))
      (R : Z -> bool) (RB : Z -> Z) :
  0 <= hi ->
  (forall k u R1 RB1,
     body k u (with_block_referenced R1 RB1 s) =
     if nonzero (value k)
     then mark_block_referenced (to_int (value k)) i (with_block_referenced R1 RB1 s)
     else Some (tt, with_block_referenced R1 RB1 s)) ->
  (forall k, 0 <= k < hi -> 0 <= value k < 2 ^ 31) ->
  marked (data_block_start (superblock s)) walk R RB ->
  exists R' RB',
    for_range 0 hi body tt (with_block_referenced R RB s)
    = Some (tt, with_block_referenced R' RB' s)
    /\ marked (data_block_start (superblock s))
              (walk ++ map (fun b => (b, i))
                           (filter nonzero (map value (zrange 0 (Z.to_nat hi)))))
              R' RB'.
Proof.
  intros Hhi Hbody Hval Hm.
  destruct (for_range_total
    (fun k (_ : unit) t =>
       exists R1 RB1,
         t = with_block_referenced R1 RB1 s
         /\ marked (data_block_start (superblock s))
                   (walk ++ map (fun b => (b, i))
                                (filter nonzero
                                   (map value (zrange 0 (Z.to_nat k)))))
                   R1 RB1)
    body 0 hi tt (with_block_referenced R RB s) Hhi)
    as (u & t & E & R' & RB' & -> & Hm').
  - exists R, RB. split; [reflexivity|]. cbn [Z.to_nat zrange map filter].
    rewrite app_nil_r. exact Hm.
  - intros k u t Hk (R1 & RB1 & -> & Hm1). rewrite Hbody.
    replace (Z.to_nat (k + 1)) with (S (Z.to_nat k)) by lia.
    rewrite zrange_snoc, map_app, filter_app, map_app, Z2Nat.id, Z.add_0_l
      by lia.
    cbn [map filter].
    destruct (nonzero (value k)).
    + destruct (mark_block_referenced_marked s R1 RB1 _ (value k) i
                  (Hval k Hk) Hm1) as (R2 & RB2 & E2 & Hm2).
      exists tt, (with_block_referenced R2 RB2 s). split; [exact E2|].
      exists R2, RB2. split; [reflexivity|].
      cbn [map]. rewrite app_assoc. exact Hm2.
    + exists tt, (with_block_referenced R1 RB1 s). split; [reflexivity|].
      exists R1, RB1. split; [reflexivity|].
      cbn [map]. rewrite app_nil_r. exact Hm1.
  - destruct u. exists R', RB'. split; [exact E | exact Hm'].
Qed.

Lemma mark_direct_blocks_marked (s : fsck) (i : Z) (walk : list (Z * Z))
      (R : Z -> bool) (RB : Z -> Z) :
  (forall j, 0 <= j < 12 -> 0 <= direct_blocks (inodes s i) j < 2 ^ 31) ->
  marked (data_block_start (superblock s)) walk R RB ->
  exists R' RB',
    mark_direct_blocks i (with_block_referenced R RB s)
    = Some (tt, with_block_referenced R' RB' s)
    /\ marked (data_block_start (superblock s))
              (walk ++ map (fun b => (b, i))
                           (filter nonzero
                              (map (direct_blocks (inodes s i)) (zrange 0 12))))
              R' RB'.
Proof.
  intros Hval Hm. unfold mark_direct_blocks.
  refine (mark_loop_marked s (direct_blocks (inodes s i)) i 12 _ walk R RB
            _ _ Hval Hm); [lia|].
  intros k u R1 RB1. rewrite (bind_eq get _ _ _ _ eq_refl). cbv zeta.
  change (inodes (with_block_referenced R1 RB1 s)) with (inodes s).
  unfold nonzero. destruct (negb _); reflexivity.
Qed.

Lemma mark_indirect_blocks_marked (s : fsck) (i : Z) (walk : list (Z * Z))
      (R : Z -> bool) (RB : Z -> Z) :
  0 <= indirect_block (inodes s i) < 2 ^ 31 ->
  (indirect_block (inodes s i) <> 0 ->
   (indirect_block (inodes s i) + 1) * 4096 <= file_len (fs_image s)
   /\ forall j, 0 <= j < 1024 ->
        0 <= block_entry (fs_image s) (indirect_block (inodes s i)) j < 2 ^ 31) ->
  marked (data_block_start (superblock s)) walk R RB ->
  exists R' RB',
    mark_indirect_blocks i (with_block_referenced R RB s)
    = Some (tt, with_block_referenced R' RB' s)
    /\ marked (data_block_start (superblock s))
              (walk ++ map (fun b => (b, i))
                           (let ind := indirect_block (inodes s i) in
                            if nonzero ind
                            then ind :: filter nonzero
                                          (map (block_entry (fs_image s) ind)
                                               (zrange 0 1024))
                            else []))
              R' RB'.
Proof.
  intros Hind Hblock Hm. unfold mark_indirect_blocks.
  rewrite (bind_eq get _ _ _ _ eq_refl). cbv zeta.
  change (inodes (with_block_referenced R RB s)) with (inodes s).
  set (ind := indirect_block (inodes s i)) in *.
  change (negb (ind =? 0)) with (nonzero ind).
  destruct (nonzero ind) eqn:En.
  2:{ exists R, RB. split; [reflexivity|]. cbn [map]. rewrite app_nil_r.
      exact Hm. }
  assert (Hne : ind <> 0).
  { unfold nonzero in En. destruct (Z.eqb_spec ind 0); [discriminate|assumption]. }
  destruct (Hblock Hne) as [Hlen Hent].
  destruct (mark_block_referenced_marked s R RB walk ind i Hind Hm)
    as (R1 & RB1 & E1 & Hm1).
  rewrite (bind_eq _ _ _ _ _ E1).
  assert (Hoff : u32 (ind * 4096) + 4096
                 <= file_len (fs_image (with_block_referenced R1 RB1 s))).
  { cbn [with_block_referenced fs_image]. unfold u32.
    pose proof (Z.mod_le (ind * 4096) (2 ^ 32)). lia. }
  rewrite (bind_eq _ _ _ _ _
             (read_indirect_eq (with_block_referenced R1 RB1 s) ind Hoff)).
  unfold BLOCK_SIZE. change (4096 / 4) with 1024.
  change (fs_image (with_block_referenced R1 RB1 s)) with (fs_image s).
  destruct (mark_loop_marked s
              (decode_entries (fun k => file_byte (fs_image s) (u32 (ind * 4096) + k)))
              i 1024
              (fun j (_ : unit) =>
                 if negb (decode_entries
                            (fun k => file_byte (fs_image s) (u32 (ind * 4096) + k))
                            j =? 0)
                 then mark_block_referenced
                        (to_int (decode_entries
                                   (fun k => file_byte (fs_image s)
                                                       (u32 (ind * 4096) + k)) j)) i
                 else ret tt)
              (walk ++ [(ind, i)]) R1 RB1) as (R2 & RB2 & E2 & Hm2).
  - lia.
  - intros k u R3 RB3. unfold nonzero. destruct (negb _); reflexivity.
  - intros k Hk. rewrite decode_entries_block_entry. apply Hent. exact Hk.
  - exact Hm1.
  - exists R2, RB2. split; [exact E2|].
    replace (Z.to_nat 1024) with 1024%nat in Hm2 by reflexivity.
    rewrite (map_ext _ _ (decode_entries_block_entry (fs_image s) ind)) in Hm2.
    rewrite <- app_assoc in Hm2. rewrite map_cons. exact Hm2.
Qed.

Lemma mark_referenced_blocks_marked (s : fsck) (R : Z -> bool) (RB : Z -> Z) :
  (forall i j, 0 <= i < 80 -> is_valid_inode s i = true -> 0 <= j < 12 ->
               0 <= direct_blocks (inodes s i) j < 2 ^ 31) ->
  (forall i, 0 <= i < 80 -> is_valid_inode s i = true ->
             0 <= indirect_block (inodes s i) < 2 ^ 31) ->
  (forall i, 0 <= i < 80 -> is_valid_inode s i = true ->
             indirect_block (inodes s i) <> 0 ->
             (indirect_block (inodes s i) + 1) * 4096 <= file_len (fs_image s)
             /\ forall j, 0 <= j < 1024 ->
                  0 <= block_entry (fs_image s) (indirect_block (inodes s i)) j
                  < 2 ^ 31) ->
  marked (data_block_start (superblock s)) [] R RB ->
  exists R' RB',
    mark_referenced_blocks (with_block_referenced R RB s)
    = Some (tt, with_block_referenced R' RB' s)
    /\ marked (data_block_start (superblock s)) (mark_walk s) R' RB'.
Proof.
  intros Hdir Hind Hblock Hm. unfold mark_referenced_blocks.
  destruct (for_range_total
    (fun k (_ : unit) t =>
       exists R1 RB1,
         t = with_block_referenced R1 RB1 s
         /\ marked (data_block_start (superblock s))
                   (flat_map (fun i => map (fun b => (b, i)) (inode_marks s i))
                             (zrange 0 (Z.to_nat k)))
                   R1 RB1)
    (fun i (_ : unit) =>
       s0 <- get ;;
       if is_valid_inode s0 i
       then mark_direct_blocks i ;; mark_indirect_blocks i
       else ret tt)
    0 INODE_COUNT tt (with_block_referenced R RB s))
    as (u & t & E & R' & RB' & -> & Hm').
  - unfold INODE_COUNT. lia.
  - exists R, RB. split; [reflexivity | exact Hm].
  - unfold INODE_COUNT. intros k u t Hk (R1 & RB1 & -> & Hm1).
    rewrite (bind_eq get _ _ _ _ eq_refl).
    change (is_valid_inode (with_block_referenced R1 RB1 s) k)
      with (is_valid_inode s k).
    replace (Z.to_nat (k + 1)) with (S (Z.to_nat k)) by lia.
    rewrite zrange_snoc, flat_map_app, Z2Nat.id, Z.add_0_l by lia.
    cbn [flat_map]. rewrite app_nil_r.
    unfold inode_marks at 2. rewrite <- is_valid_inode_in_use.
    destruct (is_valid_inode s k) eqn:Ev.
    + destruct (mark_direct_blocks_marked s k _ R1 RB1
                  (fun j Hj => Hdir k j Hk Ev Hj) Hm1)
        as (R2 & RB2 & E2 & Hm2).
      rewrite (bind_eq _ _ _ _ _ E2).
      destruct (mark_indirect_blocks_marked s k _ R2 RB2
                  (Hind k Hk Ev) (Hblock k Hk Ev) Hm2)
        as (R3 & RB3 & E3 & Hm3).
      exists tt, (with_block_referenced R3 RB3 s). split; [exact E3|].
      exists R3, RB3. split; [reflexivity|].
      rewrite map_app, app_assoc. exact Hm3.
    + exists tt, (with_block_referenced R1 RB1 s). split; [reflexivity|].
      exists R1, RB1. split; [reflexivity|].
      cbn [map]. rewrite app_nil_r. exact Hm1.
  - destruct u. exists R', RB'. split; [exact E | exact Hm'].
Qed.

Lemma flat_map_pointwise_in {A B : Type} (f g : A -> list B) (l : list A) :
  (forall x, In x l -> f x = g x) -> flat_map f l = flat_map g l.
Proof.
  intros H. induction l as [|x l IH]; [reflexivity|]. cbn [flat_map].
  rewrite (H x) by (left; reflexivity). f_equal. apply IH.
  intros y Hy. apply H. right. exact Hy.
Qed.

(** The comparison of the data bitmap with tracking arrays that hold the
    marks of the walk. *)
Lemma compare_data_bitmap_eq (s : fsck) (R : Z -> bool) (RB : Z -> Z) :
  0 <= data_block_start (superblock s) < 2 ^ 31 ->
  marked (data_block_start (superblock s)) (mark_walk s) R RB ->
  compare_data_bitmap (with_block_referenced R RB s)
  = Some (is_nil (data_bitmap_findings s),
          add_findings (data_bitmap_findings s) (with_block_referenced R RB s)).
Proof.
  intros Hlo Hm. unfold compare_data_bitmap.
  rewrite (bind_eq get _ _ _ _ eq_refl).
  change (superblock (with_block_referenced R RB s)) with (superblock s).
  set (lo := data_block_start (superblock s)) in *.
  rewrite to_int_small by exact Hlo. unfold TOTAL_BLOCKS.
  unfold data_bitmap_findings. cbv zeta. fold lo.
  destruct (Z.le_gt_cases lo 64) as [Hle|Hgt].
  2:{ rewrite for_range_empty by lia.
      replace (Z.to_nat (64 - lo)) with 0%nat by lia.
      cbn [zrange flat_map]. rewrite add_findings_nil. reflexivity. }
  assert (HF : flat_map (data_slot_findings s) (zrange lo (Z.to_nat (64 - lo)))
               = flat_map
                   (fun b =>
                      match bitmap_bit (data_bitmap s) (b - lo), R b with
                      | true, false => [ErrBlockMarkedNotReferenced b]
                      | false, true => [ErrBlockReferencedNotMarked b (RB b)]
                      | _, _ => []
                      end) (zrange lo (Z.to_nat (64 - lo)))).
  { apply flat_map_pointwise_in. intros b Hb. apply in_zrange in Hb.
    destruct (Hm b ltac:(lia)) as [HR HRB].
    unfold data_slot_findings, referenced_by, referenced. fold lo.
    destruct (Z.ltb_spec b 64); [|lia]. rewrite andb_true_r.
    rewrite <- HR, HRB. destruct (R b); reflexivity. }
  rewrite HF.
  rewrite (findings_loop
             (fun b =>
                match bitmap_bit (data_bitmap s) (b - lo), R b with
                | true, false => [ErrBlockMarkedNotReferenced b]
                | false, true => [ErrBlockReferencedNotMarked b (RB b)]
                | _, _ => []
                end)); [reflexivity | exact Hle |].
  intros k fl l Hk.
  rewrite (bind_eq get _ _ _ _ eq_refl). cbv zeta.
  change (superblock (add_findings l (with_block_referenced R RB s)))
    with (superblock s).
  change (data_bitmap (add_findings l (with_block_referenced R RB s)))
    with (data_bitmap s).
  change (block_referenced (add_findings l (with_block_referenced R RB s)))
    with R.
  change (block_referenced_by (add_findings l (with_block_referenced R RB s)))
    with RB.
  fold lo. rewrite (u32_small k) by lia.
  rewrite (to_int_small (k - lo)) by lia.
  rewrite get_bit_zero by lia.
  destruct (Z.leb_spec 0 k); [|lia].
  rewrite negb_involutive.
  destruct (bitmap_bit (data_bitmap s) (k - lo)), (R k); cbn [andb negb];
    rewrite ?found_eq; unfold ret;
    rewrite ?add_findings_app, ?app_nil_r; cbn [is_nil];
    rewrite ?andb_true_r, ?andb_false_r; reflexivity.
Qed.

(** X7.  Every block pointer met in the walk being below 2^31, every
    non-zero single-indirect pointer of an in-use inode naming a block that
    lies within the file, and the superblock's data-region start being below
    2^31, [check_data_bitmap_consistency] has a result.  The tracking arrays
    it leaves say, for every block 0..63: referenced exactly when the block
    lies between the data-region start and 63 and an in-use inode 0..79 has
    it as a non-zero direct pointer, as its non-zero single-indirect pointer
    or as a non-zero entry of the block that pointer names; and referenced by
    the first such inode in the walk (-1 when not referenced).  It reports,
    for the blocks from the data-region start to 63 in order, "marked but
    not referenced" when the bit of the block is set and the block is not
    referenced, "referenced by that inode but not marked" when the bit is
    clear and the block is referenced, and nothing otherwise; it counts one
    error per report and returns whether there was none.  Nothing else
    changes. *)
Theorem check_data_bitmap_consistency_findings : forall s : fsck,
  0 <= data_block_start (superblock s) < 2 ^ 31 ->
  (forall i j, 0 <= i < 80 -> is_valid_inode s i = true -> 0 <= j < 12 ->
               0 <= direct_blocks (inodes s i) j < 2 ^ 31) ->
  (forall i, 0 <= i < 80 -> is_valid_inode s i = true ->
             0 <= indirect_block (inodes s i) < 2 ^ 31) ->
  (forall i, 0 <= i < 80 -> is_valid_inode s i = true ->
             indirect_block (inodes s i) <> 0 ->
             (indirect_block (inodes s i) + 1) * 4096 <= file_len (fs_image s)
             /\ forall j, 0 <= j < 1024 ->
                  0 <= block_entry (fs_image s) (indirect_block (inodes s i)) j
                  < 2 ^ 31) ->
  exists s',
    check_data_bitmap_consistency s
    = Some (is_nil (data_bitmap_findings s), s')
    /\ console s' = console s ++ data_bitmap_findings s
    /\ errors_found s' =
         errors_found s + Z.of_nat (length (data_bitmap_findings s))
    /\ (forall b, 0 <= b < 64 ->
          block_referenced s' b = referenced s b
          /\ block_referenced_by s' b = referenced_by s b)
    /\ (forall b, In (ErrBlockMarkedNotReferenced b) (data_bitmap_findings s) <->
          data_block_start (superblock s) <= b < 64
          /\ get_bit (data_bitmap s) (b - data_block_start (superblock s)) = 1
          /\ referenced s b = false)
    /\ (forall b i, In (ErrBlockReferencedNotMarked b i) (data_bitmap_findings s) <->
          data_block_start (superblock s) <= b < 64
          /\ get_bit (data_bitmap s) (b - data_block_start (superblock s)) = 0
          /\ referenced s b = true /\ i = referenced_by s b)
    /\ same_metadata s s'.
Proof.
  intros s Hlo Hdir Hind Hblock. unfold check_data_bitmap_consistency.
  destruct (reset_block_references_eq s) as (R0 & RB0 & E0 & Hz).
  rewrite (bind_eq _ _ _ _ _ E0).
  destruct (mark_referenced_blocks_marked s R0 RB0 Hdir Hind Hblock
              (marked_nil _ R0 RB0 Hz)) as (R & RB & E1 & Hm).
  rewrite (bind_eq _ _ _ _ _ E1).
  rewrite (compare_data_bitmap_eq s R RB Hlo Hm).
  eexists. split; [reflexivity|].
  split; [reflexivity|]. split; [reflexivity|].
  split.
  { intros b Hb. destruct (Hm b Hb) as [HR HRB].
    cbn [add_findings with_errors_found with_console with_block_referenced
         block_referenced block_referenced_by].
    unfold referenced_by, referenced.
    destruct (Z.ltb_spec b 64); [|lia]. rewrite andb_true_r.
    rewrite <- HR. split; [reflexivity | exact HRB]. }
  assert (Hbit : forall b, data_block_start (superblock s) <= b ->
            (get_bit (data_bitmap s) (b - data_block_start (superblock s)) = 1
             <-> bitmap_bit (data_bitmap s)
                            (b - data_block_start (superblock s)) = true)
            /\ (get_bit (data_bitmap s) (b - data_block_start (superblock s)) = 0
                <-> bitmap_bit (data_bitmap s)
                               (b - data_block_start (superblock s)) = false)).
  { intros b Hb. rewrite get_bit_testbit by lia.
    destruct (bitmap_bit _ _); cbn; split; split;
      intros Hx; first [discriminate | reflexivity | lia]. }
  split; [|split; [|repeat split]].
  - intros b. unfold data_bitmap_findings. cbv zeta. rewrite in_flat_map. split.
    + intros (k & Hk & Hin). apply in_zrange in Hk.
      unfold data_slot_findings in Hin.
      destruct (bitmap_bit (data_bitmap s) (k - _)) eqn:Eb,
               (referenced s k) eqn:Er; cbn in Hin;
        try contradiction; destruct Hin as [Hin|[]]; try discriminate Hin.
      injection Hin as <-. split; [lia|].
      split; [apply Hbit; [lia|exact Eb] | exact Er].
    + intros (Hb & Hg & Hr). exists b. split; [apply in_zrange; lia|].
      unfold data_slot_findings. apply Hbit in Hg; [|lia].
      rewrite Hg, Hr. left. reflexivity.
  - intros b i. unfold data_bitmap_findings. cbv zeta. rewrite in_flat_map. split.
    + intros (k & Hk & Hin). apply in_zrange in Hk.
      unfold data_slot_findings in Hin.
      destruct (bitmap_bit (data_bitmap s) (k - _)) eqn:Eb,
               (referenced s k) eqn:Er; cbn in Hin;
        try contradiction; destruct Hin as [Hin|[]]; try discriminate Hin.
      injection Hin as <- <-. split; [lia|].
      split; [apply Hbit; [lia|exact Eb]|]. split; [exact Er | reflexivity].
    + intros (Hb & Hg & Hr & ->). exists b. split; [apply in_zrange; lia|].
      unfold data_slot_findings. apply Hbit in Hg; [|lia].
      rewrite Hg, Hr. left. reflexivity.
Qed.

Lemma check_data_bitmap_consistency_findings_witness :
  exists s',
    check_data_bitmap_consistency state_wrong_bits
    = Some (false, s')
    /\ console s' = [ErrBlockMarkedNotReferenced 8;
                     ErrBlockReferencedNotMarked 9 0].
Proof.
  destruct (check_data_bitmap_consistency_findings state_wrong_bits)
    as (s' & E & Hc & _).
  - cbn. lia.
  - intros i j _ _ _. cbn [state_wrong_bits inodes].
    unfold upd, no_inodes, file_inode, zero_inode.
    destruct (i =? 0); cbn [direct_blocks]; [unfold upd; destruct (j =? 0)|];
      lia.
  - intros i _ _. cbn [state_wrong_bits inodes]. unfold upd, no_inodes.
    destruct (i =? 0); cbn; lia.
  - intros i _ _. cbn [state_wrong_bits inodes]. unfold upd, no_inodes.
    destruct (i =? 0); cbn; intros H; contradiction H; reflexivity.
  - exists s'.
    replace (data_bitmap_findings state_wrong_bits)
      with [ErrBlockMarkedNotReferenced 8; ErrBlockReferencedNotMarked 9 0]
      in E, Hc by (vm_compute; reflexivity).
    split; [exact E | exact Hc].
Defined.
(** ** Where the validators leave defined behaviour *)

(** A loop one of whose iterations has no result has none, when the
    iterations before it keep what that iteration depends on. *)
Lemma for_loop_fails {A : Type} (I : fsck -> Prop) (body : Z -> A -> M A) (k : Z) :
  (forall j b t b' t', j < k -> I t -> body j b t = Some (b', t') -> I t') ->
  (forall b t, I t -> body k b t = None) ->
  forall (n : nat) (i : Z) (a : A) (s : fsck),
    i <= k < i + Z.of_nat n -> I s -> for_loop n i body a s = None.
Proof.
  intros Hkeep Hfail. induction n as [|n IH]; intros i a s Hk HI; [lia|].
  cbn [for_loop]. unfold bind.
  destruct (Z.eq_dec i k) as [->|Hne].
  - rewrite (Hfail a s HI). reflexivity.
  - destruct (body i a s) as [[a' s']|] eqn:E; [|reflexivity].
    apply IH; [lia|]. apply (Hkeep i a s a' s'); [lia | exact HI | exact E].
Qed.

Lemma for_range_fails {A : Type} (I : fsck -> Prop) (body : Z -> A -> M A)
      (lo hi k : Z) (a : A) (s : fsck) :
  lo <= k < hi -> I s ->
  (forall j b t b' t', j < k -> I t -> body j b t = Some (b', t') -> I t') ->
  (forall b t, I t -> body k b t = None) ->
  for_range lo hi body a s = None.
Proof.
  intros Hk HI Hkeep Hfail. unfold for_range.
  apply (for_loop_fails I body k Hkeep Hfail); [lia | exact HI].
Qed.

Lemma mark_direct_blocks_read_only (i : Z) :
  preserves same_metadata (mark_direct_blocks i).
Proof.
  unfold mark_direct_blocks.
  frame same_metadata_refl same_metadata_trans;
    try apply mark_block_referenced_read_only; repeat split.
Qed.

Lemma mark_indirect_blocks_read_only (i : Z) :
  preserves same_metadata (mark_indirect_blocks i).
Proof.
  unfold mark_indirect_blocks.
  frame same_metadata_refl same_metadata_trans;
    try apply mark_block_referenced_read_only;
    try apply read_indirect_read_only; repeat split.
Qed.

Lemma mark_direct_step_read_only (i k : Z) :
  preserves same_metadata
    (s1 <- get ;;
     let b := direct_blocks (inodes s1 i) k in
     if negb (b =? 0) then mark_block_referenced (to_int b) i else ret tt).
Proof.
  frame same_metadata_refl same_metadata_trans.
  apply mark_block_referenced_read_only.
Qed.

Lemma mark_inode_read_only (k : Z) :
  preserves same_metadata
    (s1 <- get ;;
     if is_valid_inode s1 k
     then mark_direct_blocks k ;; mark_indirect_blocks k
     else ret tt).
Proof.
  frame same_metadata_refl same_metadata_trans;
    first [apply mark_direct_blocks_read_only
          | apply mark_indirect_blocks_read_only].
Qed.

Lemma reset_block_references_read_only :
  preserves same_metadata reset_block_references.
Proof.
  unfold reset_block_references.
  frame same_metadata_refl same_metadata_trans; repeat split.
Qed.

(** X8.  If an in-use inode 0..79 has, in one of its direct slots 0..11, a
    pointer of 2^31 or more that is not below the superblock's data-region
    start, [check_data_bitmap_consistency] has no defined result:
    [mark_block_referenced] takes the pointer as a negative [int], which
    passes both of its range tests, and indexes [block_referenced] with
    it. *)
Theorem check_data_bitmap_consistency_negative_index :
  forall (s : fsck) (i j : Z),
    0 <= i < 80 -> is_valid_inode s i = true -> 0 <= j < 12 ->
    2 ^ 31 <= direct_blocks (inodes s i) j < 2 ^ 32 ->
    data_block_start (superblock s) <= direct_blocks (inodes s i) j ->
    check_data_bitmap_consistency s = None.
Proof.
  intros s i j Hi Hv Hj Hbig Hlo. unfold check_data_bitmap_consistency.
  unfold bind at 1.
  destruct (reset_block_references s) as [[[] t0]|] eqn:E0; [|reflexivity].
  pose proof (reset_block_references_read_only s tt t0 E0) as H0.
  assert (Hmark : mark_referenced_blocks t0 = None).
  { unfold mark_referenced_blocks.
    apply (for_range_fails (same_metadata s) _ 0 INODE_COUNT i);
      [unfold INODE_COUNT; lia | exact H0 | |].
    - intros k b t b' t' _ Ht E.
      exact (same_metadata_trans _ _ _ Ht (mark_inode_read_only k t b' t' E)).
    - intros [] t Ht.
      destruct Ht as (_ & _ & Hsb & _ & _ & Hin & _).
      rewrite (bind_eq get _ _ _ _ eq_refl).
      assert (Hv' : is_valid_inode t i = true).
      { unfold is_valid_inode in *. rewrite Hin. exact Hv. }
      rewrite Hv'. unfold bind at 1.
      assert (Hd : mark_direct_blocks i t = None).
      { unfold mark_direct_blocks.
        apply (for_range_fails
                 (fun u => inodes u = inodes s /\ superblock u = superblock s)
                 _ 0 12 j); [lia | split; assumption | |].
        - intros k [] u [] u' _ [Hu1 Hu2] E.
          pose proof (mark_direct_step_read_only i k u tt u' E) as Hp.
          destruct Hp as (_ & _ & Hp3 & _ & _ & Hp6 & _).
          split; congruence.
        - intros [] u [Hu1 Hu2].
          rewrite (bind_eq get _ _ _ _ eq_refl). cbv zeta.
          rewrite Hu1.
          set (v := direct_blocks (inodes s i) j) in *.
          destruct (Z.eqb_spec v 0); [lia|]. cbn [negb].
          unfold mark_block_referenced.
          rewrite (bind_eq get _ _ _ _ eq_refl). rewrite Hu2.
          assert (Hti : to_int v = v - 2 ^ 32).
          { unfold to_int. rewrite Z.mod_small by lia.
            destruct (Z.ltb_spec v (2 ^ 31)); [lia | reflexivity]. }
          rewrite Hti.
          assert (Hu : u32 (v - 2 ^ 32) = v).
          { unfold u32. replace (v - 2 ^ 32) with (v + (-1) * 2 ^ 32) by lia.
            rewrite Z.mod_add by lia. apply Z.mod_small. lia. }
          rewrite Hu. unfold TOTAL_BLOCKS.
          destruct (Z.ltb_spec v (data_block_start (superblock s))); [lia|].
          destruct (Z.geb_spec (v - 2 ^ 32) 64); [lia|].
          destruct (Z.leb_spec 0 (v - 2 ^ 32)); [lia|].
          reflexivity. }
      rewrite Hd. reflexivity. }
  unfold bind. rewrite Hmark. reflexivity.
Qed.

Lemma check_data_bitmap_consistency_negative_index_witness :
  check_data_bitmap_consistency state_huge_pointer = None.
Proof.
  apply (check_data_bitmap_consistency_negative_index state_huge_pointer 0 0);
    try reflexivity; try lia; cbn; lia.
Defined.

(** A row of [block_references] never holds more than 80 claimants while
    the behaviour is defined. *)
Lemma record_reference_bounded (bn i : Z) (loc loc' : dup_locals) (t t' : fsck) :
  (forall b, snd loc b <= 80) ->
  record_reference bn i loc t = Some (loc', t') ->
  forall b, snd loc' b <= 80.
Proof.
  intros Hb E b. destruct loc as [refs counts]. unfold record_reference in E.
  unfold INODE_COUNT in E.
  destruct (Z.ltb_spec (counts bn) 80); [|discriminate E].
  inversion E; subst. cbn [snd] in *. unfold upd.
  destruct (b =? bn) eqn:Eb; [lia | apply Hb].
Qed.

Lemma count_references_bounded (s : fsck) (loc : dup_locals) (s' : fsck) :
  count_references s = Some (loc, s') -> forall b, snd loc b <= 80.
Proof.
  unfold count_references. intros E.
  refine (for_range_partial (fun _ (l : dup_locals) _ => forall b, snd l b <= 80)
            _ 0 INODE_COUNT _ s loc s' _ E _ _).
  - unfold INODE_COUNT. lia.
  - intros b. cbn. lia.
  - intros k l t l' t' _ Hl Eb.
    apply bind_some in Eb. destruct Eb as (t0 & t1 & Eg & Eb).
    inversion Eg; subst t0 t1.
    destruct (is_valid_inode t k); [|inversion Eb; subst; exact Hl].
    apply bind_some in Eb. destruct Eb as (l1 & t1 & E1 & E2).
    assert (Hl1 : forall b, snd l1 b <= 80).
    { unfold count_direct_blocks in E1.
      refine (for_range_partial
                (fun _ (l : dup_locals) _ => forall b, snd l b <= 80)
                _ 0 12 _ t l1 t1 _ E1 Hl _); [lia|].
      intros j l0 u l0' u' _ Hl0 Ej.
      apply bind_some in Ej. destruct Ej as (u0 & u1 & Eg' & Ej).
      inversion Eg'; subst u0 u1. cbv zeta in Ej.
      destruct (countable _); [|inversion Ej; subst; exact Hl0].
      exact (record_reference_bounded _ _ _ _ _ _ Hl0 Ej). }
    unfold count_indirect_blocks in E2.
    apply bind_some in E2. destruct E2 as (u0 & u1 & Eg' & E2).
    inversion Eg'; subst u0 u1. cbv zeta in E2.
    destruct (countable _); [|inversion E2; subst; exact Hl1].
    apply bind_some in E2. destruct E2 as (l2 & t2 & E2 & E3).
    pose proof (record_reference_bounded _ _ _ _ _ _ Hl1 E2) as Hl2.
    apply bind_some in E3. destruct E3 as (entries & t3 & _ & E3).
    refine (for_range_partial
              (fun _ (l : dup_locals) _ => forall b, snd l b <= 80)
              _ 0 (BLOCK_SIZE / 4) _ t3 l' t' _ E3 Hl2 _);
      [unfold BLOCK_SIZE; cbn; lia|].
    intros j l0 u l0' u' _ Hl0 Ej. cbv zeta in Ej.
    destruct (countable _); [|inversion Ej; subst; exact Hl0].
    exact (record_reference_bounded _ _ _ _ _ _ Hl0 Ej).
Qed.

(** X9.  If some block number has more than 80 claims,
    [check_duplicate_blocks] has no defined result: the 81st claimant is
    stored past the end of the 80-entry row of [block_references]. *)
Theorem check_duplicate_blocks_row_overflow : forall (s : fsck) (b : Z),
  (80 < length (claimants s b))%nat ->
  check_duplicate_blocks s = None.
Proof.
  intros s b Hb. unfold check_duplicate_blocks, bind.
  destruct (count_references s) as [[loc s']|] eqn:E; [|reflexivity].
  exfalso.
  pose proof (count_references_bounded s loc s' E b) as Hle.
  destruct (count_references_represents s loc s' E) as [_ Hr].
  destruct (Hr b) as [Hc _]. unfold claimants in Hb. lia.
Qed.

Lemma check_duplicate_blocks_row_overflow_witness :
  check_duplicate_blocks state_many_claims = None.
Proof.
  apply (check_duplicate_blocks_row_overflow state_many_claims 9).
  assert (H : length (claimants state_many_claims 9) = 1024%nat)
    by (vm_compute; reflexivity).
  rewrite H. lia.
Defined.
(** ** Persisting and loading the metadata *)

Lemma le16_roundtrip (v : Z) :
  0 <= v < 2 ^ 16 -> byte_of v 0 + 256 * byte_of v 1 = v.
Proof.
  intros H. unfold byte_of.
  change (256 ^ 0) with 1. change (256 ^ 1) with 256.
  change (2 ^ 16) with 65536 in H.
  Z.div_mod_to_equations. lia.
Qed.

Lemma le32_at_agree (buf buf' : Z -> Z) (k : Z) :
  (forall c, 0 <= c < 4 -> buf (k + c) = buf' (k + c)) ->
  le32_at buf k = le32_at buf' k.
Proof.
  intros H. unfold le32_at.
  rewrite <- (Z.add_0_r k) at 1 5.
  rewrite !H by lia. rewrite Z.add_0_r. reflexivity.
Qed.

Lemma decode_encode_superblock (buf : Z -> Z) (sb : superblock_t) :
  (forall k, 0 <= k < 4096 -> buf k = encode_superblock sb k) ->
  superblock_in_range sb ->
  same_superblock (decode_superblock buf) sb.
Proof.
  intros Hbuf (Hm & H1 & H2 & H3 & H4 & H5 & H6 & H7 & H8).
  unfold same_superblock, decode_superblock.
  cbn [magic block_size total_blocks inode_bitmap_block data_bitmap_block
       inode_table_start data_block_start inode_size inode_count sb_reserved].
  assert (H32 : forall k, 0 <= k <= 4092 ->
            le32_at buf k = le32_at (encode_superblock sb) k).
  { intros k Hk. apply le32_at_agree. intros c Hc. apply Hbuf. lia. }
  rewrite !H32 by lia.
  repeat split.
  - unfold le16_at. rewrite !Hbuf by lia. exact (le16_roundtrip _ Hm).
  - exact (le32_roundtrip _ H1).
  - exact (le32_roundtrip _ H2).
  - exact (le32_roundtrip _ H3).
  - exact (le32_roundtrip _ H4).
  - exact (le32_roundtrip _ H5).
  - exact (le32_roundtrip _ H6).
  - exact (le32_roundtrip _ H7).
  - exact (le32_roundtrip _ H8).
  - intros k Hk. unfold bytes_from. rewrite Hbuf by lia.
    unfold encode_superblock.
    repeat match goal with
           | |- context [?a <? ?b] => destruct (Z.ltb_spec a b); try lia
           end.
    f_equal. lia.
Qed.

Lemma encode_inode_direct (ino : inode_t) (j c : Z) :
  0 <= j < 12 -> 0 <= c < 4 ->
  encode_inode ino (40 + 4 * j + c) = byte_of (direct_blocks ino j) c.
Proof.
  intros Hj Hc. unfold encode_inode.
  repeat match goal with
         | |- context [?a <? ?b] => destruct (Z.ltb_spec a b); try lia
         end.
  replace (40 + 4 * j + c - 40) with (4 * j + c) by lia.
  destruct (entry_index j c Hc) as [-> ->]. reflexivity.
Qed.

Lemma decode_encode_inode (buf : Z -> Z) (ino : inode_t) :
  (forall k, 0 <= k < 256 -> buf k = encode_inode ino k) ->
  inode_in_range ino ->
  same_inode (decode_inode buf) ino.
Proof.
  intros Hbuf (H1 & H2 & H3 & H4 & H5 & H6 & H7 & H8 & H9 & H10 & Hd
              & H11 & H12 & H13).
  unfold same_inode, decode_inode.
  cbn [mode uid gid size atime ctime mtime dtime nlink blocks direct_blocks
       indirect_block double_indirect triple_indirect reserved].
  assert (H32 : forall k, 0 <= k <= 252 ->
            le32_at buf k = le32_at (encode_inode ino) k).
  { intros k Hk. apply le32_at_agree. intros c Hc. apply Hbuf. lia. }
  split; [rewrite H32 by lia; exact (le32_roundtrip _ H1)|].
  split; [rewrite H32 by lia; exact (le32_roundtrip _ H2)|].
  split; [rewrite H32 by lia; exact (le32_roundtrip _ H3)|].
  split; [rewrite H32 by lia; exact (le32_roundtrip _ H4)|].
  split; [rewrite H32 by lia; exact (le32_roundtrip _ H5)|].
  split; [rewrite H32 by lia; exact (le32_roundtrip _ H6)|].
  split; [rewrite H32 by lia; exact (le32_roundtrip _ H7)|].
  split; [rewrite H32 by lia; exact (le32_roundtrip _ H8)|].
  split; [rewrite H32 by lia; exact (le32_roundtrip _ H9)|].
  split; [rewrite H32 by lia; exact (le32_roundtrip _ H10)|].
  split.
  { intros j Hj. rewrite H32 by lia. unfold le32_at.
    rewrite <- (Z.add_0_r (40 + 4 * j)) at 1.
    rewrite !encode_inode_direct by lia.
    exact (le32_roundtrip _ (Hd j Hj)). }
  split; [rewrite H32 by lia; exact (le32_roundtrip _ H11)|].
  split; [rewrite H32 by lia; exact (le32_roundtrip _ H12)|].
  split; [rewrite H32 by lia; exact (le32_roundtrip _ H13)|].
  intros k Hk. unfold bytes_from. rewrite Hbuf by lia.
  unfold encode_inode.
  repeat match goal with
         | |- context [?a <? ?b] => destruct (Z.ltb_spec a b); try lia
         end.
  f_equal. lia.
Qed.

Lemma file_byte_write (img : file) (off n : Z) (buf : Z -> Z) (k : Z) :
  file_byte (file_write img off n buf) k =
  if (off <=? k) && (k <? off + n) then buf (k - off)
  else if k <? file_len img then file_byte img k else 0.
Proof. reflexivity. Qed.

Lemma file_write_same (img : file) (off n : Z) (buf : Z -> Z) (k : Z) :
  off <= k < off + n -> file_byte (file_write img off n buf) k = buf (k - off).
Proof.
  intros H. rewrite file_byte_write.
  destruct (Z.leb_spec off k), (Z.ltb_spec k (off + n)); try lia. reflexivity.
Qed.

Lemma file_write_other (img : file) (off n : Z) (buf : Z -> Z) (k : Z) :
  k < off \/ off + n <= k -> k < file_len img ->
  file_byte (file_write img off n buf) k = file_byte img k.
Proof.
  intros H Hl. rewrite file_byte_write.
  destruct (Z.leb_spec off k), (Z.ltb_spec k (off + n)),
           (Z.ltb_spec k (file_len img)); try lia; reflexivity.
Qed.

(** The 80 records [write_inodes] writes, and the bytes before them. *)
Lemma write_inodes_image (t : fsck) :
  inode_table_start (superblock t) = 3 ->
  12288 <= file_len (fs_image t) ->
  exists img,
    write_inodes t =
    Some (tt, with_image img
                (fwrites t ++ map (fun i => (12288 + 256 * i, 256)) (zrange 0 80)) t)
    /\ 32768 <= file_len img
    /\ (forall k, 0 <= k < 12288 -> file_byte img k = file_byte (fs_image t) k)
    /\ (forall i k, 0 <= i < 80 -> 0 <= k < 256 ->
          file_byte img (12288 + 256 * i + k) = encode_inode (inodes t i) k).
Proof.
  intros Hits Hlen. unfold write_inodes.
  loop_total (fun n (_ : unit) t' =>
    exists img,
      t' = with_image img
             (fwrites t ++ map (fun i => (12288 + 256 * i, 256))
                               (zrange 0 (Z.to_nat n))) t
      /\ 12288 + 256 * n <= file_len img
      /\ (forall k, 0 <= k < 12288 -> file_byte img k = file_byte (fs_image t) k)
      /\ (forall i k, 0 <= i < n -> 0 <= k < 256 ->
            file_byte img (12288 + 256 * i + k) = encode_inode (inodes t i) k))
    u t' E H.
  - unfold INODE_COUNT. lia.
  - exists (fs_image t). cbn [Z.to_nat zrange map]. rewrite app_nil_r.
    split; [apply fsck_eta|]. split; [lia|]. split; [reflexivity|].
    intros i k Hi. lia.
  - unfold INODE_COUNT. intros n [] t' Hn (img & -> & Hl & Hlow & Hrec).
    rewrite (bind_eq get _ _ _ _ eq_refl).
    change (superblock (with_image img _ t)) with (superblock t).
    change (inodes (with_image img _ t)) with (inodes t).
    rewrite Hits. unfold fwrite, modify, BLOCK_SIZE, INODE_SIZE.
    rewrite u32_small by lia.
    eexists tt, _. split; [reflexivity|].
    eexists. split; [|split; [|split]].
    + replace (Z.to_nat (n + 1)) with (S (Z.to_nat n)) by lia.
      rewrite zrange_snoc, map_app, app_assoc, Z2Nat.id, Z.add_0_l by lia.
      cbn [map with_image fwrites].
      replace (3 * 4096 + n * 256) with (12288 + 256 * n) by lia.
      reflexivity.
    + unfold file_write. cbn [file_len fs_image with_image]. lia.
    + intros k Hk. cbn [fs_image with_image].
      rewrite file_write_other by lia. apply Hlow. exact Hk.
    + intros i k Hi Hk. cbn [fs_image with_image].
      destruct (Z.eq_dec i n) as [->|Hne].
      * rewrite file_write_same by lia. f_equal. lia.
      * rewrite file_write_other by lia. apply Hrec; lia.
  - destruct H as (img & -> & Hl & Hlow & Hrec). destruct u. exists img.
    unfold INODE_COUNT in Hl, Hrec.
    split; [exact E|]. split; [lia|]. split; [exact Hlow|].
    intros i k Hi Hk. apply Hrec; lia.
Qed.

Lemma write_bitmaps_image (t : fsck) :
  inode_bitmap_block (superblock t) = 1 ->
  data_bitmap_block (superblock t) = 2 ->
  write_bitmaps t =
  Some (tt, with_image
              (file_write (file_write (fs_image t) 4096 4096 (inode_bitmap t))
                          8192 4096 (data_bitmap t))
              (fwrites t ++ [(4096, 4096); (8192, 4096)]) t).
Proof.
  intros H1 H2. unfold write_bitmaps, fwrite.
  rewrite (bind_eq get _ _ _ _ eq_refl). rewrite H1, H2.
  unfold modify, bind, BLOCK_SIZE.
  change (u32 (1 * 4096)) with 4096. change (u32 (2 * 4096)) with 8192.
  cbn [with_image fs_image fwrites inode_bitmap data_bitmap superblock
       block_referenced block_referenced_by errors_found errors_fixed
       console inodes].
  rewrite <- app_assoc. reflexivity.
Qed.

(** What the three writes at the end of [fix_errors] leave in the image. *)
Lemma persist_image (s : fsck) :
  inode_bitmap_block (superblock s) = 1 ->
  data_bitmap_block (superblock s) = 2 ->
  inode_table_start (superblock s) = 3 ->
  exists img,
    (write_superblock ;; write_bitmaps ;; write_inodes) s
    = Some (tt, with_image img (fwrites s ++ persist_trace) s)
    /\ holds_metadata img s.
Proof.
  intros H1 H2 H3.
  rewrite (bind_eq _ _ _ _ _ (write_superblock_eq s)).
  set (s1 := with_image _ _ s).
  rewrite (bind_eq _ _ _ _ _ (write_bitmaps_image s1 H1 H2)).
  cbn [s1 with_image fs_image fwrites inode_bitmap data_bitmap].
  set (img2 := file_write (file_write (file_write (fs_image s) 0 4096 _) 4096 4096 _)
                          8192 4096 _).
  set (s2 := with_image img2 _ _).
  destruct (write_inodes_image s2 H3) as (img & E & Hlen & Hlow & Hrec).
  { cbn [s2 fs_image with_image img2 file_write file_len]. lia. }
  exists img. split.
  - rewrite E. unfold ret. do 2 f_equal.
    cbn [s2 s1 with_image fs_image superblock inode_bitmap data_bitmap inodes
         block_referenced block_referenced_by errors_found errors_fixed
         console fwrites].
    unfold persist_trace. rewrite <- !app_assoc. reflexivity.
  - split; [exact Hlen|].
    cbn [s2 s1 fs_image with_image inodes] in Hlow, Hrec.
    split; [|split; [|split]].
    + intros k Hk. rewrite Hlow by lia. unfold img2.
      rewrite file_write_other
        by (try lia; unfold file_write; cbn [file_len]; lia).
      rewrite file_write_other
        by (try lia; unfold file_write; cbn [file_len]; lia).
      rewrite file_write_same by lia. f_equal. lia.
    + intros k Hk. rewrite Hlow by lia. unfold img2.
      rewrite file_write_other
        by (try lia; unfold file_write; cbn [file_len]; lia).
      rewrite file_write_same by lia. f_equal. lia.
    + intros k Hk. rewrite Hlow by lia. unfold img2.
      rewrite file_write_same by lia. f_equal. lia.
    + exact Hrec.
Qed.

Lemma file_read_into_inside (img : file) (off n : Z) (dst : Z -> Z) (k : Z) :
  0 <= k < n -> off + n <= file_len img ->
  file_read_into img off n dst k = file_byte img (off + k).
Proof.
  intros Hk Hl. unfold file_read_into.
  destruct (Z.leb_spec 0 k), (Z.ltb_spec k n),
           (Z.ltb_spec (off + k) (file_len img)); try lia; reflexivity.
Qed.

(** The 80 records [read_inodes] reads from an image that holds them. *)
Lemma read_inodes_image (t s : fsck) :
  inode_table_start (superblock t) = 3 ->
  32768 <= file_len (fs_image t) ->
  (forall i k, 0 <= i < 80 -> 0 <= k < 256 ->
     file_byte (fs_image t) (12288 + 256 * i + k) = encode_inode (inodes s i) k) ->
  (forall i, 0 <= i < 80 -> inode_in_range (inodes s i)) ->
  exists tbl,
    read_inodes t = Some (tt, with_inodes tbl t)
    /\ forall i, 0 <= i < 80 -> same_inode (tbl i) (inodes s i).
Proof.
  intros Hits Hlen Hrec Hrange. unfold read_inodes.
  loop_total (fun n (_ : unit) t' =>
    exists tbl,
      t' = with_inodes tbl t
      /\ forall i, 0 <= i < n -> same_inode (tbl i) (inodes s i)) u t' E H.
  - unfold INODE_COUNT. lia.
  - exists (inodes t). split; [apply fsck_eta | intros i Hi; lia].
  - unfold INODE_COUNT. intros n [] t' Hn (tbl & -> & Hsame).
    rewrite (bind_eq get _ _ _ _ eq_refl).
    change (superblock (with_inodes tbl t)) with (superblock t).
    rewrite Hits.
    cbv beta iota delta [fread_into bind get ret modify BLOCK_SIZE INODE_SIZE].
    rewrite u32_small by lia.
    eexists tt, _. split; [reflexivity|].
    eexists. split; [reflexivity|].
    intros i Hi. cbn [with_inodes inodes fs_image]. unfold upd.
    destruct (Z.eqb_spec i n) as [->|Hne]; [|apply Hsame; lia].
    apply decode_encode_inode; [|apply Hrange; lia].
    intros k Hk. rewrite file_read_into_inside by lia.
    replace (3 * 4096 + n * 256 + k) with (12288 + 256 * n + k) by lia.
    apply Hrec; lia.
  - destruct H as (tbl & -> & Hsame). destruct u. exists tbl.
    unfold INODE_COUNT in Hsame.
    split; [exact E | exact Hsame].
Qed.

(** What the loader of [main] reads from an image that holds the metadata
    of [s], whatever the globals held before. *)
Lemma load_image (t s : fsck) :
  holds_metadata (fs_image t) s ->
  inode_bitmap_block (superblock s) = 1 ->
  data_bitmap_block (superblock s) = 2 ->
  inode_table_start (superblock s) = 3 ->
  superblock_in_range (superblock s) ->
  (forall i, 0 <= i < 80 -> inode_in_range (inodes s i)) ->
  exists sb ibm dbm tbl,
    (read_superblock ;; read_bitmaps ;; read_inodes) t
    = Some (tt, with_inodes tbl
                  (with_data_bitmap dbm
                     (with_inode_bitmap ibm (with_superblock sb t))))
    /\ same_superblock sb (superblock s)
    /\ (forall k, 0 <= k < 4096 -> ibm k = inode_bitmap s k)
    /\ (forall k, 0 <= k < 4096 -> dbm k = data_bitmap s k)
    /\ (forall i, 0 <= i < 80 -> same_inode (tbl i) (inodes s i)).
Proof.
  intros (Hlen & Hsb & Hib & Hdb & Hrec) H1 H2 H3 Hsr Hir.
  set (sb := decode_superblock
               (file_read_into (fs_image t) 0 4096
                               (encode_superblock (superblock t)))).
  assert (Ers : read_superblock t = Some (tt, with_superblock sb t))
    by reflexivity.
  rewrite (bind_eq _ _ _ _ _ Ers).
  assert (Hsame : same_superblock sb (superblock s)).
  { apply decode_encode_superblock; [|exact Hsr].
    intros k Hk. rewrite file_read_into_inside by lia. apply Hsb. exact Hk. }
  pose proof Hsame as (_ & _ & _ & E1 & E2 & E3 & _).
  set (ibm := file_read_into (fs_image t) 4096 4096 (inode_bitmap t)).
  set (dbm := file_read_into (fs_image t) 8192 4096 (data_bitmap t)).
  assert (Erb : read_bitmaps (with_superblock sb t)
                = Some (tt, with_data_bitmap dbm
                              (with_inode_bitmap ibm (with_superblock sb t)))).
  { unfold read_bitmaps, fread_into.
    rewrite (bind_eq get _ _ _ _ eq_refl).
    change (superblock (with_superblock sb t)) with sb.
    rewrite E1, E2, H1, H2. unfold BLOCK_SIZE.
    change (u32 (1 * 4096)) with 4096. change (u32 (2 * 4096)) with 8192.
    reflexivity. }
  rewrite (bind_eq _ _ _ _ _ Erb).
  destruct (read_inodes_image
              (with_data_bitmap dbm (with_inode_bitmap ibm (with_superblock sb t)))
              s) as (tbl & E & Htbl); try assumption.
  { cbn [with_data_bitmap with_inode_bitmap with_superblock superblock].
    rewrite E3. exact H3. }
  exists sb, ibm, dbm, tbl.
  split; [exact E|]. split; [exact Hsame|]. split; [|split; [|exact Htbl]].
  - intros k Hk. unfold ibm. rewrite file_read_into_inside by lia.
    apply Hib. exact Hk.
  - intros k Hk. unfold dbm. rewrite file_read_into_inside by lia.
    apply Hdb. exact Hk.
Qed.

(** X10.  With the supported geometry in the superblock (inode bitmap in
    block 1, data bitmap in block 2, inode table from block 3) and every
    field holding a value of its type, writing the metadata with
    [write_superblock], [write_bitmaps], [write_inodes] and reading it with
    [read_superblock], [read_bitmaps], [read_inodes] gives back the same
    superblock fields and reserved bytes, the same 4096 bytes of each
    bitmap and the same 80 inodes (every field, direct pointer and reserved
    byte), whatever the length of the file was; the writes are those of
    [persist_trace]. *)
Theorem persisted_metadata_loads_back : forall s : fsck,
  inode_bitmap_block (superblock s) = 1 ->
  data_bitmap_block (superblock s) = 2 ->
  inode_table_start (superblock s) = 3 ->
  superblock_in_range (superblock s) ->
  (forall i, 0 <= i < 80 -> inode_in_range (inodes s i)) ->
  exists s',
    (write_superblock ;; write_bitmaps ;; write_inodes ;;
     read_superblock ;; read_bitmaps ;; read_inodes) s = Some (tt, s')
    /\ same_superblock (superblock s') (superblock s)
    /\ (forall k, 0 <= k < 4096 -> inode_bitmap s' k = inode_bitmap s k)
    /\ (forall k, 0 <= k < 4096 -> data_bitmap s' k = data_bitmap s k)
    /\ (forall i, 0 <= i < 80 -> same_inode (inodes s' i) (inodes s i))
    /\ fwrites s' = fwrites s ++ persist_trace.
Proof.
  intros s H1 H2 H3 Hsr Hir.
  destruct (persist_image s H1 H2 H3) as (img & E & Himg).
  apply bind_some in E. destruct E as ([] & s1 & Ea & E).
  apply bind_some in E. destruct E as ([] & s2 & Eb & Ec).
  rewrite (bind_eq _ _ _ _ _ Ea), (bind_eq _ _ _ _ _ Eb), (bind_eq _ _ _ _ _ Ec).
  destruct (load_image (with_image img (fwrites s ++ persist_trace) s) s
              Himg H1 H2 H3 Hsr Hir)
    as (sb & ibm & dbm & tbl & El & Hsb & Hib & Hdb & Htbl).
  eexists. split; [exact El|].
  split; [exact Hsb|]. split; [exact Hib|]. split; [exact Hdb|].
  split; [exact Htbl | reflexivity].
Qed.

Lemma persisted_metadata_loads_back_witness :
  exists s',
    (write_superblock ;; write_bitmaps ;; write_inodes ;;
     read_superblock ;; read_bitmaps ;; read_inodes)
      (with_image no_file [] state_shared_block) = Some (tt, s')
    /\ same_superblock (superblock s') good_superblock
    /\ same_inode (inodes s' 1) (file_inode 10 0).
Proof.
  destruct (persisted_metadata_loads_back
              (with_image no_file [] state_shared_block))
    as (s' & E & Hsb & _ & _ & Hi & _); try reflexivity.
  - unfold superblock_in_range, uint32.
    change (superblock (with_image no_file [] state_shared_block))
      with good_superblock.
    unfold good_superblock;
      cbn [magic block_size total_blocks inode_bitmap_block data_bitmap_block
           inode_table_start data_block_start inode_size inode_count].
    lia.
  - intros i _.
    change (inodes (with_image no_file [] state_shared_block) i)
      with (upd (upd no_inodes 0 (file_inode 10 0)) 1 (file_inode 10 0) i).
    unfold upd, no_inodes, file_inode, zero_inode, inode_in_range, uint32.
    destruct (i =? 1), (i =? 0);
      cbn [mode uid gid size atime ctime mtime dtime nlink blocks direct_blocks
           indirect_block double_indirect triple_indirect];
      repeat split; try lia;
      unfold upd; destruct (_ =? 0); lia.
  - exists s'. split; [exact E|]. split; [exact Hsb|].
    exact (Hi 1 ltac:(lia)).
Defined.

(** ** What the repair leaves alone *)

Lemma same_attributes_refl (a : inode_t) : same_attributes a a.
Proof. repeat split. Qed.

Lemma attributes_kept_refl (s : fsck) : attributes_kept s s.
Proof. intros i. apply same_attributes_refl. Qed.

Lemma attributes_kept_trans (s t u : fsck) :
  attributes_kept s t -> attributes_kept t u -> attributes_kept s u.
Proof.
  intros H1 H2 i. specialize (H1 i). specialize (H2 i).
  unfold same_attributes in *.
  destruct H1 as (?&?&?&?&?&?&?&?&?&?&?&?&?),
           H2 as (?&?&?&?&?&?&?&?&?&?&?&?&?).
  repeat split; congruence.
Qed.

Lemma attributes_kept_upd (s : fsck) (i : Z) (ino : inode_t) :
  same_attributes ino (inodes s i) ->
  attributes_kept s (with_inodes (upd (inodes s) i ino) s).
Proof.
  intros H k. cbn [with_inodes inodes]. unfold upd.
  destruct (Z.eqb_spec k i) as [->|_]; [exact H | apply same_attributes_refl].
Qed.

Lemma fix_errors_attributes : preserves attributes_kept fix_errors.
Proof.
  unfold fix_errors, fix_superblock, fix_field, fix_inode_bitmap,
    fix_data_bitmap, fix_bad_blocks, fix_direct_blocks, fix_indirect_block,
    fix_indirect_entries, read_indirect, fread, write_superblock,
    write_bitmaps, write_inodes, fwrite, incr_errors_fixed.
  frame attributes_kept_refl attributes_kept_trans;
    first [ apply attributes_kept_upd; repeat split
          | intros ?; apply same_attributes_refl ].
Qed.

Lemma repaired_pointer_cases (b : Z) :
  repaired_pointer b = b \/ repaired_pointer b = 0.
Proof. unfold repaired_pointer. destruct (bad_pointer b); auto. Qed.

Lemma repaired_pointer_uint32 (b : Z) :
  uint32 b -> uint32 (repaired_pointer b).
Proof.
  unfold repaired_pointer, uint32. destruct (bad_pointer b); lia.
Qed.

(** X11.  On an image of at least 64 blocks the repair returns, and in the
    inode table it has changed nothing but block pointers: every inode has
    its mode, owner, group, size, its four times, link count, block count,
    double and triple indirect pointers and reserved bytes as before; each
    direct pointer and each single-indirect pointer is either what it was
    or 0; so an inode whose fields held values of their types before holds
    such values after. *)
Theorem fix_errors_changes_only_pointers : forall s : fsck,
  262144 <= file_len (fs_image s) ->
  exists s',
    fix_errors s = Some (true, s')
    /\ (forall i, same_attributes (inodes s' i) (inodes s i))
    /\ (forall i j, direct_blocks (inodes s' i) j = direct_blocks (inodes s i) j
                    \/ direct_blocks (inodes s' i) j = 0)
    /\ (forall i, indirect_block (inodes s' i) = indirect_block (inodes s i)
                  \/ indirect_block (inodes s' i) = 0)
    /\ (forall i, inode_in_range (inodes s i) -> inode_in_range (inodes s' i)).
Proof.
  intros s Hlen.
  destruct (fix_errors_spec s Hlen)
    as (ibm & dbm & tbl & img & ws & e & E & _ & _ & _ & _ & _ & _ & _ & _
        & Hd & Hi & _).
  pose proof (fix_errors_attributes _ _ _ E) as Hk.
  unfold attributes_kept in Hk. cbn [inodes] in Hk.
  assert (Hd' : forall i j, direct_blocks (tbl i) j = direct_blocks (inodes s i) j
                            \/ direct_blocks (tbl i) j = 0).
  { intros i j. rewrite Hd.
    destruct (repaired_upto 80 s i && ((0 <=? j) && (j <? 12)));
      [apply repaired_pointer_cases | now left]. }
  assert (Hi' : forall i, indirect_block (tbl i) = indirect_block (inodes s i)
                          \/ indirect_block (tbl i) = 0).
  { intros i. rewrite Hi.
    destruct (repaired_upto 80 s i);
      [apply repaired_pointer_cases | now left]. }
  eexists. split; [exact E|]. cbn [inodes].
  split; [exact Hk|]. split; [exact Hd'|]. split; [exact Hi'|].
  intros i Hr. specialize (Hk i). specialize (Hi' i).
  unfold inode_in_range, same_attributes, uint32 in *.
  destruct Hk as (-> & -> & -> & -> & -> & -> & -> & -> & -> & -> & -> & -> & _).
  destruct Hr as (?&?&?&?&?&?&?&?&?&?&Hdr&?&?&?).
  repeat split; try lia.
  - destruct (Hd' i j) as [-> | ->]; [apply Hdr; lia | lia].
  - destruct (Hd' i j) as [-> | ->]; [apply Hdr; lia | lia].
Qed.

Lemma fix_errors_changes_only_pointers_witness :
  exists s',
    fix_errors state_bad_entry = Some (true, s')
    /\ same_attributes (inodes s' 0) (file_inode 9 10)
    /\ inode_in_range (inodes s' 0).
Proof.
  destruct (fix_errors_changes_only_pointers state_bad_entry)
    as (s' & E & Ha & _ & _ & Hr).
  - cbn. lia.
  - exists s'. split; [exact E|]. split; [exact (Ha 0)|].
    apply Hr.
    change (inodes state_bad_entry 0) with (file_inode 9 10).
    unfold file_inode, inode_in_range, uint32;
      cbn [mode uid gid size atime ctime mtime dtime nlink blocks direct_blocks
           indirect_block double_indirect triple_indirect].
    repeat split; try lia; unfold upd; destruct (_ =? 0); lia.
Defined.

(** ** The repaired image read by a later run *)

Lemma repaired_superblock_in_range (sb : superblock_t) :
  superblock_in_range (repaired_superblock sb).
Proof.
  unfold superblock_in_range, repaired_superblock, uint32;
    cbn [magic block_size total_blocks inode_bitmap_block data_bitmap_block
         inode_table_start data_block_start inode_size inode_count].
  lia.
Qed.

Lemma superblock_kept_refl (s : fsck) : superblock_kept s s.
Proof. reflexivity. Qed.

Lemma superblock_kept_trans (s t u : fsck) :
  superblock_kept s t -> superblock_kept t u -> superblock_kept s u.
Proof. unfold superblock_kept. congruence. Qed.

Lemma fix_bitmaps_and_blocks_superblock :
  preserves superblock_kept
            (fix_inode_bitmap ;; fix_data_bitmap ;; fix_bad_blocks).
Proof.
  unfold fix_inode_bitmap, fix_data_bitmap, fix_bad_blocks, fix_direct_blocks,
    fix_indirect_block, fix_indirect_entries, read_indirect, fread, fwrite,
    incr_errors_fixed.
  frame superblock_kept_refl superblock_kept_trans; reflexivity.
Qed.

(** The image that [fix_errors] leaves holds the metadata it leaves in
    memory. *)
Lemma fix_errors_image (s s' : fsck) :
  fix_errors s = Some (true, s') -> holds_metadata (fs_image s') s'.
Proof.
  unfold fix_errors. intros E.
  rewrite (bind_eq _ _ _ _ _ (fix_superblock_eq s)) in E.
  set (s1 := with_errors_fixed _ _) in E.
  apply bind_some in E. destruct E as ([] & s2 & E2 & E).
  apply bind_some in E. destruct E as ([] & s3 & E3 & E).
  apply bind_some in E. destruct E as ([] & s4 & E4 & E).
  assert (Hsb : superblock s4 = repaired_superblock (superblock s)).
  { apply (fix_bitmaps_and_blocks_superblock s1 tt s4).
    rewrite (bind_eq _ _ _ _ _ E2), (bind_eq _ _ _ _ _ E3). exact E4. }
  destruct (persist_image s4) as (img & Ep & Himg);
    try (rewrite Hsb; reflexivity).
  apply bind_some in Ep. destruct Ep as ([] & u1 & Ea & Ep).
  apply bind_some in Ep. destruct Ep as ([] & u2 & Eb & Ec).
  rewrite (bind_eq _ _ _ _ _ Ea), (bind_eq _ _ _ _ _ Eb),
    (bind_eq _ _ _ _ _ Ec) in E.
  inversion E. exact Himg.
Qed.

(** X12.  A later run finds what the repair computed.  On an image of at
    least 64 blocks, with the fields of the 80 inodes holding values of
    their types, [fix_errors] returns, and a run that then opens the file it
    left and loads it with [read_superblock], [read_bitmaps], [read_inodes]
    has, whatever its globals held before, the metadata of the repairing
    run: the nine superblock fields and the reserved bytes, the 4096 bytes
    of each bitmap, and the 80 inodes. *)
Theorem repaired_image_loads_back : forall s : fsck,
  262144 <= file_len (fs_image s) ->
  (forall i, 0 <= i < 80 -> inode_in_range (inodes s i)) ->
  exists s',
    fix_errors s = Some (true, s')
    /\ forall t : fsck, fs_image t = fs_image s' ->
       exists t',
         (read_superblock ;; read_bitmaps ;; read_inodes) t = Some (tt, t')
         /\ same_superblock (superblock t') (superblock s')
         /\ (forall k, 0 <= k < 4096 -> inode_bitmap t' k = inode_bitmap s' k)
         /\ (forall k, 0 <= k < 4096 -> data_bitmap t' k = data_bitmap s' k)
         /\ (forall i, 0 <= i < 80 -> same_inode (inodes t' i) (inodes s' i))
         /\ fs_image t' = fs_image s'.
Proof.
  intros s Hlen Hir.
  destruct (fix_errors_spec s Hlen)
    as (ibm & dbm & tbl & img & ws & e & E & _ & _ & _ & _ & _ & _ & _ & _
        & Hd & Hi & _).
  pose proof (fix_errors_image _ _ E) as Himg.
  pose proof (fix_errors_attributes _ _ _ E) as Hk.
  unfold attributes_kept in Hk. cbn [inodes] in Hk.
  eexists. split; [exact E|].
  intros t Ht. cbn [fs_image] in Ht, Himg.
  rewrite <- Ht in Himg.
  destruct (load_image t _ Himg eq_refl eq_refl eq_refl
                       (repaired_superblock_in_range _))
    as (sb' & ibm' & dbm' & tbl' & El & Hsb & Hib & Hdb & Htbl).
  - cbn [inodes]. intros i Hi80. specialize (Hir i Hi80). specialize (Hk i).
    unfold inode_in_range, same_attributes, uint32 in *.
    destruct Hk as (-> & -> & -> & -> & -> & -> & -> & -> & -> & -> & -> & -> & _).
    destruct Hir as (?&?&?&?&?&?&?&?&?&?&Hdr&?&?&?).
    assert (Hrp : forall b, 0 <= b < 2 ^ 32 -> 0 <= repaired_pointer b < 2 ^ 32)
      by exact repaired_pointer_uint32.
    repeat split; try lia.
    + rewrite Hd. destruct (repaired_upto 80 s i && _);
        [apply Hrp|]; apply Hdr; lia.
    + rewrite Hd. destruct (repaired_upto 80 s i && _);
        [apply Hrp|]; apply Hdr; lia.
    + rewrite Hi. destruct (repaired_upto 80 s i); [apply Hrp|]; lia.
    + rewrite Hi. destruct (repaired_upto 80 s i); [apply Hrp|]; lia.
  - eexists. split; [exact El|].
    cbn [superblock inode_bitmap data_bitmap inodes fs_image with_inodes
         with_data_bitmap with_inode_bitmap with_superblock].
    split; [exact Hsb|]. split; [exact Hib|]. split; [exact Hdb|].
    split; [exact Htbl | exact Ht].
Qed.

Lemma repaired_image_loads_back_witness :
  exists s' t',
    fix_errors state_bad_entry = Some (true, s')
    /\ (read_superblock ;; read_bitmaps ;; read_inodes)
         (initial_state (fs_image s')) = Some (tt, t')
    /\ same_inode (inodes t' 0) (inodes s' 0).
Proof.
  destruct (repaired_image_loads_back state_bad_entry) as (s' & E & Hl).
  - cbn. lia.
  - intros i _.
    change (inodes state_bad_entry i) with (upd no_inodes 0 (file_inode 9 10) i).
    unfold upd, no_inodes, file_inode, zero_inode, inode_in_range, uint32.
    destruct (i =? 0);
      cbn [mode uid gid size atime ctime mtime dtime nlink blocks direct_blocks
           indirect_block double_indirect triple_indirect];
      repeat split; try lia;
      unfold upd; destruct (_ =? 0); lia.
  - destruct (Hl (initial_state (fs_image s')) eq_refl)
      as (t' & El & _ & _ & _ & Hi & _).
    exists s', t'. split; [exact E|]. split; [exact El|].
    exact (Hi 0 ltac:(lia)).
Defined.
